(** * The product-imagery pipeline of [backend/langgraph_pipeline.py]

    A shallow embedding of [ProductImagePipeline]: the five stage functions
    ([_extract_video], [_extract_frames], [_identify_products],
    [_segment_products], [_enhance_products]), the helper
    [_extract_video_id] and the driver [process_video].

    Conventions of the embedding.
    - A Python [str] is a [string]; its characters are the code points
      0..255.
    - A Python [int] is a [Z].  A Python [float] is the rational number it
      denotes, a [Q]; a subtraction or a division of floats gives the
      double nearest to the exact result, and the values that are not
      numbers (NaN, the infinities) are left out.
    - A value decoded by [json.loads] is a [pyval].
    - A Python exception is an [exn]; a computation that may raise returns
      an [outcome].
    - The stages mutate one [State] dictionary and call the outside world
      (file system, yt-dlp, OpenCV, PIL, Gemini).  The outside is an
      abstract [World] threaded through every call; a stage body lives in
      the monad [M] over the pair of the run state and the world. *)

From Stdlib Require Import List String Ascii ZArith QArith Qabs Qround Qpower Bool Lia Lqa.
From Stdlib Require Import DecimalString DecimalZ Sorted.
Import ListNotations.

Local Open Scope bool_scope.
Local Open Scope list_scope.
Local Open Scope string_scope.

(* ================================================================== *)
(** ** Exceptions and fallible results *)

(** The exception classes the pipeline code can raise by itself, and
    [CollaboratorError] for whatever an external call raises. *)
Inductive exn : Type :=
| ZeroDivisionError
| KeyError (key : string)
| TypeError
| AttributeError
| IndexError
| ValueError
| CollaboratorError (msg : string).

Inductive outcome (A : Type) : Type :=
| Ok (a : A)
| Raise (e : exn).
Arguments Ok {A} a.
Arguments Raise {A} e.

Definition obind {A B} (o : outcome A) (f : A -> outcome B) : outcome B :=
  match o with
  | Ok a => f a
  | Raise e => Raise e
  end.

Declare Scope outcome_scope.
Delimit Scope outcome_scope with outcome.
Notation "x <- m ;; k" := (obind m (fun x => k))
  (at level 61, m at next level, right associativity) : outcome_scope.

(* ================================================================== *)
(** ** Python strings *)

Module PyStr.

(** [needle in hay]. *)
Fixpoint contains (needle hay : string) : bool :=
  prefix needle hay ||
  match hay with
  | EmptyString => false
  | String _ hay' => contains needle hay'
  end.

(** [s.split(sep)] for a non-empty [sep], scanning left to right; [skip]
    counts the characters of a separator just matched that are still to be
    consumed.  The head of the result is the piece being built. *)
Fixpoint split_from (sep : string) (skip : nat) (s : string) : list string :=
  match s with
  | EmptyString => [EmptyString]
  | String c s' =>
      match skip with
      | S k => split_from sep k s'
      | O =>
          if prefix sep s
          then EmptyString :: split_from sep (length sep - 1) s'
          else match split_from sep 0 s' with
               | piece :: pieces => String c piece :: pieces
               | [] => [String c EmptyString]
               end
      end
  end.

(** [s.split(sep)]: an empty separator is a [ValueError]. *)
Definition split (s sep : string) : outcome (list string) :=
  if (sep =? "")%string then Raise ValueError else Ok (split_from sep 0 s).

(** [s.replace(old, new)], every non-overlapping occurrence from the left. *)
Fixpoint replace_from (old new : string) (skip : nat) (s : string) : string :=
  match s with
  | EmptyString => EmptyString
  | String c s' =>
      match skip with
      | S k => replace_from old new k s'
      | O =>
          if prefix old s
          then new ++ replace_from old new (length old - 1) s'
          else String c (replace_from old new 0 s')
      end
  end.

Fixpoint interleave (new s : string) : string :=
  match s with
  | EmptyString => EmptyString
  | String c s' => String c (new ++ interleave new s')
  end.

Definition replace (s old new : string) : string :=
  if (old =? "")%string then new ++ interleave new s
  else replace_from old new 0 s.

(** [c.lower()] on the code points below 256: the ASCII capitals and the
    Latin-1 capitals (U+00C0..U+00DE without the multiplication sign). *)
Definition lower_char (c : ascii) : ascii :=
  let n := nat_of_ascii c in
  if ((65 <=? n) && (n <=? 90))%nat
     || ((192 <=? n) && (n <=? 222) && negb (n =? 215))%nat
  then ascii_of_nat (n + 32)
  else c.

Fixpoint lower (s : string) : string :=
  match s with
  | EmptyString => EmptyString
  | String c s' => String (lower_char c) (lower s')
  end.

(** [s[:n]]. *)
Definition slice_to (n : nat) (s : string) : string := substring 0 n s.

(** [str(n)] for an [int]. *)
Definition of_int (n : Z) : string := NilZero.string_of_int (Z.to_int n).

(** The pieces of a string as one-character strings ([for c in s]). *)
Fixpoint chars (s : string) : list string :=
  match s with
  | EmptyString => []
  | String c s' => String c EmptyString :: chars s'
  end.

End PyStr.

(** [l[i]] on a list. *)
Definition py_index {A} (l : list A) (i : nat) : outcome A :=
  match nth_error l i with
  | Some a => Ok a
  | None => Raise IndexError
  end.

(** [os.path.join(a, b)] on POSIX paths. *)
Definition os_path_join (a b : string) : string :=
  if prefix "/" b then b
  else if (a =? "")%string then b
  else if prefix "/" (string_of_list_ascii (rev (list_ascii_of_string a)))
       then a ++ b
       else a ++ "/" ++ b.

(* ================================================================== *)
(** ** Video identifier *)

Definition _extract_video_id (url : string) : outcome string :=
  (if PyStr.contains "youtube.com/watch?v=" url then
     pieces <- PyStr.split url "v=" ;;
     tail <- py_index pieces 1 ;;
     pieces' <- PyStr.split tail "&" ;;
     py_index pieces' 0
   else if PyStr.contains "youtube.com/shorts/" url then
     pieces <- PyStr.split url "shorts/" ;;
     tail <- py_index pieces 1 ;;
     pieces' <- PyStr.split tail "?" ;;
     py_index pieces' 0
   else if PyStr.contains "youtu.be/" url then
     pieces <- PyStr.split url "youtu.be/" ;;
     tail <- py_index pieces 1 ;;
     pieces' <- PyStr.split tail "?" ;;
     py_index pieces' 0
   else Ok "unknown")%outcome.

(* ================================================================== *)
(** ** Numbers *)

Definition Qltb (x y : Q) : bool := negb (Qle_bool y x).

(** [int(x)] of a float: truncation toward zero. *)
Definition py_int (x : Q) : Z := Z.quot (Qnum x) (Zpos (Qden x)).

(** *** Floats

    A float is modelled by the rational number it stands for.  The
    result of an operation on floats is the double nearest to the exact
    result, a tie going to the even significand; a significand has 53
    bits and the smallest exponent is -1074.  Infinities and NaN are
    left out: a result beyond the largest double is rounded as if the
    exponent had no upper limit, and so is an int beyond it, which the
    conversion to a float refuses with [OverflowError]; the ints that
    the code converts count frames. *)

Definition pow2 (k : Z) : Q := (2 ^ k)%Q.

(** The binary logarithm of a positive number, rounded down. *)
Definition ilog2 (x : Q) : Z :=
  let k := (Z.log2 (Qnum x) - Z.log2 (Zpos (Qden x)))%Z in
  if Qle_bool (pow2 k) x then k else (k - 1)%Z.

(** The nearest integer, a tie going to the even one. *)
Definition round_half_even (x : Q) : Z :=
  let f := Qfloor x in
  let r := (x - inject_Z f)%Q in
  if Qltb r 0.5 then f
  else if Qltb 0.5 r then (f + 1)%Z
  else if Z.even f then f else (f + 1)%Z.

(** The exponent of the last bit of the significand of a positive
    number. *)
Definition ulp_exponent (x : Q) : Z := Z.max (ilog2 x - 52) (-1074).

Definition nearest_positive (x : Q) : Q :=
  let e := ulp_exponent x in
  (inject_Z (round_half_even (x / pow2 e)) * pow2 e)%Q.

(** The double nearest to [x]. *)
Definition nearest_double (x : Q) : Q :=
  Qred match Qnum x with
       | Z0 => 0
       | Zpos _ => nearest_positive x
       | Zneg _ => - nearest_positive (- x)
       end.

(** [a - b] on floats. *)
Definition float_sub (a b : Q) : Q := nearest_double (a - b).

(** [a / b] for an int [a] and a float [b] that is not zero: the int is
    converted to a float and the quotient is rounded. *)
Definition float_truediv (a b : Q) : Q := nearest_double (nearest_double a / b).

(** [a / b] with an int [a] and a float divisor. *)
Definition py_truediv (a b : Q) : outcome Q :=
  if Qeq_bool b 0 then Raise ZeroDivisionError else Ok (float_truediv a b).

(** [a % b] on integers; the result has the sign of [b]. *)
Definition py_mod (a b : Z) : outcome Z :=
  if (b =? 0)%Z then Raise ZeroDivisionError else Ok (a mod b)%Z.

(* ================================================================== *)
(** ** Values decoded from JSON *)

#[local] Set Warnings "-register-all".

Inductive pyval : Type :=
| PNone
| PBool (b : bool)
| PInt (n : Z)
| PFloat (x : Q)
| PStr (s : string)
| PList (items : list pyval)
| PDict (entries : list (string * pyval)).

Fixpoint lookup (key : string) (entries : list (string * pyval)) : option pyval :=
  match entries with
  | [] => None
  | (k, v) :: rest => if (k =? key)%string then Some v else lookup key rest
  end.

(** Truth value of an object in a condition. *)
Definition truthy (v : pyval) : bool :=
  match v with
  | PNone => false
  | PBool b => b
  | PInt n => negb (n =? 0)%Z
  | PFloat x => negb (Qeq_bool x 0)
  | PStr s => negb (s =? "")%string
  | PList items => match items with [] => false | _ :: _ => true end
  | PDict entries => match entries with [] => false | _ :: _ => true end
  end.

(** [d.get(key, default)]; only a dict has the method. *)
Definition py_get (d : pyval) (key : string) (default : pyval) : outcome pyval :=
  match d with
  | PDict entries =>
      match lookup key entries with
      | Some v => Ok v
      | None => Ok default
      end
  | _ => Raise AttributeError
  end.

(** [d[key]] with a string key. *)
Definition py_getitem (d : pyval) (key : string) : outcome pyval :=
  match d with
  | PDict entries =>
      match lookup key entries with
      | Some v => Ok v
      | None => Raise (KeyError key)
      end
  | _ => Raise TypeError
  end.

(** The items a [for] loop walks through. *)
Definition py_iter (v : pyval) : outcome (list pyval) :=
  match v with
  | PList items => Ok items
  | PDict entries => Ok (map (fun kv => PStr (fst kv)) entries)
  | PStr s => Ok (map PStr (PyStr.chars s))
  | _ => Raise TypeError
  end.

(** [v > y] against a float. *)
Definition py_gt (v : pyval) (y : Q) : outcome bool :=
  match v with
  | PBool b => Ok (Qltb y (inject_Z (Z.b2z b)))
  | PInt n => Ok (Qltb y (inject_Z n))
  | PFloat x => Ok (Qltb y x)
  | _ => Raise TypeError
  end.

(** [v.replace(old, new)]; only a [str] has the method. *)
Definition py_replace (v : pyval) (old new : string) : outcome string :=
  match v with
  | PStr s => Ok (PyStr.replace s old new)
  | _ => Raise AttributeError
  end.

(* ================================================================== *)
(** ** The data model *)

Module ProductInfo.
Record t : Type := mk {
  name : pyval;
  confidence : pyval;
  description : pyval;
  timestamp : Q;
  frame_image_path : string;
  segmented_image_path : string;
  enhanced_images : list string
}.

(** The dataclass constructor with its defaults after [__post_init__]. *)
Definition new (name confidence description : pyval) (timestamp : Q) : t :=
  mk name confidence description timestamp "" "" [].

Definition set_frame_image_path (v : string) (p : t) : t :=
  mk (name p) (confidence p) (description p) (timestamp p)
     v (segmented_image_path p) (enhanced_images p).

Definition set_segmented_image_path (v : string) (p : t) : t :=
  mk (name p) (confidence p) (description p) (timestamp p)
     (frame_image_path p) v (enhanced_images p).

Definition set_enhanced_images (v : list string) (p : t) : t :=
  mk (name p) (confidence p) (description p) (timestamp p)
     (frame_image_path p) (segmented_image_path p) v.
End ProductInfo.

(** A frame dictionary.  [products_detected] holds references to the
  [ProductInfo] objects of [State.products]: a reference is the position
  of the object in that list, so that a later mutation of the object is
  seen through both. *)
Module Frame.
Record t : Type := mk {
  frame_number : Z;
  timestamp : Q;
  image_path : string;
  products_detected : list nat
}.

Definition append_products_detected (ref : nat) (f : t) : t :=
  mk (frame_number f) (timestamp f) (image_path f)
     (products_detected f ++ [ref]).
End Frame.

Module State.
Record t : Type := mk {
  url : string;
  video_id : string;
  video_path : string;
  frames : list Frame.t;
  products : list ProductInfo.t;
  error : option string
}.

Definition set_video_id (v : string) (s : t) : t :=
  mk (url s) v (video_path s) (frames s) (products s) (error s).
Definition set_video_path (v : string) (s : t) : t :=
  mk (url s) (video_id s) v (frames s) (products s) (error s).
Definition set_frames (v : list Frame.t) (s : t) : t :=
  mk (url s) (video_id s) (video_path s) v (products s) (error s).
Definition set_products (v : list ProductInfo.t) (s : t) : t :=
  mk (url s) (video_id s) (video_path s) (frames s) v (error s).
Definition set_error (v : option string) (s : t) : t :=
  mk (url s) (video_id s) (video_path s) (frames s) (products s) v.
End State.

(** In-place update of the element at a position; nothing out of range. *)
Fixpoint update_nth {A} (i : nat) (f : A -> A) (l : list A) : list A :=
  match l, i with
  | [], _ => []
  | x :: l', O => f x :: l'
  | x :: l', S i' => x :: update_nth i' f l'
  end.

(** [enumerate(l)]. *)
Definition enumerate {A} (l : list A) : list (nat * A) :=
  combine (seq 0 (List.length l)) l.

(* ================================================================== *)
(** ** The collaborators *)

(** The directive sent to the vision model, without its fixed wording. *)
Inductive Prompt : Type :=
| DetectionPrompt
| SegmentationPrompt (product_name : pyval)
| EnhancementPrompt (style : string).

(** The reply of the model; reading [response.text] may raise. *)
Record Response : Type := { text : outcome string }.

(** An opened [cv2.VideoCapture]: the two properties the code reads and
    the frames [cap.read()] hands out before it reports the end.  A capture
    that failed to open reports 0 for both and has no frame. *)
Record VideoCapture (CvFrame : Type) : Type := {
  CAP_PROP_FPS : Q;
  CAP_PROP_FRAME_COUNT : Q;
  decoded : list CvFrame
}.
Arguments CAP_PROP_FPS {CvFrame} _.
Arguments CAP_PROP_FRAME_COUNT {CvFrame} _.
Arguments decoded {CvFrame} _.

Record Collaborators : Type := {
  World : Type;
  CvFrame : Type;
  PILImage : Type;
  (** [str(e)] *)
  exn_str : exn -> string;
  (** [json.loads]; [None] is [json.JSONDecodeError] *)
  json_loads : string -> option pyval;
  os_path_exists : string -> World -> bool * World;
  (** [YoutubeDL({'outtmpl': outtmpl, ...}).download([url])] *)
  ydl_download : string -> string -> World -> outcome unit * World;
  cv2_VideoCapture : string -> World -> outcome (VideoCapture CvFrame) * World;
  cv2_imwrite : string -> CvFrame -> World -> outcome unit * World;
  Image_open : string -> World -> outcome PILImage * World;
  generate_content : Prompt -> PILImage -> World -> outcome Response * World;
  Image_save : PILImage -> string -> World -> outcome unit * World
}.

(* ================================================================== *)
(** ** The stage monad *)

Section Stages.

Context (C : Collaborators).

(** A piece of a stage body: it reads and mutates the run state, calls the
    outside, and either returns or raises.  What it mutated before it
    raised stays mutated. *)
Definition M (A : Type) : Type :=
  State.t -> World C -> outcome A * State.t * World C.

Definition ret {A} (a : A) : M A := fun st w => (Ok a, st, w).

Definition bind {A B} (m : M A) (f : A -> M B) : M B :=
  fun st w =>
    match m st w with
    | (Ok a, st', w') => f a st' w'
    | (Raise e, st', w') => (Raise e, st', w')
    end.

(** Reading one key of the state dictionary. *)
Definition gets {A} (key : State.t -> A) : M A := fun st w => (Ok (key st), st, w).

Definition modify (f : State.t -> State.t) : M unit :=
  fun st w => (Ok tt, f st, w).

(** A value computed by the interpreter alone. *)
Definition pure {A} (o : outcome A) : M A := fun st w => (o, st, w).

(** A call to a collaborator. *)
Definition call {A} (f : World C -> outcome A * World C) : M A :=
  fun st w => let (o, w') := f w in (o, st, w').

(** A call that cannot raise. *)
Definition ask {A} (f : World C -> A * World C) : M A :=
  fun st w => let (a, w') := f w in (Ok a, st, w').

Declare Scope stage_scope.
Delimit Scope stage_scope with stage.
Notation "x <- m ;; k" := (bind m (fun x => k))
  (at level 61, m at next level, right associativity) : stage_scope.
Notation "m ;;; k" := (bind m (fun _ => k))
  (at level 61, right associativity) : stage_scope.
Local Open Scope stage_scope.

(** [for x in l: body]. *)
Fixpoint for_each {A} (l : list A) (body : A -> M unit) : M unit :=
  match l with
  | [] => ret tt
  | x :: l' => body x ;;; for_each l' body
  end.

(** A loop that carries local variables [acc] from one round to the next. *)
Fixpoint for_fold {A B} (l : list A) (acc : B) (body : B -> A -> M B) : M B :=
  match l with
  | [] => ret acc
  | x :: l' => acc' <- body acc x ;; for_fold l' acc' body
  end.

(** [try: body / except Exception as e: state["error"] = f"{label}{str(e)}"]
    followed by [return state]. *)
Definition try_stage (label : string) (body : M unit)
  : State.t -> World C -> State.t * World C :=
  fun st w =>
    match body st w with
    | (Ok _, st', w') => (st', w')
    | (Raise e, st', w') =>
        (State.set_error (Some (label ++ exn_str C e)) st', w')
    end.

Definition output_dir : string := "output".

(* ------------------------------------------------------------------ *)
(** ** Stage 1: [_extract_video] *)

Definition extract_video_body : M unit :=
  url <- gets State.url ;;
  video_id <- pure (_extract_video_id url) ;;
  modify (State.set_video_id video_id) ;;;
  let video_path := os_path_join output_dir ("video_" ++ video_id ++ ".mp4") in
  modify (State.set_video_path video_path) ;;;
  present <- ask (os_path_exists C video_path) ;;
  if negb present
  then url' <- gets State.url ;; call (ydl_download C video_path url')
  else ret tt.

Definition _extract_video : State.t -> World C -> State.t * World C :=
  try_stage "Video extraction failed: " extract_video_body.

(* ------------------------------------------------------------------ *)
(** ** Stage 2: [_extract_frames] *)

(** One round of the [while True] loop for a frame that [cap.read()]
    returned; the local variables are [frame_number] and [frames]. *)
Definition read_frame (fps : Q) (frame_interval : Z)
    (vars : Z * list Frame.t) (frame : CvFrame C) : M (Z * list Frame.t) :=
  let (frame_number, frames) := vars in
  r <- pure (py_mod frame_number frame_interval) ;;
  frames' <-
    (if (r =? 0)%Z then
       timestamp <- pure (py_truediv (inject_Z frame_number) fps) ;;
       video_id <- gets State.video_id ;;
       let frame_path :=
         os_path_join output_dir
           ("frame_" ++ video_id ++ "_" ++ PyStr.of_int frame_number ++ ".jpg") in
       call (cv2_imwrite C frame_path frame) ;;;
       ret (frames ++ [Frame.mk frame_number timestamp frame_path []])%list
     else ret frames) ;;
  ret ((frame_number + 1)%Z, frames').

(** [frame_interval = int(fps * 2)]. *)
Definition frame_interval_of (fps : Q) : Z := py_int (fps * 2)%Q.

Definition extract_frames_body : M unit :=
  video_path <- gets State.video_path ;;
  cap <- call (cv2_VideoCapture C video_path) ;;
  let fps := CAP_PROP_FPS cap in
  let frame_count := py_int (CAP_PROP_FRAME_COUNT cap) in
  duration <- pure (py_truediv (inject_Z frame_count) fps) ;;
  let frame_interval := frame_interval_of fps in
  vars <- for_fold (decoded cap) (0%Z, []) (read_frame fps frame_interval) ;;
  modify (State.set_frames (snd vars)).

Definition _extract_frames : State.t -> World C -> State.t * World C :=
  try_stage "Frame extraction failed: " extract_frames_body.

(* ------------------------------------------------------------------ *)
(** ** Stage 3: [_identify_products] *)

(** [state["products"].append(product_info)] then
    [frame_data["products_detected"].append(product_info)], for the frame
    at position [i] of [state["frames"]]. *)
Definition append_product (i : nat) (product_info : ProductInfo.t) : M unit :=
  modify (fun st => State.set_products (State.products st ++ [product_info])%list st) ;;;
  modify (fun st =>
    let ref := (List.length (State.products st) - 1)%nat in
    State.set_frames
      (update_nth i (Frame.append_products_detected ref) (State.frames st)) st).

(** The body of [for product in result.get("products", [])]. *)
Definition identify_candidate (i : nat) (frame_data : Frame.t) (product : pyval)
  : M unit :=
  good <- pure (py_get product "is_good_frame" (PBool false)) ;;
  if truthy good then
    conf <- pure (py_get product "confidence" (PInt 0)) ;;
    above <- pure (py_gt conf 0.5%Q) ;;
    if above : bool then
      name <- pure (py_getitem product "name") ;;
      confidence <- pure (py_getitem product "confidence") ;;
      description <- pure (py_getitem product "description") ;;
      append_product i
        (ProductInfo.new name confidence description (Frame.timestamp frame_data))
    else ret tt
  else ret tt.

Definition fallback_keywords : list string :=
  ["product"; "item"; "object"; "thing"; "device"; "tool"; "cosmetic";
   "makeup"; "phone"; "laptop"; "book"; "food"; "drink"].

(** The handler of [json.JSONDecodeError]. *)
Definition identify_fallback (i : nat) (frame_data : Frame.t) (response : Response)
  : M unit :=
  raw <- pure (text response) ;;
  let response_lower := PyStr.lower raw in
  if existsb (fun word => PyStr.contains word response_lower) fallback_keywords
  then
    append_product i
      (ProductInfo.new (PStr "Detected Product") (PFloat 0.6%Q)
         (PStr (PyStr.slice_to 200 raw)) (Frame.timestamp frame_data))
  else ret tt.

(** The rest of the inner [try] block once [json.loads] returned. *)
Definition identify_parsed (i : nat) (frame_data : Frame.t) (result : pyval)
  : M unit :=
  listed <- pure (py_get result "products" (PList [])) ;;
  candidates <- pure (py_iter listed) ;;
  for_each candidates (identify_candidate i frame_data).

(** The body of [for frame_data in state["frames"]]. *)
Definition identify_frame (entry : nat * Frame.t) : M unit :=
  let (i, frame_data) := entry in
  image <- call (Image_open C (Frame.image_path frame_data)) ;;
  response <- call (generate_content C DetectionPrompt image) ;;
  raw <- pure (text response) ;;
  match json_loads C raw with
  | Some result => identify_parsed i frame_data result
  | None => identify_fallback i frame_data response
  end.

Definition identify_products_body : M unit :=
  frames <- gets State.frames ;;
  for_each (enumerate frames) identify_frame.

Definition _identify_products : State.t -> World C -> State.t * World C :=
  try_stage "Product identification failed: " identify_products_body.

(* ------------------------------------------------------------------ *)
(** ** Stage 4: [_segment_products] *)

(** The condition of the inner loop: [abs(frame["timestamp"] -
    product.timestamp) < 1.0]. *)
Definition within_tolerance (product : ProductInfo.t) (frame : Frame.t) : bool :=
  Qltb (Qabs (float_sub (Frame.timestamp frame) (ProductInfo.timestamp product)))
       1.0%Q.

(** The inner loop: [frame_data] is the first frame that passes the
    condition, or stays [None]. *)
Definition find_frame (frames : list Frame.t) (product : ProductInfo.t)
  : option Frame.t :=
  find (within_tolerance product) frames.

(** Mutation of the product object at position [j] of [state["products"]]. *)
Definition set_product (j : nat) (f : ProductInfo.t -> ProductInfo.t) : M unit :=
  modify (fun st => State.set_products (update_nth j f (State.products st)) st).

(** The body of [for product in state["products"]], for the object at
    position [j].  A frame dictionary has four keys, so that [if
    frame_data:] asks whether the inner loop found one. *)
Definition segment_product (j : nat) : M unit :=
  products <- gets State.products ;;
  match nth_error products j with
  | None => ret tt
  | Some product =>
      frames <- gets State.frames ;;
      match find_frame frames product with
      | None => ret tt
      | Some frame_data =>
          image <- call (Image_open C (Frame.image_path frame_data)) ;;
          response <- call (generate_content C
                              (SegmentationPrompt (ProductInfo.name product)) image) ;;
          name_ <- pure (py_replace (ProductInfo.name product) " " "_") ;;
          let stem :=
            "segmented_" ++ name_ ++ "_"
              ++ PyStr.of_int (py_int (ProductInfo.timestamp product)) ++ ".jpg" in
          let segmented_path := os_path_join output_dir stem in
          call (Image_save C image segmented_path) ;;;
          set_product j (ProductInfo.set_segmented_image_path ("/output/" ++ stem)) ;;;
          video_id <- gets State.video_id ;;
          set_product j
            (ProductInfo.set_frame_image_path
               ("/output/frame_" ++ video_id ++ "_"
                  ++ PyStr.of_int (Frame.frame_number frame_data) ++ ".jpg"))
      end
  end.

Definition segment_products_body : M unit :=
  products <- gets State.products ;;
  for_each (seq 0 (List.length products)) segment_product.

Definition _segment_products : State.t -> World C -> State.t * World C :=
  try_stage "Product segmentation failed: " segment_products_body.

(* ------------------------------------------------------------------ *)
(** ** Stage 5: [_enhance_products] *)

Definition styles : list string :=
  ["professional product photography with clean white background";
   "modern lifestyle setting with subtle background";
   "e-commerce style with shadow and depth"].

(** The name of the render of style number [i] (counted from 0). *)
Definition enhanced_stem (name_ : string) (i : nat) (timestamp : Q) : string :=
  "enhanced_" ++ name_ ++ "_" ++ PyStr.of_int (Z.of_nat i + 1) ++ "_"
    ++ PyStr.of_int (py_int timestamp) ++ ".jpg".

(** The body of [for i, style in enumerate(styles)]; the local variable
    is [enhanced_images]. *)
Definition enhance_style (product : ProductInfo.t) (image : PILImage C)
    (enhanced_images : list string) (entry : nat * string) : M (list string) :=
  let (i, style) := entry in
  response <- call (generate_content C (EnhancementPrompt style) image) ;;
  name_ <- pure (py_replace (ProductInfo.name product) " " "_") ;;
  let stem := enhanced_stem name_ i (ProductInfo.timestamp product) in
  let enhanced_path := os_path_join output_dir stem in
  call (Image_save C image enhanced_path) ;;;
  let public_path := "/output/" ++ stem in
  ret (enhanced_images ++ [public_path])%list.

(** The body of [for product in state["products"]], for the object at
    position [j]. *)
Definition enhance_product (j : nat) : M unit :=
  products <- gets State.products ;;
  match nth_error products j with
  | None => ret tt
  | Some product =>
      if truthy (PStr (ProductInfo.segmented_image_path product)) then
        let image_path :=
          PyStr.replace (ProductInfo.segmented_image_path product)
            "/output/" (output_dir ++ "/") in
        image <- call (Image_open C image_path) ;;
        enhanced_images <-
          for_fold (enumerate styles) [] (enhance_style product image) ;;
        set_product j (ProductInfo.set_enhanced_images enhanced_images)
      else ret tt
  end.

Definition enhance_products_body : M unit :=
  products <- gets State.products ;;
  for_each (seq 0 (List.length products)) enhance_product.

Definition _enhance_products : State.t -> World C -> State.t * World C :=
  try_stage "Product enhancement failed: " enhance_products_body.

(* ------------------------------------------------------------------ *)
(** ** The workflow and [process_video] *)

Definition stage : Type := State.t -> World C -> State.t * World C.

(** The nodes of the graph in the order of its edges. *)
Definition workflow_nodes : list stage :=
  [_extract_video; _extract_frames; _identify_products;
   _segment_products; _enhance_products].

Fixpoint invoke (nodes : list stage) (st : State.t) (w : World C)
  : State.t * World C :=
  match nodes with
  | [] => (st, w)
  | node :: rest => let (st', w') := node st w in invoke rest st' w'
  end.

Inductive Result : Type :=
| Completed (products : list ProductInfo.t) (message : string)
| Failed (error : string).

Definition initial_state (url : string) : State.t :=
  State.mk url "" "" [] [] None.

(** [process_video]; every stage catches what its body raises, so that
    the handler around [ainvoke] has nothing to catch from them. *)
Definition process_video (url : string) (w : World C) : Result * World C :=
  let (result, w') := invoke workflow_nodes (initial_state url) w in
  match State.error result with
  | Some e =>
      if negb (e =? "")%string then (Failed e, w')
      else (Completed (State.products result)
              ("Successfully processed video and found "
                 ++ PyStr.of_int (Z.of_nat (List.length (State.products result)))
                 ++ " products"), w')
  | None =>
      (Completed (State.products result)
         ("Successfully processed video and found "
            ++ PyStr.of_int (Z.of_nat (List.length (State.products result)))
            ++ " products"), w')
  end.

End Stages.

Arguments ret {C A} a.
Arguments bind {C A B} m f.
Arguments gets {C A} key.
Arguments modify {C} f.
Arguments pure {C A} o.
Arguments call {C A} f.
Arguments ask {C A} f.
Arguments for_each {C A} l body.
Arguments for_fold {C A B} l acc body.

(** The three components of what a stage computation returns. *)
Definition out_of {C A} (r : outcome A * State.t * World C) : outcome A :=
  fst (fst r).
Definition state_of {C A} (r : outcome A * State.t * World C) : State.t :=
  snd (fst r).
Definition world_of {C A} (r : outcome A * State.t * World C) : World C :=
  snd r.

(* ================================================================== *)
(** ** Notions used in the statements *)

(** A computation keeps the property [I] of the run state, whether it
    returns or raises. *)
Definition preserves {C A} (I : State.t -> Prop) (m : M C A) : Prop :=
  forall st w, I st -> I (state_of (m st w)).


(** The five stage bodies with the label of their handler. *)
Definition stage_bodies (C : Collaborators) : list (string * M C unit) :=
  [("Video extraction failed: ", extract_video_body C);
   ("Frame extraction failed: ", extract_frames_body C);
   ("Product identification failed: ", identify_products_body C);
   ("Product segmentation failed: ", segment_products_body C);
   ("Product enhancement failed: ", enhance_products_body C)].

Module PyStrAux.

(** No occurrence of [sep] starts inside the part [a] of [a ++ b]. *)
Fixpoint clear (sep a b : string) : bool :=
  match a with
  | EmptyString => true
  | String _ a' => negb (prefix sep (a ++ b)) && clear sep a' b
  end.

(** No non-empty suffix of [y] starts [b]. *)
Fixpoint no_straddle (y b : string) : bool :=
  match y with
  | EmptyString => true
  | String _ y' => negb (prefix y b) && no_straddle y' b
  end.

Definition tail (s : string) : string :=
  match s with
  | EmptyString => EmptyString
  | String _ s' => s'
  end.

End PyStrAux.

(** The text [url] has one of the three known shapes around [id]: the
    marker, then [id], then the end of the text or the character that ends
    an identifier; the mark by which the code splits occurs neither before
    the marker nor in [id], and no earlier branch of the code fires. *)
Definition watch_shape (url id : string) : Prop :=
  exists pre rest,
    url = pre ++ "youtube.com/watch?v=" ++ id ++ rest /\
    PyStr.contains "v=" pre = false /\
    PyStr.contains "v=" id = false /\
    PyStr.contains "&" id = false /\
    (rest = "" \/ prefix "&" rest = true).

Definition shorts_shape (url id : string) : Prop :=
  exists pre rest,
    url = pre ++ "youtube.com/shorts/" ++ id ++ rest /\
    PyStr.contains "youtube.com/watch?v=" url = false /\
    PyStr.contains "shorts/" pre = false /\
    PyStr.contains "shorts/" id = false /\
    PyStr.contains "?" id = false /\
    (rest = "" \/ prefix "?" rest = true).

Definition short_domain_shape (url id : string) : Prop :=
  exists pre rest,
    url = pre ++ "youtu.be/" ++ id ++ rest /\
    PyStr.contains "youtube.com/watch?v=" url = false /\
    PyStr.contains "youtube.com/shorts/" url = false /\
    PyStr.contains "youtu.be/" pre = false /\
    PyStr.contains "youtu.be/" id = false /\
    PyStr.contains "?" id = false /\
    (rest = "" \/ prefix "?" rest = true).

Definition unrecognized (url : string) : Prop :=
  PyStr.contains "youtube.com/watch?v=" url = false /\
  PyStr.contains "youtube.com/shorts/" url = false /\
  PyStr.contains "youtu.be/" url = false.


(** The public path of the frame a product was matched with. *)
Definition matched_frame_path (video_id : string) (fd : Frame.t) : string :=
  "/output/frame_" ++ video_id ++ "_" ++ PyStr.of_int (Frame.frame_number fd)
    ++ ".jpg".

(** The public path of the isolated image of a product. *)
Definition segmented_public_path (name_ : string) (timestamp : Q) : string :=
  "/output/segmented_" ++ name_ ++ "_" ++ PyStr.of_int (py_int timestamp) ++ ".jpg".

(** What identifies a frame apart from the products seen in it. *)
Definition frame_key (f : Frame.t) : Z * Q * string :=
  (Frame.frame_number f, Frame.timestamp f, Frame.image_path f).

(** Since the state [st0], the frames are the same apart from the
    products seen in them, and the products added carry a timestamp with
    the property [T]. *)
Definition detected_since (T : Q -> Prop) (st0 s : State.t) : Prop :=
  map frame_key (State.frames s) = map frame_key (State.frames st0) /\
  exists new,
    State.products s = (State.products st0 ++ new)%list /\
    Forall (fun p => T (ProductInfo.timestamp p)) new.

(** No product has a render yet. *)
Definition unrendered (s : State.t) : Prop :=
  Forall (fun p => ProductInfo.enhanced_images p = []) (State.products s).

(** [round(x)] of a float: to the nearest integer, a tie to the even one. *)
Definition py_round (x : Q) : Z :=
  let f := Qfloor x in
  let r := (x - inject_Z f)%Q in
  if Qltb r 0.5 then f
  else if Qltb 0.5 r then (f + 1)%Z
  else if Z.even f then f else (f + 1)%Z.

(** The stride in the words of the specification:
    [round(frameRate * 2.0)], minimum 1. *)
Definition spec_stride (frameRate : Q) : Z :=
  Z.max 1 (py_round (frameRate * 2.0)%Q).

(** A detection candidate in the shape the detection directive asks for. *)
Record Candidate : Type := {
  cand_name : pyval;
  cand_confidence : Q;
  cand_description : pyval;
  cand_is_good_frame : bool
}.

(** A decoded JSON object that carries the four keys of a candidate, the
    confidence as a float and the flag as a boolean. *)
Definition carries (product : pyval) (c : Candidate) : Prop :=
  exists entries,
    product = PDict entries /\
    lookup "name" entries = Some (cand_name c) /\
    lookup "confidence" entries = Some (PFloat (cand_confidence c)) /\
    lookup "description" entries = Some (cand_description c) /\
    lookup "is_good_frame" entries = Some (PBool (cand_is_good_frame c)).

(** The acceptance rule. *)
Definition accepted (c : Candidate) : bool :=
  cand_is_good_frame c && Qltb 0.5 (cand_confidence c).

(** The record the Detector creates for a candidate seen in a frame. *)
Definition record_of (frame_data : Frame.t) (c : Candidate) : ProductInfo.t :=
  ProductInfo.new (cand_name c) (PFloat (cand_confidence c))
    (cand_description c) (Frame.timestamp frame_data).

(** The record of the fallback for a reply [raw] to a frame. *)
Definition fallback_record (frame_data : Frame.t) (raw : string) : ProductInfo.t :=
  ProductInfo.new (PStr "Detected Product") (PFloat 0.6)
    (PStr (PyStr.slice_to 200 raw)) (Frame.timestamp frame_data).

(** The public paths of the three renders of a product, in style order. *)
Definition three_renders (name_ : string) (timestamp : Q) : list string :=
  ["/output/" ++ enhanced_stem name_ 0 timestamp;
   "/output/" ++ enhanced_stem name_ 1 timestamp;
   "/output/" ++ enhanced_stem name_ 2 timestamp].

(* ================================================================== *)
(** ** Scripted collaborators, for running the pipeline on examples *)

Module Demo.

Record Script : Type := {
  reports_fps : Q;
  reports_frame_count : Q;
  stream_length : nat;
  file_present : bool;
  download : outcome unit;
  (** the reply to the detection directive, by frame image path *)
  replies : string -> outcome Response;
  decodes : string -> option pyval
}.

Definition describe (e : exn) : string :=
  match e with
  | ZeroDivisionError => "division by zero"
  | KeyError key => key
  | TypeError => "unsupported operand"
  | AttributeError => "no such attribute"
  | IndexError => "list index out of range"
  | ValueError => "empty separator"
  | CollaboratorError msg => msg
  end.

(** The world has nothing to remember; a decoded frame is its number and
    an opened image is its path. *)
Definition collaborators (s : Script) : Collaborators := {|
  World := unit;
  CvFrame := nat;
  PILImage := string;
  exn_str := describe;
  json_loads := decodes s;
  os_path_exists := fun _ w => (file_present s, w);
  ydl_download := fun _ _ w => (download s, w);
  cv2_VideoCapture := fun _ w =>
    (Ok {| CAP_PROP_FPS := reports_fps s;
           CAP_PROP_FRAME_COUNT := reports_frame_count s;
           decoded := seq 0 (stream_length s) |}, w);
  cv2_imwrite := fun _ _ w => (Ok tt, w);
  Image_open := fun path w => (Ok path, w);
  generate_content := fun prompt image w =>
    match prompt with
    | DetectionPrompt => (replies s image, w)
    | _ => (Ok {| text := Ok "done" |}, w)
    end;
  Image_save := fun _ _ w => (Ok tt, w)
|}.

(** A decoded reply with one candidate. *)
Definition one_candidate (confidence : Q) (good : bool) : pyval :=
  PDict [("products",
          PList [PDict [("name", PStr "Red Mug");
                        ("confidence", PFloat confidence);
                        ("description", PStr "a mug");
                        ("is_good_frame", PBool good)]])].

(** A decoded reply with no candidate. *)
Definition no_candidate : pyval := PDict [("products", PList [])].

(** A ten-second video at 30 frames per second, present on disk; the
    frame sampled at index 120 shows a product with confidence 0.9, the
    other frames show none. *)
Definition ten_seconds : Script := {|
  reports_fps := 30;
  reports_frame_count := 300;
  stream_length := 300;
  file_present := true;
  download := Ok tt;
  replies := fun image =>
    if (image =? "output/frame_abc_120.jpg")%string
    then Ok {| text := Ok "mug" |}
    else Ok {| text := Ok "nothing" |};
  decodes := fun raw =>
    if (raw =? "mug")%string then Some (one_candidate 0.9 true)
    else if (raw =? "nothing")%string then Some no_candidate
    else None
|}.

(** The same video, but the model answers for the first sampled frame
    only and then raises. *)
Definition quota_runs_out : Script := {|
  reports_fps := 30;
  reports_frame_count := 300;
  stream_length := 300;
  file_present := true;
  download := Ok tt;
  replies := fun image =>
    if (image =? "output/frame_abc_0.jpg")%string
    then Ok {| text := Ok "mug" |}
    else Raise (CollaboratorError "quota exceeded");
  decodes := decodes ten_seconds
|}.

(** No file on disk and a download that fails; OpenCV then cannot open
    the video and reports 0 for every property. *)
Definition download_fails : Script := {|
  reports_fps := 0;
  reports_frame_count := 0;
  stream_length := 0;
  file_present := false;
  download := Raise (CollaboratorError "video unavailable");
  replies := fun _ => Ok {| text := Ok "nothing" |};
  decodes := decodes ten_seconds
|}.

(** The same video, but the model answers every frame in plain words
    that [json.loads] rejects. *)
Definition plain_words : Script := {|
  reports_fps := 30;
  reports_frame_count := 300;
  stream_length := 300;
  file_present := true;
  download := Ok tt;
  replies := fun _ => Ok {| text := Ok "I can see a phone on the desk" |};
  decodes := decodes ten_seconds
|}.

(** Three frames of a stream that reports a quarter of a frame per
    second. *)
Definition quarter_rate : Script := {|
  reports_fps := 0.25;
  reports_frame_count := 3;
  stream_length := 3;
  file_present := true;
  download := Ok tt;
  replies := fun _ => Ok {| text := Ok "nothing" |};
  decodes := decodes ten_seconds
|}.

(** Ten frames of a stream at 0.9 frames per second, the double nearest
    to nine tenths; the last frame shows a product. *)
Definition nine_tenths : Script := {|
  reports_fps := 8106479329266893 # 9007199254740992;
  reports_frame_count := 10;
  stream_length := 10;
  file_present := true;
  download := Ok tt;
  replies := fun image =>
    if (image =? "output/frame_abc_9.jpg")%string
    then Ok {| text := Ok "mug" |}
    else Ok {| text := Ok "nothing" |};
  decodes := decodes ten_seconds
|}.


End Demo.


(* ================================================================== *)
(** ** The web front end of [backend/main.py] *)

Module Main.

(** [\d] on the code points below 256. *)
Definition is_digit (c : ascii) : bool :=
  let n := nat_of_ascii c in ((48 <=? n) && (n <=? 57))%nat.

(** The longest run of digits at the start of a text, and what follows. *)
Fixpoint span_digits (s : string) : string * string :=
  match s with
  | EmptyString => (EmptyString, EmptyString)
  | String c s' =>
      if is_digit c
      then let (digits, rest) := span_digits s' in (String c digits, rest)
      else (EmptyString, s)
  end.

(** A match of [(\d+)U] at the start of a text, as its group 1: the
    greedy run of digits has to be followed by [U]; giving digits back
    cannot help, since what then follows is a digit. *)
Definition match_here (unit : ascii) (s : string) : option string :=
  let (digits, rest) := span_digits s in
  match digits, rest with
  | String _ _, String c _ => if Ascii.eqb c unit then Some digits else None
  | _, _ => None
  end.

(** [re.search(r'(\d+)U', s)]: the leftmost match, [None] without one. *)
Fixpoint re_search (unit : ascii) (s : string) : option string :=
  match match_here unit s with
  | Some group => Some group
  | None =>
      match s with
      | EmptyString => None
      | String _ s' => re_search unit s'
      end
  end.

(** [int(group)] for a group of digits that is not longer than the
    interpreter lets the text of a decimal integer be: 4300 digits unless
    configured otherwise, beyond which [int] raises [ValueError]. *)
Definition int_of_digits (group : string) : Z :=
  match NilEmpty.uint_of_string group with
  | Some d => Z.of_uint d
  | None => 0%Z
  end.

(** [s[n:]]. *)
Fixpoint slice_from (n : nat) (s : string) : string :=
  match n, s with
  | O, _ => s
  | S n', EmptyString => EmptyString
  | S n', String _ s' => slice_from n' s'
  end.

Definition parse_iso_duration (iso_duration : string) : Z :=
  let duration := slice_from 2 iso_duration in
  let hours := re_search "H" duration in
  let minutes := re_search "M" duration in
  let seconds := re_search "S" duration in
  let total_seconds := 0%Z in
  let total_seconds :=
    match hours with
    | Some group => (total_seconds + int_of_digits group * 3600)%Z
    | None => total_seconds
    end in
  let total_seconds :=
    match minutes with
    | Some group => (total_seconds + int_of_digits group * 60)%Z
    | None => total_seconds
    end in
  let total_seconds :=
    match seconds with
    | Some group => (total_seconds + int_of_digits group)%Z
    | None => total_seconds
    end in
  total_seconds.

(** [f"{n:02d}"]. *)
Definition pad2 (n : Z) : string :=
  let digits := PyStr.of_int n in
  if (length digits <? 2)%nat then "0" ++ digits else digits.

(** The display of a duration in [get_video_info]. *)
Definition duration_str (duration_seconds : Z) : string :=
  if (duration_seconds =? 0)%Z then "Unknown"
  else
    let hours := (duration_seconds / 3600)%Z in
    let minutes := ((duration_seconds mod 3600) / 60)%Z in
    let seconds := (duration_seconds mod 60)%Z in
    if (hours >? 0)%Z
    then pad2 hours ++ ":" ++ pad2 minutes ++ ":" ++ pad2 seconds
    else pad2 minutes ++ ":" ++ pad2 seconds.

(** What the request to the catalog ends in: a [requests.RequestException],
    another exception, or the decoded body of the response. *)
Inductive http_outcome : Type :=
| RequestException (message : string)
| OtherException (e : exn)
| Body (data : pyval).

Record Web : Type := {
  Net : Type;
  (** [os.getenv("YOUTUBE_API_KEY")] *)
  getenv_key : Net -> option string;
  (** [requests.get(api_url, params)], [raise_for_status()] and [json()] *)
  fetch : string -> string -> Net -> http_outcome * Net;
  (** [str(e)] *)
  web_exn_str : exn -> string;
  (** what slicing and matching raise on a value that is not a [str] *)
  not_a_string : pyval -> exn
}.

(** The dictionary that [get_video_info] returns; [info_error = None]
    stands for a dictionary without the key ["error"]. *)
Record VideoInfo : Type := {
  title : pyval;
  duration : string;
  duration_seconds : Z;
  info_error : option string
}.

(** [items[0]]. *)
Definition py_first (items : pyval) : outcome pyval :=
  match items with
  | PList l => py_index l 0
  | PStr (String c _) => Ok (PStr (String c EmptyString))
  | PStr EmptyString => Raise IndexError
  | PDict _ => Raise (KeyError "0")
  | _ => Raise TypeError
  end.

(** [parse_iso_duration] applied to whatever the body holds. *)
Definition parse_value (W : Web) (duration_iso : pyval) : outcome Z :=
  match duration_iso with
  | PStr s => Ok (parse_iso_duration s)
  | other => Raise (not_a_string W other)
  end.

(** The part of the [try] block that follows [data = response.json()]. *)
Definition read_body (W : Web) (data : pyval) : outcome VideoInfo :=
  (items <- py_get data "items" PNone ;;
   if negb (truthy items) then
     Ok {| title := PStr "Video not found"; duration := "Unknown";
           duration_seconds := 0;
           info_error := Some "Video not found or private" |}
   else
     items' <- py_getitem data "items" ;;
     video_item <- py_first items' ;;
     snippet <- py_getitem video_item "snippet" ;;
     title_ <- py_getitem snippet "title" ;;
     details <- py_getitem video_item "contentDetails" ;;
     duration_iso <- py_getitem details "duration" ;;
     seconds <- parse_value W duration_iso ;;
     Ok {| title := title_; duration := duration_str seconds;
           duration_seconds := seconds; info_error := None |})%outcome.

Definition failure (message : string) : VideoInfo :=
  {| title := PStr "YouTube Video"; duration := "Unknown";
     duration_seconds := 0; info_error := Some message |}.

Definition get_video_info (W : Web) (video_id : string) (net : Net W)
  : VideoInfo * Net W :=
  match getenv_key W net with
  | None => (failure "YouTube API key not configured", net)
  | Some key =>
      if (key =? "")%string
      then (failure "YouTube API key not configured", net)
      else
        match fetch W video_id key net with
        | (RequestException message, net') =>
            (failure ("API request failed: " ++ message), net')
        | (OtherException e, net') =>
            (failure ("Unexpected error: " ++ web_exn_str W e), net')
        | (Body data, net') =>
            match read_body W data with
            | Ok info => (info, net')
            | Raise e => (failure ("Unexpected error: " ++ web_exn_str W e), net')
            end
        end
  end.

(** A component of an ISO-8601 duration: a number and its unit, or
    nothing. *)
Definition component (value : option N) (unit : string) : string :=
  match value with
  | Some n => PyStr.of_int (Z.of_N n) ++ unit
  | None => EmptyString
  end.

Definition amount (value : option N) : Z :=
  match value with
  | Some n => Z.of_N n
  | None => 0%Z
  end.

(** The default of [sys.get_int_max_str_digits()]. *)
Definition max_str_digits : Z := 4300.

(** The number of a component is written with no more digits than [int]
    accepts. *)
Definition within_digit_limit (value : option N) : Prop :=
  match value with
  | Some n =>
      (Z.of_nat (String.length (PyStr.of_int (Z.of_N n))) <= max_str_digits)%Z
  | None => True
  end.

Fixpoint all_digits (s : string) : bool :=
  match s with
  | EmptyString => true
  | String c s' => is_digit c && all_digits s'
  end.

(** The two characters that write a number below 100. *)
Definition two_digits (n : Z) : string :=
  String (ascii_of_nat (48 + Z.to_nat (n / 10)))
    (String (ascii_of_nat (48 + Z.to_nat (n mod 10))) EmptyString).

End Main.

(* ================================================================== *)
(** ** More notions used in the statements *)

(** A computation leaves the run state as it is. *)
Definition readonly {C A} (m : M C A) : Prop :=
  forall st w, state_of (m st w) = st.

(** A computation that raises has left the run state as it was. *)
Definition atomic {C A} (m : M C A) : Prop :=
  forall st w e, out_of (m st w) = Raise e -> state_of (m st w) = st.

(** The messages of the stages that raise, in the order of the stages,
    when the stages run one after the other as the workflow runs them. *)
Fixpoint failures (C : Collaborators) (bodies : list (string * M C unit))
    (st : State.t) (w : World C) : list string :=
  match bodies with
  | [] => []
  | (label, body) :: rest =>
      match body st w with
      | (Ok _, st', w') => failures C rest st' w'
      | (Raise e, st', w') =>
          (label ++ exn_str C e)
            :: failures C rest
                 (State.set_error (Some (label ++ exn_str C e)) st') w'
      end
  end.

(** The message of a run that completed. *)
Definition success_message (products : list ProductInfo.t) : string :=
  "Successfully processed video and found "
    ++ PyStr.of_int (Z.of_nat (List.length products)) ++ " products".

(** The indices below [n] that the Sampler keeps. *)
Definition sampled_indices (stride : Z) (n : nat) : list Z :=
  filter (fun k => (k mod stride =? 0)%Z) (map Z.of_nat (seq 0 n)).

(** The record the Sampler makes of the frame with index [k]. *)
Definition frame_at (fps : Q) (video_id : string) (k : Z) : Frame.t :=
  Frame.mk k (float_truediv (inject_Z k) fps)
    ("output/frame_" ++ video_id ++ "_" ++ PyStr.of_int k ++ ".jpg") [].

(** A product without the two paths the Isolator writes. *)
Definition apart_from_isolation (p : ProductInfo.t)
  : pyval * pyval * pyval * Q * list string :=
  (ProductInfo.name p, ProductInfo.confidence p, ProductInfo.description p,
   ProductInfo.timestamp p, ProductInfo.enhanced_images p).

(** A product without the renders the Enhancer writes. *)
Definition apart_from_renders (p : ProductInfo.t)
  : pyval * pyval * pyval * Q * string * string :=
  (ProductInfo.name p, ProductInfo.confidence p, ProductInfo.description p,
   ProductInfo.timestamp p, ProductInfo.frame_image_path p,
   ProductInfo.segmented_image_path p).

(** Every reference a frame holds is the position of a product that
    carries the timestamp of the frame. *)
Definition refs_point_home (s : State.t) : Prop :=
  Forall (fun f =>
            Forall (fun ref =>
                      exists p, nth_error (State.products s) ref = Some p /\
                                ProductInfo.timestamp p = Frame.timestamp f)
                   (Frame.products_detected f))
         (State.frames s).

(* ================================================================== *)
(** * Properties *)

(** ** Facts about the string operations *)

Module PyStrFacts.
Import PyStr PyStrAux.

Lemma app_assoc_s (a b c : string) : (a ++ b) ++ c = a ++ (b ++ c).
Proof. induction a as [|x a IH]; simpl; [reflexivity | now rewrite IH]. Qed.

Lemma app_empty_r (a : string) : a ++ "" = a.
Proof. induction a as [|x a IH]; simpl; [reflexivity | now rewrite IH]. Qed.

Lemma prefix_nil_l (s : string) : prefix "" s = true.
Proof. destruct s; reflexivity. Qed.

Lemma prefix_cons (c d : ascii) (s t : string) :
  prefix (String c s) (String d t) = true <-> c = d /\ prefix s t = true.
Proof.
  simpl. destruct (ascii_dec c d) as [e|n].
  - split; [intros H; now split | intros [_ H]; exact H].
  - split; [discriminate | intros [e _]; contradiction].
Qed.

Lemma prefix_app (s t : string) : prefix s (s ++ t) = true.
Proof.
  induction s as [|c s IH]; simpl.
  - apply prefix_nil_l.
  - destruct (ascii_dec c c); [exact IH | contradiction].
Qed.

(** A match of [sep] at the start of [a ++ b] lies inside [a], or [a] is a
    proper start of [sep] and the rest of [sep] starts [b]. *)
Lemma prefix_app_inv (sep a b : string) :
  prefix sep (a ++ b) = true ->
  prefix sep a = true \/
  exists y, sep = a ++ y /\ y <> "" /\ prefix y b = true.
Proof.
  revert sep. induction a as [|c a IH]; intros sep H.
  - destruct sep as [|d sep].
    + left. reflexivity.
    + right. exists (String d sep). simpl in H |- *.
      repeat split; [discriminate | exact H].
  - destruct sep as [|d sep].
    + left. reflexivity.
    + change (String c a ++ b) with (String c (a ++ b)) in H.
      apply prefix_cons in H. destruct H as [-> H].
      destruct (IH _ H) as [P | (y & -> & Hy & P)].
      * left. apply prefix_cons. now split.
      * right. exists y. repeat split; assumption.
Qed.

Lemma contains_prefix (sep s : string) :
  prefix sep s = true -> contains sep s = true.
Proof. intros H. destruct s; unfold contains; fold contains; rewrite H; reflexivity. Qed.

Lemma contains_cons (sep : string) (c : ascii) (s : string) :
  contains sep s = true -> contains sep (String c s) = true.
Proof. intros H. simpl. rewrite H. apply orb_true_r. Qed.

Lemma contains_app_r (sep a b : string) :
  contains sep b = true -> contains sep (a ++ b) = true.
Proof.
  intros H. induction a as [|c a IH]; simpl append; [exact H|].
  now apply contains_cons.
Qed.

Lemma contains_cons_false (sep : string) (c : ascii) (s : string) :
  contains sep (String c s) = false ->
  prefix sep (String c s) = false /\ contains sep s = false.
Proof. simpl. intros H. apply orb_false_iff in H. exact H. Qed.

Lemma no_straddle_suffix (t b x y : string) :
  no_straddle t b = true -> t = x ++ y -> y <> "" -> prefix y b = false.
Proof.
  revert x. induction t as [|c t IH]; intros x H E Hy.
  - destruct x; simpl in E; [congruence | discriminate].
  - simpl in H. apply andb_true_iff in H. destruct H as [H1 H2].
    destruct x as [|d x]; simpl in E.
    + subst y. now apply negb_true_iff in H1.
    + injection E as _ E. exact (IH x H2 E Hy).
Qed.

(** No occurrence inside [a], none across the border: [a] is clear. *)
Lemma clear_intro (sep a b : string) :
  contains sep a = false ->
  no_straddle (tail sep) b = true ->
  clear sep a b = true.
Proof.
  intros Ha Hb. induction a as [|c a IH]; [reflexivity|].
  apply contains_cons_false in Ha. destruct Ha as [Hp Hc].
  assert (N : prefix sep (String c a ++ b) = false).
  { destruct (prefix sep (String c a ++ b)) eqn:E; [exfalso | reflexivity].
    apply prefix_app_inv in E. destruct E as [E | (y & E & Hy & P)].
    - congruence.
    - destruct sep as [|d sep]; [discriminate|].
      simpl in E. injection E as _ E. simpl in Hb.
      rewrite (no_straddle_suffix _ _ _ _ Hb E Hy) in P. discriminate. }
  cbn [clear]. rewrite N, (IH Hc). reflexivity.
Qed.

Lemma split_from_cons (sep : string) (k : nat) (s : string) :
  exists piece pieces, split_from sep k s = piece :: pieces.
Proof.
  revert k. induction s as [|c s IH]; intros k; cbn [split_from].
  - eauto.
  - destruct k as [|k]; [|apply IH].
    destruct (prefix sep (String c s)); [eauto|].
    destruct (IH 0%nat) as (p & ps & ->). eauto.
Qed.

(** Splitting runs through a clear region without cutting. *)
Lemma split_from_clear (sep a b : string) :
  clear sep a b = true ->
  split_from sep 0 (a ++ b) =
  (a ++ hd "" (split_from sep 0 b)) :: tl (split_from sep 0 b).
Proof.
  induction a as [|c a IH]; intros H.
  - simpl. destruct (split_from_cons sep 0 b) as (p & ps & ->). reflexivity.
  - cbn [clear] in H. apply andb_true_iff in H. destruct H as [H1 H2].
    apply negb_true_iff in H1.
    change (String c a ++ b) with (String c (a ++ b)) in *.
    cbn [split_from]. rewrite H1, (IH H2). reflexivity.
Qed.

Lemma split_from_skip (sep x t : string) :
  split_from sep (length x) (x ++ t) = split_from sep 0 t.
Proof. induction x as [|c x IH]; simpl; [reflexivity | exact IH]. Qed.

(** Splitting cuts at an occurrence of the separator. *)
Lemma split_from_match (sep t : string) :
  sep <> "" ->
  split_from sep 0 (sep ++ t) = "" :: split_from sep 0 t.
Proof.
  intros Hs. destruct sep as [|c sep]; [contradiction|].
  pose proof (prefix_app (String c sep) t) as P.
  change (String c sep ++ t) with (String c (sep ++ t)) in *.
  cbn [split_from]. rewrite P. f_equal.
  replace (length (String c sep) - 1)%nat with (length sep)
    by (cbn [length]; lia).
  apply split_from_skip.
Qed.

(** The first two pieces when the first separator sits after [a]. *)
Lemma split_from_first (sep a t : string) :
  sep <> "" ->
  clear sep a (sep ++ t) = true ->
  split_from sep 0 (a ++ sep ++ t) = a :: split_from sep 0 t.
Proof.
  intros Hs Hc. rewrite (split_from_clear _ _ _ Hc).
  rewrite (split_from_match _ _ Hs). simpl. now rewrite app_empty_r.
Qed.

(** The first piece of a text that ends, or goes on with the separator,
    after a region without the separator. *)
Lemma split_from_head (sep a t : string) :
  sep <> "" ->
  clear sep a t = true ->
  t = "" \/ prefix sep t = true ->
  hd "" (split_from sep 0 (a ++ t)) = a.
Proof.
  intros Hs Hc Ht. rewrite (split_from_clear _ _ _ Hc). simpl.
  destruct Ht as [-> | P].
  - simpl. apply app_empty_r.
  - destruct t as [|c t]; [simpl; apply app_empty_r|].
    cbn [split_from]. rewrite P. simpl. apply app_empty_r.
Qed.

Lemma clear_app (sep a1 a2 b : string) :
  clear sep (a1 ++ a2) b = clear sep a1 (a2 ++ b) && clear sep a2 b.
Proof.
  induction a1 as [|c a1 IH]; [reflexivity|].
  change (String c a1 ++ a2) with (String c (a1 ++ a2)).
  cbn [clear]. rewrite IH.
  change (String c (a1 ++ a2) ++ b) with (String c ((a1 ++ a2) ++ b)).
  change (String c a1 ++ a2 ++ b) with (String c (a1 ++ a2 ++ b)).
  rewrite app_assoc_s. now rewrite andb_assoc.
Qed.

Lemma py_index_head {A} (l : list A) (d : A) :
  l <> [] -> py_index l 0 = Ok (hd d l).
Proof. destruct l; [contradiction | reflexivity]. Qed.

Lemma no_straddle_nil (y : string) : no_straddle y "" = true.
Proof.
  induction y as [|c y IH]; [reflexivity|].
  cbn [no_straddle]. now rewrite IH.
Qed.

Lemma split_from_nonempty (sep : string) (k : nat) (s : string) :
  split_from sep k s <> [].
Proof. destruct (split_from_cons sep k s) as (p & ps & ->). discriminate. Qed.

(** [url.split(sep)[1].split(c)[0]] when the first [sep] of the text is
    followed by [id], and [id] by the end of the text or by [c]. *)
Lemma between_markers (sep : string) (c : ascii) (a id rest : string) :
  sep <> "" ->
  clear sep a (sep ++ id ++ rest) = true ->
  contains sep id = false ->
  contains (String c "") id = false ->
  rest = "" \/ (exists r, rest = String c r /\ no_straddle sep rest = true) ->
  (pieces <- split (a ++ sep ++ id ++ rest) sep ;;
   found <- py_index pieces 1 ;;
   pieces' <- split found (String c "") ;;
   py_index pieces' 0)%outcome = Ok id.
Proof.
  intros Hs Ha Hid Hc Hrest.
  assert (Hsb : (sep =? "")%string = false) by now apply String.eqb_neq.
  assert (St : no_straddle (tail sep) rest = true).
  { destruct Hrest as [-> | (r & -> & N)].
    - apply no_straddle_nil.
    - destruct sep as [|d sep]; [contradiction|].
      cbn [no_straddle] in N. apply andb_true_iff in N. apply N. }
  unfold split. rewrite Hsb. cbn [obind].
  rewrite (split_from_first _ _ _ Hs Ha).
  rewrite (split_from_clear sep id rest (clear_intro _ _ _ Hid St)).
  unfold py_index at 1. cbn [nth_error obind].
  set (X := hd "" (split_from sep 0 rest)).
  assert (HX : X = "" \/ prefix (String c "") X = true).
  { subst X. destruct Hrest as [-> | (r & -> & N)].
    - left. reflexivity.
    - right. destruct sep as [|d sep]; [contradiction|].
      cbn [no_straddle] in N. apply andb_true_iff in N. destruct N as [N _].
      apply negb_true_iff in N. cbn [split_from]. rewrite N.
      destruct (split_from_cons (String d sep) 0 r) as (q & qs & ->).
      cbn [hd]. apply prefix_cons. split; [reflexivity | apply prefix_nil_l]. }
  change (String c "" =? "")%string with false. cbn [obind].
  rewrite (py_index_head _ "" (split_from_nonempty _ _ _)).
  f_equal. apply split_from_head; [discriminate | | exact HX].
  apply clear_intro; [exact Hc | reflexivity].
Qed.

(** The text after a one-character mark starts with that character. *)
Lemma starts_with_char (c : ascii) (rest : string) :
  prefix (String c "") rest = true -> exists r, rest = String c r.
Proof.
  destruct rest as [|d r]; [discriminate|].
  intros H. apply prefix_cons in H. destruct H as [-> _]. eauto.
Qed.

End PyStrFacts.

(* ================================================================== *)
(** ** Video identifier extraction *)

Section VideoId.
Import PyStr PyStrAux PyStrFacts.

Lemma watch_shape_id (url id : string) :
  watch_shape url id -> _extract_video_id url = Ok id.
Proof.
  intros (pre & rest & -> & Hpre & Hid & Hamp & Hrest).
  unfold _extract_video_id.
  rewrite (contains_app_r _ pre _ (contains_prefix _ _ (prefix_app _ _))).
  change (pre ++ "youtube.com/watch?v=" ++ id ++ rest)
    with (pre ++ "youtube.com/watch?" ++ "v=" ++ id ++ rest).
  rewrite <- app_assoc_s.
  apply (between_markers "v=" "&"); try assumption; try discriminate.
  - rewrite clear_app. apply andb_true_iff. split; [|reflexivity].
    apply clear_intro; [exact Hpre | reflexivity].
  - destruct Hrest as [-> | P]; [now left | right].
    destruct (starts_with_char _ _ P) as (r & ->). exists r. now split.
Qed.

Lemma shorts_shape_id (url id : string) :
  shorts_shape url id -> _extract_video_id url = Ok id.
Proof.
  intros (pre & rest & E & Hw & Hpre & Hid & Hq & Hrest).
  unfold _extract_video_id. rewrite Hw. subst url.
  rewrite (contains_app_r _ pre _ (contains_prefix _ _ (prefix_app _ _))).
  change (pre ++ "youtube.com/shorts/" ++ id ++ rest)
    with (pre ++ "youtube.com/" ++ "shorts/" ++ id ++ rest).
  rewrite <- app_assoc_s.
  apply (between_markers "shorts/" "?"); try assumption; try discriminate.
  - rewrite clear_app. apply andb_true_iff. split; [|reflexivity].
    apply clear_intro; [exact Hpre | reflexivity].
  - destruct Hrest as [-> | P]; [now left | right].
    destruct (starts_with_char _ _ P) as (r & ->). exists r. now split.
Qed.

Lemma short_domain_shape_id (url id : string) :
  short_domain_shape url id -> _extract_video_id url = Ok id.
Proof.
  intros (pre & rest & E & Hw & Hs & Hpre & Hid & Hq & Hrest).
  unfold _extract_video_id. rewrite Hw, Hs. subst url.
  rewrite (contains_app_r _ pre _ (contains_prefix _ _ (prefix_app _ _))).
  apply (between_markers "youtu.be/" "?"); try assumption; try discriminate.
  - apply clear_intro; [exact Hpre | reflexivity].
  - destruct Hrest as [-> | P]; [now left | right].
    destruct (starts_with_char _ _ P) as (r & ->). exists r. now split.
Qed.

Lemma unrecognized_id (url : string) :
  unrecognized url -> _extract_video_id url = Ok "unknown".
Proof.
  intros (H1 & H2 & H3). unfold _extract_video_id. now rewrite H1, H2, H3.
Qed.

(** C8.  The three known URL shapes yield the identifier embedded after
    their marker, and every other text yields ["unknown"]:
    - a watch link [.. youtube.com/watch?v=ID], alone or followed by
      [&...], yields [ID];
    - a shorts link [.. youtube.com/shorts/ID], alone or followed by
      [?...], yields [ID];
    - a short-domain link [.. youtu.be/ID], alone or followed by [?...],
      yields [ID];
    - a text with none of the three markers yields ["unknown"].
    The identifier holds neither the mark that introduces it nor the
    character that ends it, the mark does not occur before the marker,
    and an earlier branch of the code does not fire. *)
Theorem extract_video_id_shapes :
  (forall pre id rest,
      contains "v=" pre = false ->
      contains "v=" id = false ->
      contains "&" id = false ->
      rest = "" \/ prefix "&" rest = true ->
      _extract_video_id (pre ++ "youtube.com/watch?v=" ++ id ++ rest) = Ok id)
  /\
  (forall pre id rest,
      contains "youtube.com/watch?v="
        (pre ++ "youtube.com/shorts/" ++ id ++ rest) = false ->
      contains "shorts/" pre = false ->
      contains "shorts/" id = false ->
      contains "?" id = false ->
      rest = "" \/ prefix "?" rest = true ->
      _extract_video_id (pre ++ "youtube.com/shorts/" ++ id ++ rest) = Ok id)
  /\
  (forall pre id rest,
      contains "youtube.com/watch?v=" (pre ++ "youtu.be/" ++ id ++ rest) = false ->
      contains "youtube.com/shorts/" (pre ++ "youtu.be/" ++ id ++ rest) = false ->
      contains "youtu.be/" pre = false ->
      contains "youtu.be/" id = false ->
      contains "?" id = false ->
      rest = "" \/ prefix "?" rest = true ->
      _extract_video_id (pre ++ "youtu.be/" ++ id ++ rest) = Ok id)
  /\
  (forall url,
      contains "youtube.com/watch?v=" url = false ->
      contains "youtube.com/shorts/" url = false ->
      contains "youtu.be/" url = false ->
      _extract_video_id url = Ok "unknown").
Proof.
  repeat split.
  - intros pre id rest Hpre Hid Hamp Hrest.
    apply watch_shape_id. exists pre, rest. auto.
  - intros pre id rest Hw Hpre Hid Hq Hrest.
    apply shorts_shape_id. exists pre, rest. repeat split; auto.
  - intros pre id rest Hw Hs Hpre Hid Hq Hrest.
    apply short_domain_shape_id. exists pre, rest. repeat split; auto.
  - intros url H1 H2 H3. apply unrecognized_id. repeat split; assumption.
Qed.

(** The four examples of the specification, with the usual host in front
    of the first two. *)
Lemma extract_video_id_shapes_witness :
  _extract_video_id "https://www.youtube.com/watch?v=XYZ&t=5" = Ok "XYZ" /\
  _extract_video_id "https://www.youtube.com/shorts/XYZ?x=1" = Ok "XYZ" /\
  _extract_video_id "youtu.be/XYZ" = Ok "XYZ" /\
  _extract_video_id "https://example.org/clip/XYZ" = Ok "unknown".
Proof.
  destruct extract_video_id_shapes as (W & S & B & U).
  split; [|split; [|split]].
  - apply (W "https://www." "XYZ" "&t=5"); try reflexivity. right; reflexivity.
  - apply (S "https://www." "XYZ" "?x=1"); try reflexivity. right; reflexivity.
  - apply (B "" "XYZ" ""); try reflexivity. left; reflexivity.
  - apply U; reflexivity.
Defined.

(** *** The identifier always exists *)

Lemma prefix_split (a s : string) :
  prefix a s = true -> exists y, s = a ++ y.
Proof.
  revert s. induction a as [|c a IH]; intros s H.
  - exists s. reflexivity.
  - destruct s as [|d s]; [discriminate|].
    apply prefix_cons in H. destruct H as [-> H].
    destruct (IH s H) as (y & ->). exists y. reflexivity.
Qed.

Lemma contains_split (a s : string) :
  contains a s = true -> exists x y, s = x ++ a ++ y.
Proof.
  induction s as [|c s IH]; intros H.
  - cbn [contains] in H. rewrite orb_false_r in H.
    destruct (prefix_split _ _ H) as (y & E). exists "", y. exact E.
  - cbn [contains] in H. apply orb_true_iff in H. destruct H as [H | H].
    + destruct (prefix_split _ _ H) as (y & E). exists "", y. exact E.
    + destruct (IH H) as (x & y & ->). exists (String c x), y. reflexivity.
Qed.

Lemma contains_middle (a x y : string) : contains a (x ++ a ++ y) = true.
Proof. apply contains_app_r, contains_prefix, prefix_app. Qed.

Lemma contains_trans (a b s : string) :
  contains a b = true -> contains b s = true -> contains a s = true.
Proof.
  intros Hab Hbs.
  destruct (contains_split _ _ Hab) as (p & q & ->).
  destruct (contains_split _ _ Hbs) as (x & y & ->).
  rewrite !app_assoc_s. rewrite <- (app_assoc_s x p).
  apply contains_middle.
Qed.

(** A text that holds the separator splits into two pieces at least. *)
Lemma split_from_two (sep s : string) :
  sep <> "" -> contains sep s = true ->
  exists p q rest, split_from sep 0 s = p :: q :: rest.
Proof.
  intros Hs. induction s as [|c s IH]; intros H.
  - cbn [contains] in H. rewrite orb_false_r in H.
    destruct sep; [contradiction | discriminate].
  - cbn [contains] in H. cbn [split_from].
    destruct (prefix sep (String c s)) eqn:P.
    + destruct (split_from_cons sep (length sep - 1) s) as (q & rest & ->).
      eauto.
    + cbn [orb] in H. destruct (IH H) as (p & q & rest & ->). eauto.
Qed.

Lemma second_piece_then_first (sep : string) (c : ascii) (url : string) :
  sep <> "" -> contains sep url = true ->
  exists id,
    (pieces <- split url sep ;;
     found <- py_index pieces 1 ;;
     pieces' <- split found (String c "") ;;
     py_index pieces' 0)%outcome = Ok id.
Proof.
  intros Hs H. unfold split.
  rewrite (proj2 (String.eqb_neq _ _) Hs). cbn [obind].
  destruct (split_from_two _ _ Hs H) as (p & q & rest & ->).
  unfold py_index at 1. cbn [nth_error obind].
  change (String c "" =? "")%string with false. cbn [obind].
  destruct (split_from_cons (String c "") 0 q) as (id & ids & ->).
  exists id. reflexivity.
Qed.

Lemma extract_video_id_total (url : string) :
  exists id, _extract_video_id url = Ok id.
Proof.
  unfold _extract_video_id.
  destruct (contains "youtube.com/watch?v=" url) eqn:W.
  { apply second_piece_then_first; [discriminate|].
    now apply (contains_trans _ "youtube.com/watch?v="). }
  destruct (contains "youtube.com/shorts/" url) eqn:S.
  { apply second_piece_then_first; [discriminate|].
    now apply (contains_trans _ "youtube.com/shorts/"). }
  destruct (contains "youtu.be/" url) eqn:B.
  { apply second_piece_then_first; [discriminate | exact B]. }
  eauto.
Qed.

End VideoId.


(* ================================================================== *)
(** ** Reasoning about stage computations *)

Section Computations.

Context {C : Collaborators}.

Lemma bind_ok {A B} (m : M C A) (f : A -> M C B) st w a st1 w1 :
  m st w = (Ok a, st1, w1) -> bind m f st w = f a st1 w1.
Proof. intros H. unfold bind. now rewrite H. Qed.

Lemma bind_raise {A B} (m : M C A) (f : A -> M C B) st w e st1 w1 :
  m st w = (Raise e, st1, w1) -> bind m f st w = (Raise e, st1, w1).
Proof. intros H. unfold bind. now rewrite H. Qed.

(** A computation that returns went through both halves of a [bind]. *)
Lemma bind_inv {A B} (m : M C A) (f : A -> M C B) st w b st2 w2 :
  bind m f st w = (Ok b, st2, w2) ->
  exists a st1 w1, m st w = (Ok a, st1, w1) /\ f a st1 w1 = (Ok b, st2, w2).
Proof.
  unfold bind. destruct (m st w) as [[[a|e] st1] w1]; intros H.
  - eauto.
  - discriminate.
Qed.

(** *** Properties of the state that a computation keeps *)

Lemma preserves_ret {A} (I : State.t -> Prop) (a : A) : preserves I (@ret C A a).
Proof. intros st w H. exact H. Qed.

Lemma preserves_bind {A B} (I : State.t -> Prop) (m : M C A) (f : A -> M C B) :
  preserves I m -> (forall a, preserves I (f a)) -> preserves I (bind m f).
Proof.
  intros Hm Hf st w H. unfold bind.
  specialize (Hm st w H). unfold state_of in *.
  destruct (m st w) as [[[a|e] st1] w1]; simpl in *.
  - apply Hf. exact Hm.
  - exact Hm.
Qed.

Lemma preserves_gets {A} (I : State.t -> Prop) (key : State.t -> A) :
  preserves I (@gets C A key).
Proof. intros st w H. exact H. Qed.

Lemma preserves_modify (I : State.t -> Prop) (f : State.t -> State.t) :
  (forall st, I st -> I (f st)) -> preserves I (@modify C f).
Proof. intros Hf st w H. apply Hf. exact H. Qed.

Lemma preserves_pure {A} (I : State.t -> Prop) (o : outcome A) :
  preserves I (@pure C A o).
Proof. intros st w H. exact H. Qed.

Lemma preserves_call {A} (I : State.t -> Prop) (f : World C -> outcome A * World C) :
  preserves I (call f).
Proof. intros st w H. unfold call, state_of. now destruct (f w). Qed.

Lemma preserves_ask {A} (I : State.t -> Prop) (f : World C -> A * World C) :
  preserves I (ask f).
Proof. intros st w H. unfold ask, state_of. now destruct (f w). Qed.

Lemma preserves_for_each {A} (I : State.t -> Prop) (l : list A) (body : A -> M C unit) :
  (forall x, In x l -> preserves I (body x)) -> preserves I (for_each l body).
Proof.
  induction l as [|x l IH]; intros Hb; cbn [for_each].
  - apply preserves_ret.
  - apply preserves_bind.
    + apply Hb. now left.
    + intros _. apply IH. intros y Hy. apply Hb. now right.
Qed.

Lemma preserves_for_fold {A B} (I : State.t -> Prop) (l : list A) (acc : B)
    (body : B -> A -> M C B) :
  (forall acc x, preserves I (body acc x)) -> preserves I (for_fold l acc body).
Proof.
  intros Hb. revert acc. induction l as [|x l IH]; intros acc; cbn [for_fold].
  - apply preserves_ret.
  - apply preserves_bind; [apply Hb | intros acc'; apply IH].
Qed.

(** *** Computations that ignore the error key *)










Lemma preserves_run {A} (I : State.t -> Prop) (m : M C A) st w o st' w' :
  preserves I m -> m st w = (o, st', w') -> I st -> I st'.
Proof.
  intros Hm E H. specialize (Hm st w H). rewrite E in Hm. exact Hm.
Qed.

(** *** Loops *)

(** A property of the local variables that every round keeps holds when
    the loop returns. *)
Lemma for_fold_inv {A B} (P : B -> Prop) (body : B -> A -> M C B) :
  (forall acc x st w acc' st' w',
      P acc -> body acc x st w = (Ok acc', st', w') -> P acc') ->
  forall l acc st w r st' w',
    P acc -> for_fold l acc body st w = (Ok r, st', w') -> P r.
Proof.
  intros Hb l. induction l as [|x l IH]; intros acc st w r st' w' Hacc H.
  - cbn [for_fold] in H. unfold ret in H. now inversion H; subst.
  - cbn [for_fold] in H. apply bind_inv in H.
    destruct H as (acc1 & st1 & w1 & H1 & H2).
    exact (IH _ _ _ _ _ _ (Hb _ _ _ _ _ _ _ Hacc H1) H2).
Qed.

Lemma bind_gets {A B} (key : State.t -> A) (f : A -> M C B) st w :
  bind (gets key) f st w = f (key st) st w.
Proof. reflexivity. Qed.

Lemma for_each_app {A} (l1 l2 : list A) (body : A -> M C unit) st w :
  for_each (l1 ++ l2) body st w =
  bind (for_each l1 body) (fun _ => for_each l2 body) st w.
Proof.
  revert st w. induction l1 as [|x l1 IH]; intros st w.
  - reflexivity.
  - cbn [app for_each]. unfold bind.
    destruct (body x st w) as [[[u|e] st1] w1]; [|reflexivity].
    exact (IH st1 w1).
Qed.


(** A loop over [range(n)] that returned went through round [j]. *)
Lemma for_each_seq_at (body : nat -> M C unit) (n j : nat) st w st' w' :
  (j < n)%nat ->
  for_each (seq 0 n) body st w = (Ok tt, st', w') ->
  exists s1 w1 s2 w2,
    for_each (seq 0 j) body st w = (Ok tt, s1, w1) /\
    body j s1 w1 = (Ok tt, s2, w2) /\
    for_each (seq (S j) (n - S j)) body s2 w2 = (Ok tt, st', w').
Proof.
  intros Hj H.
  replace n with (j + S (n - S j))%nat in H by lia.
  rewrite seq_app in H. cbn [seq plus] in H.
  rewrite for_each_app in H. apply bind_inv in H.
  destruct H as ([] & s1 & w1 & H1 & H). cbn [for_each] in H.
  apply bind_inv in H. destruct H as ([] & s2 & w2 & H2 & H).
  exists s1, w1, s2, w2. auto.
Qed.

Lemma gets_inv {A} (key : State.t -> A) st w a st' w' :
  @gets C A key st w = (Ok a, st', w') -> a = key st /\ st' = st /\ w' = w.
Proof. unfold gets. intros H. inversion H. auto. Qed.

Lemma pure_inv {A} (o : outcome A) st w a st' w' :
  @pure C A o st w = (Ok a, st', w') -> o = Ok a /\ st' = st /\ w' = w.
Proof. unfold pure. intros H. inversion H. auto. Qed.

Lemma call_inv {A} (f : World C -> outcome A * World C) st w a st' w' :
  call f st w = (Ok a, st', w') -> f w = (Ok a, w') /\ st' = st.
Proof.
  unfold call. destruct (f w) as [o w1]. intros H. inversion H. auto.
Qed.

Lemma ret_inv {A} (a b : A) st w st' w' :
  @ret C A a st w = (Ok b, st', w') -> b = a /\ st' = st /\ w' = w.
Proof. unfold ret. intros H. inversion H. auto. Qed.

Lemma modify_inv (f : State.t -> State.t) st w u st' w' :
  @modify C f st w = (Ok u, st', w') -> st' = f st /\ w' = w.
Proof. unfold modify. intros H. inversion H. auto. Qed.

End Computations.

(** Breaks a computation down to the updates of the state it performs. *)
Ltac step_preserves :=
  match goal with
  | |- preserves _ (ret _) => apply preserves_ret
  | |- preserves _ (bind _ _) => apply preserves_bind; [|intros ?]
  | |- preserves _ (gets _) => apply preserves_gets
  | |- preserves _ (pure _) => apply preserves_pure
  | |- preserves _ (call _) => apply preserves_call
  | |- preserves _ (ask _) => apply preserves_ask
  | |- preserves _ (for_each _ _) => apply preserves_for_each; intros ? ?
  | |- preserves _ (for_fold _ _ _) => apply preserves_for_fold; intros ? ?
  | |- preserves _ (modify _) => apply preserves_modify
  | |- preserves _ (match ?x with _ => _ end) => destruct x
  | |- preserves _ (let _ := _ in _) => cbv zeta
  end.


(* ================================================================== *)
(** ** Video Acquisition *)

Section Acquisition.

(** C3, as the code has it.  Every URL has an identifier, and after the
    Acquisition stage returned without raising, [video_id] is that
    identifier and [video_path] is built from it.  The identifier is
    ["unknown"], hence not empty, for a URL of no known shape; for a URL
    of a known shape it is the text between the marker and the end of the
    identifier, empty or not: the code does not check. *)
Theorem video_id_after_acquisition :
  (forall url, exists id, _extract_video_id url = Ok id) /\
  (forall (C : Collaborators) st w st' w',
      extract_video_body C st w = (Ok tt, st', w') ->
      _extract_video_id (State.url st) = Ok (State.video_id st') /\
      State.video_path st' = "output/video_" ++ State.video_id st' ++ ".mp4" /\
      (unrecognized (State.url st) -> State.video_id st' = "unknown") /\
      (forall id,
          watch_shape (State.url st) id \/ shorts_shape (State.url st) id \/
          short_domain_shape (State.url st) id ->
          State.video_id st' = id)).
Proof.
  split; [exact extract_video_id_total|].
  intros C st w st' w' H. unfold extract_video_body in H.
  apply bind_inv in H. destruct H as (url & st1 & w1 & Hu & H).
  apply gets_inv in Hu. destruct Hu as (-> & -> & ->).
  apply bind_inv in H. destruct H as (id & st2 & w2 & Hid & H).
  apply pure_inv in Hid. destruct Hid as (Hid & -> & ->).
  apply bind_inv in H. destruct H as (u1 & st3 & w3 & H1 & H).
  apply modify_inv in H1. destruct H1 as (-> & ->).
  cbv zeta in H.
  apply bind_inv in H. destruct H as (u2 & st4 & w4 & H2 & H).
  apply modify_inv in H2. destruct H2 as (-> & ->).
  assert (K : State.video_id st' = id /\
              State.video_path st' = "output/video_" ++ id ++ ".mp4").
  { eapply (preserves_run
              (fun s => State.video_id s = id /\
                        State.video_path s = "output/video_" ++ id ++ ".mp4"));
      [ | exact H | split; reflexivity ].
    repeat step_preserves. }
  destruct K as (K1 & K2). rewrite K1.
  split; [exact Hid|]. split; [exact K2|]. split.
  - intros U. rewrite (unrecognized_id _ U) in Hid. now injection Hid.
  - intros id' [S | [S | S]].
    + rewrite (watch_shape_id _ _ S) in Hid. now injection Hid.
    + rewrite (shorts_shape_id _ _ S) in Hid. now injection Hid.
    + rewrite (short_domain_shape_id _ _ S) in Hid. now injection Hid.
Qed.

(** A video that is on disk already, under an ordinary watch link. *)
Lemma video_id_after_acquisition_witness :
  let C := Demo.collaborators Demo.ten_seconds in
  let st := initial_state "https://www.youtube.com/watch?v=XYZ&t=5" in
  State.video_id (state_of (extract_video_body C st tt)) = "XYZ".
Proof.
  intros C st.
  destruct video_id_after_acquisition as (_ & K).
  destruct (K C st tt (state_of (extract_video_body C st tt)) tt) as (_ & _ & _ & S).
  - vm_compute. reflexivity.
  - apply S. left. exists "https://www.", "&t=5".
    repeat split; try reflexivity. right. reflexivity.
Defined.

(** C3 as stated fails.  A watch link that ends after its marker has the
    empty identifier; with the file [output/video_.mp4] on disk the stage
    returns without an error. *)
Lemma empty_video_id_after_success :
  let C := Demo.collaborators Demo.ten_seconds in
  let st' := fst (_extract_video C (initial_state "https://www.youtube.com/watch?v=") tt) in
  State.error st' = None /\ State.video_id st' = "" /\
  State.video_path st' = "output/video_.mp4".
Proof. vm_compute. repeat split; reflexivity. Qed.

End Acquisition.

(* ================================================================== *)
(** ** The error key across the stages *)

Section ErrorKey.

Context (C : Collaborators).


Lemma bodies_keep_error (e0 : option string) :
  Forall (fun lb : string * M C unit =>
            preserves (fun st => State.error st = e0) (snd lb)) (stage_bodies C).
Proof.
  unfold stage_bodies.
  repeat (apply Forall_cons; [|]); try apply Forall_nil; cbn [snd];
    unfold extract_video_body, extract_frames_body, identify_products_body,
      segment_products_body, enhance_products_body, read_frame, identify_frame,
      identify_parsed, identify_candidate, identify_fallback, append_product,
      segment_product,
      enhance_product, enhance_style, set_product;
    repeat step_preserves.
  all: intros ? Hkeep; exact Hkeep.
Qed.




End ErrorKey.



(* ================================================================== *)
(** ** Facts about floats *)

Module FloatFacts.

Local Open Scope Q_scope.

Lemma Qltb_true (x y : Q) : Qltb x y = true <-> x < y.
Proof.
  unfold Qltb. rewrite negb_true_iff. split.
  - intros H. apply Qnot_le_lt. intros K. apply Qle_bool_iff in K. congruence.
  - intros H. destruct (Qle_bool y x) eqn:E; [|reflexivity].
    apply Qle_bool_iff in E. apply Qlt_not_le in H. contradiction.
Qed.

Lemma Qltb_false (x y : Q) : Qltb x y = false <-> y <= x.
Proof.
  unfold Qltb. rewrite negb_false_iff. apply Qle_bool_iff.
Qed.

(** *** Rounding to an integer *)

Lemma round_half_even_bounds (x : Q) :
  (Qfloor x <= round_half_even x <= Qfloor x + 1)%Z.
Proof.
  unfold round_half_even.
  destruct (Qltb _ _); [lia|]. destruct (Qltb _ _); [lia|].
  destruct (Z.even _); lia.
Qed.

Lemma round_half_even_le (x y : Q) :
  x <= y -> (round_half_even x <= round_half_even y)%Z.
Proof.
  intros H. pose proof (Qfloor_resp_le _ _ H) as F.
  destruct (Z.eq_dec (Qfloor x) (Qfloor y)) as [E|N].
  - unfold round_half_even. rewrite <- E.
    destruct (Qltb (x - inject_Z (Qfloor x)) 0.5) eqn:A1;
      destruct (Qltb (y - inject_Z (Qfloor x)) 0.5) eqn:B1;
      try destruct (Qltb 0.5 (x - inject_Z (Qfloor x))) eqn:A2;
      try destruct (Qltb 0.5 (y - inject_Z (Qfloor x))) eqn:B2;
      try destruct (Z.even (Qfloor x)); try lia;
      rewrite ?Qltb_true, ?Qltb_false in *; exfalso; lra.
  - pose proof (round_half_even_bounds x). pose proof (round_half_even_bounds y). lia.
Qed.

Lemma round_half_even_Z (z : Z) : round_half_even (inject_Z z) = z.
Proof.
  unfold round_half_even. rewrite Qfloor_Z.
  assert (H : Qltb (inject_Z z - inject_Z z) 0.5 = true) by (apply Qltb_true; lra).
  now rewrite H.
Qed.


(** *** Powers of two *)

Lemma pow2_pos (k : Z) : 0 < pow2 k.
Proof. apply Qpower_0_lt. reflexivity. Qed.

Lemma pow2_plus (a b : Z) : pow2 (a + b) == pow2 a * pow2 b.
Proof. apply Qpower_plus. discriminate. Qed.

Lemma pow2_le (a b : Z) : (a <= b)%Z -> pow2 a <= pow2 b.
Proof. intros H. apply Qpower_le_compat_l; [exact H | discriminate]. Qed.

Lemma pow2_lt_inv (a b : Z) : pow2 a < pow2 b -> (a < b)%Z.
Proof. intros H. eapply Qpower_lt_compat_l_inv; [exact H | reflexivity]. Qed.

Lemma pow2_Z (k : Z) : (0 <= k)%Z -> pow2 k == inject_Z (2 ^ k).
Proof. intros H. unfold pow2. now rewrite Zpower_Qpower. Qed.


Lemma pow2_opp (k : Z) : pow2 (- k) == / pow2 k.
Proof. apply Qpower_opp. Qed.

Lemma pow2_succ (k : Z) : pow2 (k + 1) == 2 * pow2 k.
Proof. rewrite pow2_plus. change (pow2 1) with 2. ring. Qed.

Lemma pow2_minus (a b : Z) : pow2 (a - b) * pow2 b == pow2 a.
Proof. rewrite <- pow2_plus. now replace (a - b + b)%Z with a by lia. Qed.

Lemma log2_bounds (n : Z) :
  (0 < n)%Z -> pow2 (Z.log2 n) <= inject_Z n < 2 * pow2 (Z.log2 n).
Proof.
  intros H. destruct (Z.log2_spec n H) as (L & U).
  pose proof (Z.log2_nonneg n) as N.
  rewrite <- pow2_succ, !pow2_Z by lia. rewrite <- Zle_Qle, <- Zlt_Qlt.
  split; [exact L | exact U].
Qed.

(** *** The binary logarithm, rounded down *)

Lemma ilog2_spec (x : Q) :
  0 < x -> pow2 (ilog2 x) <= x < pow2 (ilog2 x + 1).
Proof.
  intros Hx. unfold ilog2.
  assert (Ha : (0 < Qnum x)%Z).
  { destruct x as [a b]. unfold Qlt in Hx. cbn in *. lia. }
  destruct (log2_bounds (Qnum x) Ha) as (A1 & A2).
  destruct (log2_bounds (Zpos (Qden x)) eq_refl) as (B1 & B2).
  set (la := Z.log2 (Qnum x)) in *. set (lb := Z.log2 (Zpos (Qden x))) in *.
  pose proof (pow2_pos la) as PA. pose proof (pow2_pos lb) as PB.
  pose proof (pow2_pos (la - lb)) as PK.
  pose proof (pow2_minus la lb) as K.
  assert (X : x * inject_Z (Zpos (Qden x)) == inject_Z (Qnum x)).
  { destruct x as [a b]. unfold Qeq, Qmult, inject_Z. cbn. lia. }
  assert (U : x < 2 * pow2 (la - lb)) by nra.
  assert (L : pow2 (la - lb) < 2 * x) by nra.
  destruct (Qle_bool (pow2 (la - lb)) x) eqn:E.
  - apply Qle_bool_iff in E. rewrite pow2_succ. split; assumption.
  - assert (E' : x < pow2 (la - lb)).
    { apply Qnot_le_lt. intros G. apply Qle_bool_iff in G. congruence. }
    replace (la - lb - 1 + 1)%Z with (la - lb)%Z by lia.
    split; [|exact E'].
    pose proof (pow2_succ (la - lb - 1)) as S.
    replace (la - lb - 1 + 1)%Z with (la - lb)%Z in S by lia.
    pose proof (pow2_pos (la - lb - 1)). lra.
Qed.

Lemma ilog2_unique (x : Q) (k : Z) :
  pow2 k <= x < pow2 (k + 1) -> ilog2 x = k.
Proof.
  intros (L & U).
  assert (Hx : 0 < x) by (pose proof (pow2_pos k); lra).
  destruct (ilog2_spec x Hx) as (L' & U').
  assert ((k < ilog2 x + 1)%Z) by (apply pow2_lt_inv; lra).
  assert ((ilog2 x < k + 1)%Z) by (apply pow2_lt_inv; lra).
  lia.
Qed.

Lemma ilog2_le (x y : Q) : 0 < x -> x <= y -> (ilog2 x <= ilog2 y)%Z.
Proof.
  intros Hx H.
  destruct (ilog2_spec x Hx) as (L & _).
  destruct (ilog2_spec y ltac:(lra)) as (_ & U).
  assert ((ilog2 x < ilog2 y + 1)%Z) by (apply pow2_lt_inv; lra).
  lia.
Qed.


(** *** Rounding to a double *)

Lemma ulp_exponent_le (x y : Q) :
  0 < x -> x <= y -> (ulp_exponent x <= ulp_exponent y)%Z.
Proof.
  intros Hx H. pose proof (ilog2_le x y Hx H). unfold ulp_exponent. lia.
Qed.

(** The significand of a positive number is at most [2^53]. *)
Lemma significand_upper (x : Q) :
  0 < x -> (round_half_even (x / pow2 (ulp_exponent x)) <= 2 ^ 53)%Z.
Proof.
  intros Hx. destruct (ilog2_spec x Hx) as (_ & U).
  pose proof (pow2_pos (ulp_exponent x)) as P.
  assert (E : (ilog2 x + 1 <= ulp_exponent x + 53)%Z) by (unfold ulp_exponent; lia).
  apply pow2_le in E. rewrite (pow2_plus (ulp_exponent x) 53) in E.
  rewrite <- (round_half_even_Z (2 ^ 53)). apply round_half_even_le.
  apply Qle_shift_div_r; [exact P|].
  change (inject_Z (2 ^ 53)) with (pow2 53). rewrite Qmult_comm. lra.
Qed.

(** The significand of a number that is not subnormal is at least [2^52]. *)
Lemma significand_lower (x : Q) :
  0 < x -> (-1074 < ulp_exponent x)%Z ->
  (2 ^ 52 <= round_half_even (x / pow2 (ulp_exponent x)))%Z.
Proof.
  intros Hx N. destruct (ilog2_spec x Hx) as (L & _).
  pose proof (pow2_pos (ulp_exponent x)) as P.
  assert (E : ilog2 x = (ulp_exponent x + 52)%Z) by (unfold ulp_exponent in *; lia).
  rewrite E, pow2_plus in L.
  rewrite <- (round_half_even_Z (2 ^ 52)). apply round_half_even_le.
  apply Qle_shift_div_l; [exact P|].
  change (inject_Z (2 ^ 52)) with (pow2 52). rewrite Qmult_comm. lra.
Qed.

Lemma nearest_positive_le (x y : Q) :
  0 < x -> x <= y -> nearest_positive x <= nearest_positive y.
Proof.
  intros Hx H. unfold nearest_positive. cbv zeta.
  pose proof (ulp_exponent_le x y Hx H) as E.
  pose proof (pow2_pos (ulp_exponent x)) as Px.
  pose proof (pow2_pos (ulp_exponent y)) as Py.
  destruct (Z.eq_dec (ulp_exponent x) (ulp_exponent y)) as [Eq|Ne].
  - rewrite <- Eq. apply Qmult_le_compat_r; [|lra].
    rewrite <- Zle_Qle. apply round_half_even_le.
    apply Qmult_le_compat_r; [exact H|].
    apply Qlt_le_weak, Qinv_lt_0_compat, Px.
  - pose proof (significand_upper x Hx) as U.
    pose proof (significand_lower y ltac:(lra)
                  ltac:(unfold ulp_exponent in *; lia)) as L.
    rewrite Zle_Qle in U, L.
    assert (S : (ulp_exponent x + 53 <= ulp_exponent y + 52)%Z) by lia.
    apply pow2_le in S. rewrite !pow2_plus in S.
    change (pow2 53) with (inject_Z (2 ^ 53)) in S.
    change (pow2 52) with (inject_Z (2 ^ 52)) in S.
    nra.
Qed.


Lemma nearest_double_zero (x : Q) : x == 0 -> nearest_double x = 0.
Proof.
  intros H. unfold nearest_double.
  assert (E : Qnum x = 0%Z).
  { destruct x as [a b]. unfold Qeq in H. cbn in *. lia. }
  rewrite E. reflexivity.
Qed.

Lemma nearest_double_pos (x : Q) : 0 < x -> nearest_double x == nearest_positive x.
Proof.
  intros H. unfold nearest_double. rewrite Qred_correct.
  destruct x as [[|a|a] b]; unfold Qlt in H; cbn in H; try lia. reflexivity.
Qed.

Lemma nearest_double_neg (x : Q) :
  x < 0 -> nearest_double x == - nearest_positive (- x).
Proof.
  intros H. unfold nearest_double. rewrite Qred_correct.
  destruct x as [[|a|a] b]; unfold Qlt in H; cbn in H; try lia. reflexivity.
Qed.





Lemma nearest_double_opp (x : Q) : nearest_double (- x) == - nearest_double x.
Proof.
  destruct (Q_dec x 0) as [[Xn|Xp]|X0].
  - rewrite (nearest_double_neg x Xn), (nearest_double_pos (- x)) by lra. ring.
  - rewrite (nearest_double_pos x Xp), (nearest_double_neg (- x)) by lra.
    assert (G : nearest_positive (- - x) == nearest_positive x).
    { apply Qle_antisym; apply nearest_positive_le; try lra;
        rewrite Qopp_involutive; lra. }
    now rewrite G.
  - rewrite (nearest_double_zero x X0), nearest_double_zero; [reflexivity|lra].
Qed.

(** Doubles known from their bit patterns: a third, a tenth, nine
    tenths; a tie between two doubles goes to the even significand; below
    the smallest normal number the spacing stays [2^-1074]. *)
Example nearest_double_values :
  nearest_double (1 # 3) = 6004799503160661 # 18014398509481984 /\
  nearest_double 0.1 = 3602879701896397 # 36028797018963968 /\
  nearest_double 0.9 = 8106479329266893 # 9007199254740992 /\
  nearest_double (inject_Z (2 ^ 53 + 1)) = inject_Z (2 ^ 53) /\
  nearest_double (inject_Z (2 ^ 53 + 3)) = inject_Z (2 ^ 53 + 4) /\
  nearest_double (pow2 (-1075)) = 0 /\
  nearest_double (3 * pow2 (-1075)) = Qred (pow2 (-1073)) /\
  nearest_double (1 - pow2 (-60)) = 1 /\
  nearest_double (- (1 # 3)) = - (6004799503160661 # 18014398509481984).
Proof. repeat split; vm_compute; reflexivity. Qed.

End FloatFacts.

(* ================================================================== *)
(** ** The Frame Sampler *)

Section Sampler.

Local Open Scope Q_scope.

Lemma py_int_floor (x : Q) : 0 <= x -> py_int x = Qfloor x.
Proof.
  destruct x as [n d]. unfold Qle, py_int, Qfloor. cbn [Qnum Qden].
  intros H. apply Z.quot_div_nonneg; lia.
Qed.

(** C2, as the code has it.  The stride is [int(frameRate * 2)]: for a
    frame rate that is not negative, twice the rate rounded down to an
    integer, not to the nearest one.  No minimum is imposed on it: the
    stride is at least 1 exactly when the frame rate is at least 0.5. *)
Theorem frame_interval_truncates (fps : Q) :
  0 <= fps ->
  frame_interval_of fps = Qfloor (fps * 2) /\
  inject_Z (frame_interval_of fps) <= fps * 2 < inject_Z (frame_interval_of fps) + 1 /\
  ((1 <= frame_interval_of fps)%Z <-> 0.5 <= fps).
Proof.
  intros Hfps.
  assert (E : frame_interval_of fps = Qfloor (fps * 2)).
  { unfold frame_interval_of. apply py_int_floor. lra. }
  rewrite E. split; [reflexivity|]. split; [split|].
  - apply Qfloor_le.
  - pose proof (Qlt_floor (fps * 2)) as L.
    rewrite inject_Z_plus in L. exact L.
  - split; intros H.
    + pose proof (Qfloor_le (fps * 2)) as L.
      assert (inject_Z 1 <= inject_Z (Qfloor (fps * 2))) as K
          by (rewrite <- Zle_Qle; exact H).
      change (inject_Z 1) with 1 in K. lra.
    + change 1%Z with (Qfloor 1). apply Qfloor_resp_le. lra.
Qed.

Lemma frame_interval_truncates_witness :
  frame_interval_of 29.97 = Qfloor (29.97 * 2) /\
  inject_Z (frame_interval_of 29.97) <= 29.97 * 2
    < inject_Z (frame_interval_of 29.97) + 1 /\
  ((1 <= frame_interval_of 29.97)%Z <-> 0.5 <= 29.97).
Proof. apply (frame_interval_truncates 29.97). unfold Qle. simpl. lia. Defined.

(** C2 as stated fails.  At 29.97 frames per second the stride of the code
    is 59 where the rounded one is 60; at a quarter of a frame per second
    the stride is 0, below the minimum, and the Sampler ends in an error
    at the first frame. *)
Lemma stride_is_neither_rounded_nor_clamped :
  frame_interval_of 29.97 = 59%Z /\ spec_stride 29.97 = 60%Z /\
  frame_interval_of 0.25 = 0%Z /\ spec_stride 0.25 = 1%Z /\
  (let C := Demo.collaborators Demo.quarter_rate in
   State.error (fst (_extract_frames C (initial_state "https://youtu.be/abc") tt)) =
   Some "Frame extraction failed: division by zero").
Proof. repeat split; vm_compute; reflexivity. Qed.










End Sampler.

(* ================================================================== *)
(** ** The Product Detector *)

Section Detector.

Context (C : Collaborators).

Local Open Scope Q_scope.

Lemma Qltb_lt (x y : Q) : Qltb x y = true <-> x < y.
Proof.
  unfold Qltb. rewrite negb_true_iff. split; intros H.
  - apply Qnot_le_lt. intros L. apply Qle_bool_iff in L. congruence.
  - destruct (Qle_bool y x) eqn:E; [|reflexivity].
    apply Qle_bool_iff in E. exfalso. exact (Qlt_not_le _ _ H E).
Qed.

(** What the two appends of the Detector do to the state. *)
Lemma append_product_run (i : nat) (p : ProductInfo.t) st w :
  append_product C i p st w =
  (Ok tt,
   State.set_frames
     (update_nth i
        (Frame.append_products_detected (List.length (State.products st)))
        (State.frames st))
     (State.set_products (State.products st ++ [p])%list st),
   w).
Proof.
  unfold append_product, bind, modify.
  cbn [State.products State.set_products State.frames State.set_frames].
  rewrite length_app. cbn [List.length].
  replace (List.length (State.products st) + 1 - 1)%nat
    with (List.length (State.products st)) by lia.
  reflexivity.
Qed.

(** A candidate of the expected shape is recorded or passed over by the
    acceptance rule, and nothing is raised. *)
Lemma identify_candidate_carries (i : nat) (fd : Frame.t) product c st w :
  carries product c ->
  identify_candidate C i fd product st w =
  if accepted c then append_product C i (record_of fd c) st w
  else (Ok tt, st, w).
Proof.
  intros (entries & -> & Hn & Hc & Hd & Hg).
  unfold identify_candidate, accepted, bind, pure, py_get, py_getitem.
  rewrite Hg. cbn [truthy].
  destruct (cand_is_good_frame c); cbn [andb]; [|reflexivity].
  rewrite Hc. cbn [py_gt].
  destruct (Qltb 0.5 (cand_confidence c)); [|reflexivity].
  rewrite Hn, Hd. reflexivity.
Qed.

Lemma identify_candidates_carry (i : nat) (fd : Frame.t) products cs :
  Forall2 carries products cs ->
  forall st w,
    out_of (for_each products (identify_candidate C i fd) st w) = Ok tt /\
    world_of (for_each products (identify_candidate C i fd) st w) = w /\
    State.products (state_of (for_each products (identify_candidate C i fd) st w)) =
    (State.products st ++ map (record_of fd) (filter accepted cs))%list.
Proof.
  induction 1 as [|product c products cs Hc _ IH]; intros st w.
  - cbn. rewrite app_nil_r. auto.
  - cbn [for_each filter].
    pose proof (identify_candidate_carries i fd product c st w Hc) as E.
    destruct (accepted c).
    + rewrite append_product_run in E. rewrite (bind_ok _ _ _ _ _ _ _ E).
      match goal with |- context [for_each products _ ?s w] =>
        destruct (IH s w) as (H1 & H2 & H3) end.
      split; [exact H1|]. split; [exact H2|]. rewrite H3.
      cbn [State.products State.set_products State.set_frames map].
      rewrite <- app_assoc. reflexivity.
    + rewrite (bind_ok _ _ _ _ _ _ _ E). apply IH.
Qed.

(** The two ways out of [json.loads] in the round for one frame. *)
Lemma identify_frame_parsed (i : nat) (fd : Frame.t) st w image w1 response w2
    raw result :
  Image_open C (Frame.image_path fd) w = (Ok image, w1) ->
  generate_content C DetectionPrompt image w1 = (Ok response, w2) ->
  text response = Ok raw ->
  json_loads C raw = Some result ->
  identify_frame C (i, fd) st w = identify_parsed C i fd result st w2.
Proof.
  intros Ho Hg Ht Hj. unfold identify_frame, bind, call, pure.
  rewrite Ho, Hg, Ht, Hj. reflexivity.
Qed.

Lemma identify_frame_unparsed (i : nat) (fd : Frame.t) st w image w1 response w2
    raw :
  Image_open C (Frame.image_path fd) w = (Ok image, w1) ->
  generate_content C DetectionPrompt image w1 = (Ok response, w2) ->
  text response = Ok raw ->
  json_loads C raw = None ->
  identify_frame C (i, fd) st w = identify_fallback C i fd response st w2.
Proof.
  intros Ho Hg Ht Hj. unfold identify_frame, bind, call, pure.
  rewrite Ho, Hg, Ht, Hj. reflexivity.
Qed.

Lemma identify_parsed_candidates (i : nat) (fd : Frame.t) entries products st w :
  lookup "products" entries = Some (PList products) ->
  identify_parsed C i fd (PDict entries) st w =
  for_each products (identify_candidate C i fd) st w.
Proof.
  intros Hl. unfold identify_parsed, bind, pure, py_get. now rewrite Hl.
Qed.

(** C4.  A candidate that carries the four keys is turned into a record
    exactly when its flag is true and its confidence is strictly above
    0.5: the records the Detector adds for the candidates of a frame are
    those of the accepted candidates, in order, and nothing is raised; a
    candidate with confidence 0.5 is not accepted. *)
Theorem detector_acceptance_rule (i : nat) (fd : Frame.t) :
  (forall product c st w,
      carries product c ->
      out_of (identify_candidate C i fd product st w) = Ok tt /\
      State.products (state_of (identify_candidate C i fd product st w)) =
      (State.products st ++
         (if cand_is_good_frame c && Qltb 0.5 (cand_confidence c)
          then [record_of fd c] else []))%list) /\
  (forall products cs st w,
      Forall2 carries products cs ->
      out_of (for_each products (identify_candidate C i fd) st w) = Ok tt /\
      State.products (state_of (for_each products (identify_candidate C i fd) st w)) =
      (State.products st ++ map (record_of fd) (filter accepted cs))%list) /\
  (forall st w image w1 response w2 raw entries products cs,
      Image_open C (Frame.image_path fd) w = (Ok image, w1) ->
      generate_content C DetectionPrompt image w1 = (Ok response, w2) ->
      text response = Ok raw ->
      json_loads C raw = Some (PDict entries) ->
      lookup "products" entries = Some (PList products) ->
      Forall2 carries products cs ->
      out_of (identify_frame C (i, fd) st w) = Ok tt /\
      State.products (state_of (identify_frame C (i, fd) st w)) =
      (State.products st ++ map (record_of fd) (filter accepted cs))%list) /\
  (forall c,
      accepted c = true <->
      cand_is_good_frame c = true /\ 0.5 < cand_confidence c) /\
  (forall c, cand_confidence c == 0.5 -> accepted c = false).
Proof.
  split; [|split; [|split; [|split]]]; [| | | |intros c Hc]; repeat split.
  - rewrite (identify_candidate_carries _ _ _ _ _ _ H).
    fold (accepted c). destruct (accepted c); [|reflexivity].
    now rewrite append_product_run.
  - rewrite (identify_candidate_carries _ _ _ _ _ _ H).
    fold (accepted c). destruct (accepted c).
    + now rewrite append_product_run.
    + cbn. now rewrite app_nil_r.
  - apply (identify_candidates_carry _ _ _ _ H).
  - apply (identify_candidates_carry _ _ _ _ H).
  - rewrite (identify_frame_parsed _ _ _ _ _ _ _ _ _ _ H H0 H1 H2).
    rewrite (identify_parsed_candidates _ _ _ _ _ _ H3).
    apply (identify_candidates_carry _ _ _ _ H4).
  - rewrite (identify_frame_parsed _ _ _ _ _ _ _ _ _ _ H H0 H1 H2).
    rewrite (identify_parsed_candidates _ _ _ _ _ _ H3).
    apply (identify_candidates_carry _ _ _ _ H4).
  - unfold accepted in H. apply andb_true_iff in H. apply H.
  - unfold accepted in H. apply andb_true_iff in H. apply Qltb_lt, H.
  - intros (Hg & Hc). unfold accepted. rewrite Hg. now apply Qltb_lt.
  - unfold accepted.
    destruct (Qltb 0.5 (cand_confidence c)) eqn:E.
    + apply Qltb_lt in E. rewrite Hc in E. exfalso. exact (Qlt_irrefl _ E).
    + apply andb_false_r.
Qed.

(** *** The fallback *)

Lemma lower_keeps_prefix (word s : string) :
  PyStr.lower word = word ->
  prefix word s = true -> prefix word (PyStr.lower s) = true.
Proof.
  revert s. induction word as [|c word IH]; intros s Hw H.
  - apply PyStrFacts.prefix_nil_l.
  - destruct s as [|d s]; [discriminate|].
    apply PyStrFacts.prefix_cons in H. destruct H as [<- H].
    cbn [PyStr.lower] in Hw |- *. injection Hw as Hc Hw.
    apply PyStrFacts.prefix_cons. split; [symmetry; exact Hc | now apply IH].
Qed.

(** A word in small letters that occurs in a text occurs in its
    lower-case form. *)
Lemma lower_keeps_contains (word s : string) :
  PyStr.lower word = word ->
  PyStr.contains word s = true -> PyStr.contains word (PyStr.lower s) = true.
Proof.
  intros Hw. induction s as [|c s IH]; intros H.
  - exact H.
  - cbn [PyStr.contains] in H. apply orb_true_iff in H. destruct H as [H | H].
    + apply PyStrFacts.contains_prefix. now apply lower_keeps_prefix.
    + cbn [PyStr.lower]. apply PyStrFacts.contains_cons. now apply IH.
Qed.

Lemma keywords_lower : Forall (fun word => PyStr.lower word = word) fallback_keywords.
Proof. repeat constructor. Qed.

Lemma slice_to_prefix (n : nat) (s : string) :
  prefix (PyStr.slice_to n s) s = true /\
  length (PyStr.slice_to n s) = Nat.min n (length s).
Proof.
  unfold PyStr.slice_to. revert s. induction n as [|n IH]; intros s.
  - destruct s; split; reflexivity.
  - destruct s as [|c s]; [split; reflexivity|].
    destruct (IH s) as (P & L). cbn [substring length Nat.min]. split.
    + apply PyStrFacts.prefix_cons. now split.
    + now rewrite L.
Qed.

Lemma identify_fallback_run (i : nat) (fd : Frame.t) response raw st w :
  text response = Ok raw ->
  identify_fallback C i fd response st w =
  if existsb (fun word => PyStr.contains word (PyStr.lower raw)) fallback_keywords
  then append_product C i (fallback_record fd raw) st w
  else (Ok tt, st, w).
Proof.
  intros Ht. unfold identify_fallback, bind, pure. rewrite Ht.
  destruct (existsb _ fallback_keywords); reflexivity.
Qed.

(** C5.  Take the round of the Detector for one frame in which the model
    replied with the text [raw].
    - If [raw] cannot be decoded and one of the keywords occurs in it, the
      round adds exactly one record: the name is the placeholder, the
      confidence is 0.6, the description is the first 200 characters of
      [raw] and the timestamp is that of the frame.
    - If [raw] cannot be decoded and no keyword occurs in its lower-case
      form, the round adds nothing.
    - If [raw] can be decoded, the round is that of the decoded value
      alone; with a decoded value that lists no candidate it changes
      nothing, whatever words occur in [raw]. *)
Theorem fallback_synthesis (i : nat) (fd : Frame.t) st w image w1 response w2 raw :
  Image_open C (Frame.image_path fd) w = (Ok image, w1) ->
  generate_content C DetectionPrompt image w1 = (Ok response, w2) ->
  text response = Ok raw ->
  (json_loads C raw = None ->
   (exists word, In word fallback_keywords /\ PyStr.contains word raw = true) ->
   out_of (identify_frame C (i, fd) st w) = Ok tt /\
   State.products (state_of (identify_frame C (i, fd) st w)) =
   (State.products st ++ [fallback_record fd raw])%list) /\
  (ProductInfo.name (fallback_record fd raw) = PStr "Detected Product" /\
   ProductInfo.confidence (fallback_record fd raw) = PFloat 0.6 /\
   ProductInfo.description (fallback_record fd raw) =
     PStr (PyStr.slice_to 200 raw) /\
   prefix (PyStr.slice_to 200 raw) raw = true /\
   length (PyStr.slice_to 200 raw) = Nat.min 200 (length raw) /\
   ProductInfo.timestamp (fallback_record fd raw) = Frame.timestamp fd) /\
  (json_loads C raw = None ->
   existsb (fun word => PyStr.contains word (PyStr.lower raw)) fallback_keywords
     = false ->
   identify_frame C (i, fd) st w = (Ok tt, st, w2)) /\
  (forall result,
      json_loads C raw = Some result ->
      identify_frame C (i, fd) st w = identify_parsed C i fd result st w2) /\
  (forall entries,
      json_loads C raw = Some (PDict entries) ->
      lookup "products" entries = Some (PList []) ->
      identify_frame C (i, fd) st w = (Ok tt, st, w2)).
Proof.
  intros Ho Hg Ht. split; [|split; [|split; [|split]]].
  - intros Hj (word & Hin & Hw).
    rewrite (identify_frame_unparsed _ _ _ _ _ _ _ _ _ Ho Hg Ht Hj).
    rewrite (identify_fallback_run _ _ _ _ _ _ Ht).
    assert (E : existsb (fun word => PyStr.contains word (PyStr.lower raw))
                  fallback_keywords = true).
    { apply existsb_exists. exists word. split; [exact Hin|].
      apply lower_keeps_contains; [|exact Hw].
      exact (proj1 (Forall_forall _ _) keywords_lower _ Hin). }
    rewrite E, append_product_run. split; reflexivity.
  - destruct (slice_to_prefix 200 raw) as (P & L). repeat split; assumption.
  - intros Hj E.
    rewrite (identify_frame_unparsed _ _ _ _ _ _ _ _ _ Ho Hg Ht Hj).
    rewrite (identify_fallback_run _ _ _ _ _ _ Ht). now rewrite E.
  - intros result Hj. exact (identify_frame_parsed _ _ _ _ _ _ _ _ _ _ Ho Hg Ht Hj).
  - intros entries Hj Hl.
    rewrite (identify_frame_parsed _ _ _ _ _ _ _ _ _ _ Ho Hg Ht Hj).
    now rewrite (identify_parsed_candidates _ _ _ _ _ _ Hl).
Qed.

End Detector.

(** A reply in plain words that names a phone. *)
Lemma fallback_synthesis_witness :
  let C := Demo.collaborators Demo.plain_words in
  let fd := Frame.mk 0 0 "output/frame_abc_0.jpg" [] in
  State.products (state_of (identify_frame C (0%nat, fd) (initial_state "u") tt)) =
  [ProductInfo.new (PStr "Detected Product") (PFloat 0.6)
     (PStr "I can see a phone on the desk") 0].
Proof.
  intros C fd.
  destruct (fallback_synthesis C 0 fd (initial_state "u") tt
              "output/frame_abc_0.jpg" tt
              {| text := Ok "I can see a phone on the desk" |} tt
              "I can see a phone on the desk" eq_refl eq_refl eq_refl)
    as (K & _).
  destruct K as (_ & E).
  - reflexivity.
  - exists "phone". split; [|reflexivity]. unfold fallback_keywords.
    do 8 right. left. reflexivity.
  - rewrite E. reflexivity.
Defined.

(** Three candidates of one frame: confidence 0.9 and a good frame,
    confidence 0.5 and a good frame, confidence 0.9 and a poor frame. *)
Lemma detector_acceptance_rule_witness :
  let C := Demo.collaborators Demo.ten_seconds in
  let fd := Frame.mk 120 4.0 "output/frame_abc_120.jpg" [] in
  let cand q g :=
    PDict [("name", PStr "Red Mug"); ("confidence", PFloat q);
           ("description", PStr "a mug"); ("is_good_frame", PBool g)] in
  State.products
    (state_of (for_each [cand 0.9 true; cand 0.5 true; cand 0.9 false]
                 (identify_candidate C 0 fd) (initial_state "u") tt)) =
  [ProductInfo.new (PStr "Red Mug") (PFloat 0.9) (PStr "a mug") 4.0].
Proof.
  intros C fd cand.
  destruct (detector_acceptance_rule C 0 fd) as (_ & K & _ & _ & _).
  destruct (K [cand 0.9 true; cand 0.5 true; cand 0.9 false]
              [Build_Candidate (PStr "Red Mug") 0.9 (PStr "a mug") true;
               Build_Candidate (PStr "Red Mug") 0.5 (PStr "a mug") true;
               Build_Candidate (PStr "Red Mug") 0.9 (PStr "a mug") false]
              (initial_state "u") tt) as (_ & E).
  - repeat constructor; eexists; (split; [reflexivity|]); repeat split; reflexivity.
  - rewrite E. reflexivity.
Defined.

(* ================================================================== *)
(** ** Lists updated in place *)

Section Lists.

Context {A : Type}.

Lemma nth_error_update_nth_same (f : A -> A) (l : list A) (j : nat) (x : A) :
  nth_error l j = Some x -> nth_error (update_nth j f l) j = Some (f x).
Proof.
  revert j. induction l as [|y l IH]; intros [|j] H; try discriminate.
  - injection H as ->. reflexivity.
  - cbn in *. now apply IH.
Qed.

Lemma nth_error_update_nth_other (f : A -> A) (l : list A) (k j : nat) :
  k <> j -> nth_error (update_nth k f l) j = nth_error l j.
Proof.
  revert k j. induction l as [|y l IH]; intros [|k] [|j] H; cbn; try reflexivity.
  - contradiction.
  - apply IH. lia.
Qed.

Lemma length_update_nth (f : A -> A) (l : list A) (k : nat) :
  List.length (update_nth k f l) = List.length l.
Proof.
  revert k. induction l as [|y l IH]; intros [|k]; cbn; auto.
Qed.

Lemma map_update_nth_same {B} (g : A -> B) (f : A -> A) (l : list A) (k : nat) :
  (forall x, g (f x) = g x) -> map g (update_nth k f l) = map g l.
Proof.
  intros H. revert k. induction l as [|y l IH]; intros [|k]; cbn;
    rewrite ?H, ?IH; reflexivity.
Qed.

Lemma Forall_update_nth (P : A -> Prop) (f : A -> A) (l : list A) (k : nat) :
  (forall x, P x -> P (f x)) -> Forall P l -> Forall P (update_nth k f l).
Proof.
  intros H Hl. revert k. induction Hl as [|y l Hy Hl IH]; intros [|k]; cbn;
    constructor; auto.
Qed.



End Lists.

(* ================================================================== *)
(** ** The Product Isolator *)

Section Isolator.

Context (C : Collaborators).

Local Open Scope Q_scope.

Lemma within_tolerance_lt (p : ProductInfo.t) (f : Frame.t) :
  within_tolerance p f = true <->
  Qabs (float_sub (Frame.timestamp f) (ProductInfo.timestamp p)) < 1.
Proof.
  unfold within_tolerance. rewrite Qltb_lt.
  assert (E : 1.0 == 1) by reflexivity. now rewrite E.
Qed.

Lemma within_tolerance_not (p : ProductInfo.t) (f : Frame.t) :
  within_tolerance p f = false <->
  ~ Qabs (float_sub (Frame.timestamp f) (ProductInfo.timestamp p)) < 1.
Proof.
  rewrite <- within_tolerance_lt.
  destruct (within_tolerance p f); intuition congruence.
Qed.



Lemma segment_product_unmatched (j : nat) p st w :
  nth_error (State.products st) j = Some p ->
  find_frame (State.frames st) p = None ->
  segment_product C j st w = (Ok tt, st, w).
Proof.
  intros Hp Hf. unfold segment_product. rewrite bind_gets, Hp, bind_gets, Hf.
  reflexivity.
Qed.



(** A round of the Isolator that found a frame and returned. *)
Lemma segment_product_matched (j : nat) p fd st w st' w' :
  nth_error (State.products st) j = Some p ->
  find_frame (State.frames st) p = Some fd ->
  segment_product C j st w = (Ok tt, st', w') ->
  exists name_,
    py_replace (ProductInfo.name p) " " "_" = Ok name_ /\
    st' =
    State.set_products
      (update_nth j
         (ProductInfo.set_frame_image_path
            (matched_frame_path (State.video_id st) fd))
         (update_nth j
            (ProductInfo.set_segmented_image_path
               (segmented_public_path name_ (ProductInfo.timestamp p)))
            (State.products st)))
      st.
Proof.
  intros Hp Hf H. unfold segment_product in H.
  rewrite bind_gets, Hp, bind_gets, Hf in H.
  apply bind_inv in H. destruct H as (image & s1 & w1 & H1 & H).
  apply call_inv in H1. destruct H1 as (_ & ->).
  apply bind_inv in H. destruct H as (response & s2 & w2 & H2 & H).
  apply call_inv in H2. destruct H2 as (_ & ->).
  apply bind_inv in H. destruct H as (name_ & s3 & w3 & H3 & H).
  apply pure_inv in H3. destruct H3 as (Hn & -> & ->).
  cbv zeta in H.
  apply bind_inv in H. destruct H as (u & s4 & w4 & H4 & H).
  apply call_inv in H4. destruct H4 as (_ & ->).
  apply bind_inv in H. destruct H as (u1 & s5 & w5 & H5 & H).
  unfold set_product in H5. apply modify_inv in H5. destruct H5 as (-> & ->).
  rewrite bind_gets in H. unfold set_product in H.
  apply modify_inv in H. destruct H as (-> & ->).
  exists name_. split; [exact Hn|]. reflexivity.
Qed.

(** The rounds for the other products leave a product, the frames and the
    video identifier alone. *)
Lemma segment_product_elsewhere (k j : nat) (q : ProductInfo.t)
    (F : list Frame.t) (V : string) :
  k <> j ->
  preserves (fun s => nth_error (State.products s) j = Some q /\
                      State.frames s = F /\ State.video_id s = V)
            (segment_product C k).
Proof.
  intros Hk. unfold segment_product, set_product.
  repeat step_preserves;
    intros s (Hq & HF & HV);
    cbn [State.products State.frames State.video_id State.set_products];
    rewrite ?nth_error_update_nth_other by exact Hk; auto.
Qed.

Lemma segment_rounds_elsewhere (l : list nat) (j : nat) (q : ProductInfo.t)
    st w o st' w' :
  ~ In j l ->
  for_each l (segment_product C) st w = (o, st', w') ->
  nth_error (State.products st) j = Some q ->
  nth_error (State.products st') j = Some q /\
  State.frames st' = State.frames st /\ State.video_id st' = State.video_id st.
Proof.
  intros Hj H Hq.
  refine (preserves_run
            (fun s => nth_error (State.products s) j = Some q /\
                      State.frames s = State.frames st /\
                      State.video_id s = State.video_id st)
            _ _ _ _ _ _ _ H (conj Hq (conj eq_refl eq_refl))).
  apply preserves_for_each. intros k Hk.
  apply segment_product_elsewhere. intros ->. contradiction.
Qed.

(** A stage that returned has recorded, for a product with a frame that
    passes, the path of the frame that was found. *)
Lemma segment_stage_matched (j : nat) p f st w st' w' :
  nth_error (State.products st) j = Some p ->
  find_frame (State.frames st) p = Some f ->
  segment_products_body C st w = (Ok tt, st', w') ->
  exists p',
    nth_error (State.products st') j = Some p' /\
    ProductInfo.frame_image_path p' = matched_frame_path (State.video_id st) f /\
    ProductInfo.segmented_image_path p' <> "".
Proof.
  intros Hp Hf H.
  unfold segment_products_body in H. rewrite bind_gets in H.
  assert (Hj : (j < List.length (State.products st))%nat).
  { apply nth_error_Some. congruence. }
  destruct (for_each_seq_at _ _ _ _ _ _ _ Hj H)
    as (s1 & w1 & s2 & w2 & H1 & H2 & H3).
  assert (N1 : ~ In j (seq 0 j)) by (rewrite in_seq; lia).
  assert (N2 : ~ In j (seq (S j) (List.length (State.products st) - S j)))
    by (rewrite in_seq; lia).
  destruct (segment_rounds_elsewhere _ j p _ _ _ _ _ N1 H1 Hp) as (P1 & F1 & V1).
  rewrite <- F1 in Hf.
  destruct (segment_product_matched _ _ _ _ _ _ _ P1 Hf H2) as (name_ & Hn & ->).
  match type of H3 with for_each _ _ ?s _ = _ =>
    destruct (segment_rounds_elsewhere _ j
                (ProductInfo.set_frame_image_path
                   (matched_frame_path (State.video_id s1) f)
                   (ProductInfo.set_segmented_image_path
                      (segmented_public_path name_ (ProductInfo.timestamp p)) p))
                s _ _ _ _ N2 H3) as (P3 & _)
  end.
  { cbn [State.products State.set_products].
    apply nth_error_update_nth_same, nth_error_update_nth_same, P1. }
  eexists. split; [exact P3|]. rewrite V1. split; [reflexivity|].
  cbn. discriminate.
Qed.


End Isolator.



(* ================================================================== *)
(** ** From the Detector to the Isolator *)

Section Correlation.

Context (C : Collaborators).

Local Open Scope Q_scope.

Lemma within_tolerance_same (p : ProductInfo.t) (f : Frame.t) :
  ProductInfo.timestamp p = Frame.timestamp f -> within_tolerance p f = true.
Proof.
  intros E. apply within_tolerance_lt. rewrite E. unfold float_sub.
  rewrite FloatFacts.nearest_double_zero by ring. reflexivity.
Qed.

Lemma find_frame_same (frames : list Frame.t) (p : ProductInfo.t) :
  (exists f, In f frames /\ ProductInfo.timestamp p = Frame.timestamp f) ->
  find_frame frames p <> None.
Proof.
  intros (f & Hin & E) H. unfold find_frame in H.
  pose proof (find_none _ _ H f Hin) as K.
  rewrite (within_tolerance_same _ _ E) in K. discriminate.
Qed.

Lemma detected_since_refl (T : Q -> Prop) (st : State.t) : detected_since T st st.
Proof.
  split; [reflexivity|]. exists []. split; [now rewrite app_nil_r | constructor].
Qed.

Lemma detected_since_append (T : Q -> Prop) (st0 s : State.t) (p : ProductInfo.t) :
  T (ProductInfo.timestamp p) ->
  detected_since T st0 s ->
  detected_since T st0 (State.set_products (State.products s ++ [p])%list s).
Proof.
  intros Hp (HF & new & E & Hnew). split; [exact HF|].
  exists (new ++ [p])%list. cbn [State.products State.set_products].
  rewrite E, <- app_assoc. split; [reflexivity|].
  apply Forall_app. split; [exact Hnew | now constructor].
Qed.

Lemma detected_since_refer (T : Q -> Prop) (st0 s : State.t) (i ref : nat) :
  detected_since T st0 s ->
  detected_since T st0
    (State.set_frames
       (update_nth i (Frame.append_products_detected ref) (State.frames s)) s).
Proof.
  intros (HF & Hnew). split; [|exact Hnew].
  cbn [State.frames State.set_frames].
  rewrite map_update_nth_same; [exact HF | reflexivity].
Qed.

(** The round of the Detector for a frame adds only products that carry
    the timestamp of that frame. *)
Lemma identify_frame_detected (T : Q -> Prop) (st0 : State.t) (i : nat)
    (fd : Frame.t) :
  T (Frame.timestamp fd) ->
  preserves (detected_since T st0) (identify_frame C (i, fd)).
Proof.
  intros HT.
  unfold identify_frame, identify_parsed, identify_candidate, identify_fallback,
    append_product.
  repeat step_preserves; intros s Hs;
    first [ apply detected_since_refer; exact Hs
          | apply detected_since_append; [exact HT | exact Hs] ].
Qed.

Lemma enumerate_In {A} (l : list A) (i : nat) (x : A) :
  In (i, x) (enumerate l) -> In x l.
Proof. unfold enumerate. apply in_combine_r. Qed.

(** C10.  In the round for a frame, every product the Detector adds, by
    the decoded reply or by the fallback, carries the timestamp of that
    frame.  After the whole stage, raised or not, the frames are those it
    started with apart from the products seen in them, and every product
    it added has the timestamp of one of them; hence the Isolator finds a
    frame for it. *)
Theorem detected_products_have_a_frame :
  (forall i fd st w,
      exists new,
        State.products (state_of (identify_frame C (i, fd) st w)) =
        (State.products st ++ new)%list /\
        Forall (fun p => ProductInfo.timestamp p = Frame.timestamp fd) new) /\
  (forall st w,
      map frame_key (State.frames (fst (_identify_products C st w))) =
      map frame_key (State.frames st) /\
      exists new,
        State.products (fst (_identify_products C st w)) =
        (State.products st ++ new)%list /\
        Forall (fun p =>
                  (exists f, In f (State.frames (fst (_identify_products C st w))) /\
                             ProductInfo.timestamp p = Frame.timestamp f) /\
                  find_frame (State.frames (fst (_identify_products C st w))) p
                  <> None)
               new) /\
  (forall st w st1 w1 st2 w2 j,
      _identify_products C st w = (st1, w1) ->
      segment_products_body C st1 w1 = (Ok tt, st2, w2) ->
      (List.length (State.products st) <= j < List.length (State.products st1))%nat ->
      exists p',
        nth_error (State.products st2) j = Some p' /\
        ProductInfo.segmented_image_path p' <> "").
Proof.
  assert (A2 : forall st w,
      map frame_key (State.frames (fst (_identify_products C st w))) =
      map frame_key (State.frames st) /\
      exists new,
        State.products (fst (_identify_products C st w)) =
        (State.products st ++ new)%list /\
        Forall (fun p =>
                  (exists f, In f (State.frames (fst (_identify_products C st w))) /\
                             ProductInfo.timestamp p = Frame.timestamp f) /\
                  find_frame (State.frames (fst (_identify_products C st w))) p
                  <> None)
               new); [|split; [|split; [exact A2|]]].
  3: { intros st w st1 w1 st2 w2 j Hd Hs Hj.
       destruct (A2 st w) as (_ & new & E & Hnew). rewrite Hd in E, Hnew.
       cbn [fst] in E, Hnew.
       destruct (nth_error (State.products st1) j) as [p|] eqn:Ep;
         [|apply nth_error_None in Ep; lia].
       assert (Hin : In p new).
       { rewrite E, nth_error_app2 in Ep by lia. exact (nth_error_In _ _ Ep). }
       destruct (proj1 (Forall_forall _ _) Hnew p Hin) as (_ & Hf).
       destruct (find_frame (State.frames st1) p) as [f|] eqn:Ef; [|contradiction].
       destruct (segment_stage_matched C j p f st1 w1 st2 w2 Ep Ef Hs)
         as (p' & Hp' & _ & Hseg).
       exists p'. split; assumption. }
  2: { intros i fd st w.
       exact (proj2 (identify_frame_detected (fun t => t = Frame.timestamp fd)
                       st i fd eq_refl st w (detected_since_refl _ st))). }
  - intros st w.
    assert (K : detected_since
                  (fun t => exists f, In f (State.frames st) /\ t = Frame.timestamp f)
                  st (fst (_identify_products C st w))).
    { assert (B : detected_since
                    (fun t => exists f, In f (State.frames st) /\ t = Frame.timestamp f)
                    st (state_of (identify_products_body C st w))).
      { unfold identify_products_body. rewrite bind_gets.
        apply preserves_for_each; [|apply detected_since_refl].
        intros [i fd] Hin. apply identify_frame_detected.
        exists fd. split; [exact (enumerate_In _ _ _ Hin) | reflexivity]. }
      unfold _identify_products, try_stage. unfold state_of in B.
      destruct (identify_products_body C st w) as [[[u|e] s1] w1]; exact B. }
    destruct K as (HF & new & E & Hnew). split; [exact HF|].
    exists new. split; [exact E|].
    eapply Forall_impl; [|exact Hnew]. cbv beta. intros p (f & Hin & Ht).
    assert (X : exists f', In f' (State.frames (fst (_identify_products C st w))) /\
                           ProductInfo.timestamp p = Frame.timestamp f').
    { assert (Hk : In (frame_key f) (map frame_key (State.frames st)))
        by now apply in_map.
      rewrite <- HF in Hk. apply in_map_iff in Hk.
      destruct Hk as (f' & Ek & Hin'). exists f'. split; [exact Hin'|].
      rewrite Ht. unfold frame_key in Ek. now injection Ek. }
    split; [exact X | now apply find_frame_same].
Qed.

End Correlation.

(** The ten-second video: the product the Detector adds is isolated by
    the stage that follows. *)
Lemma detected_products_have_a_frame_witness :
  let C := Demo.collaborators Demo.ten_seconds in
  let st :=
    fst (invoke C [_extract_video C; _extract_frames C]
           (initial_state "https://youtu.be/abc") tt) in
  let st1 := fst (_identify_products C st tt) in
  exists p',
    nth_error (State.products (state_of (segment_products_body C st1 tt))) 0
    = Some p' /\
    ProductInfo.segmented_image_path p' <> "".
Proof.
  intros C st st1.
  destruct (detected_products_have_a_frame C) as (_ & _ & K).
  refine (K st tt st1 tt (state_of (segment_products_body C st1 tt)) tt 0%nat _ _ _).
  - vm_compute. reflexivity.
  - vm_compute. reflexivity.
  - vm_compute. lia.
Defined.

(* ================================================================== *)
(** ** The Product Enhancer *)

Section Enhancer.

Context (C : Collaborators).

Lemma enhance_product_skipped (j : nat) p st w :
  nth_error (State.products st) j = Some p ->
  ProductInfo.segmented_image_path p = "" ->
  enhance_product C j st w = (Ok tt, st, w).
Proof.
  intros Hp Hs. unfold enhance_product. rewrite bind_gets, Hp.
  cbn [truthy]. rewrite Hs. reflexivity.
Qed.

Lemma enhance_product_out_of_range (j : nat) st w :
  nth_error (State.products st) j = None ->
  enhance_product C j st w = (Ok tt, st, w).
Proof.
  intros Hp. unfold enhance_product. rewrite bind_gets, Hp. reflexivity.
Qed.

(** One round of the loop over the styles that returned. *)
Lemma enhance_style_ok (p : ProductInfo.t) (image : PILImage C)
    (acc : list string) (i : nat) (style : string) st w acc' st' w' :
  enhance_style C p image acc (i, style) st w = (Ok acc', st', w') ->
  exists name_,
    py_replace (ProductInfo.name p) " " "_" = Ok name_ /\
    acc' = (acc ++ [("/output/" ++ enhanced_stem name_ i (ProductInfo.timestamp p))%string])%list /\
    st' = st.
Proof.
  intros H. unfold enhance_style in H.
  apply bind_inv in H. destruct H as (response & s1 & w1 & H1 & H).
  apply call_inv in H1. destruct H1 as (_ & ->).
  apply bind_inv in H. destruct H as (name_ & s2 & w2 & H2 & H).
  apply pure_inv in H2. destruct H2 as (Hn & -> & ->).
  cbv zeta in H.
  apply bind_inv in H. destruct H as (u & s3 & w3 & H3 & H).
  apply call_inv in H3. destruct H3 as (_ & ->).
  apply ret_inv in H. destruct H as (-> & -> & _).
  exists name_. auto.
Qed.

(** A round of the Enhancer for an isolated product that returned. *)
Lemma enhance_product_rendered (j : nat) p st w st' w' :
  nth_error (State.products st) j = Some p ->
  ProductInfo.segmented_image_path p <> "" ->
  enhance_product C j st w = (Ok tt, st', w') ->
  exists name_,
    py_replace (ProductInfo.name p) " " "_" = Ok name_ /\
    st' =
    State.set_products
      (update_nth j
         (ProductInfo.set_enhanced_images
            (three_renders name_ (ProductInfo.timestamp p)))
         (State.products st))
      st.
Proof.
  intros Hp Hs H. unfold enhance_product in H. rewrite bind_gets, Hp in H.
  cbn [truthy] in H.
  rewrite (proj2 (String.eqb_neq _ _) Hs) in H. cbn [negb] in H. cbv zeta in H.
  apply bind_inv in H. destruct H as (image & s1 & w1 & H1 & H).
  apply call_inv in H1. destruct H1 as (_ & ->).
  apply bind_inv in H. destruct H as (imgs & s2 & w2 & H2 & H).
  unfold set_product in H. apply modify_inv in H. destruct H as (-> & ->).
  change (enumerate styles)
    with [(0%nat, nth 0 styles ""); (1%nat, nth 1 styles "");
          (2%nat, nth 2 styles "")] in H2.
  cbn [for_fold] in H2.
  apply bind_inv in H2. destruct H2 as (a1 & t1 & v1 & R1 & H2).
  apply enhance_style_ok in R1. destruct R1 as (n1 & N1 & -> & ->).
  apply bind_inv in H2. destruct H2 as (a2 & t2 & v2 & R2 & H2).
  apply enhance_style_ok in R2. destruct R2 as (n2 & N2 & -> & ->).
  apply bind_inv in H2. destruct H2 as (a3 & t3 & v3 & R3 & H2).
  apply enhance_style_ok in R3. destruct R3 as (n3 & N3 & -> & ->).
  apply ret_inv in H2. destruct H2 as (-> & -> & _).
  assert (n2 = n1) by congruence. assert (n3 = n1) by congruence. subst n2 n3.
  exists n1. split; [exact N1 | reflexivity].
Qed.

Lemma enhance_product_elsewhere (k j : nat) (q : ProductInfo.t) :
  k <> j ->
  preserves (fun s => nth_error (State.products s) j = Some q)
            (enhance_product C k).
Proof.
  intros Hk. unfold enhance_product, enhance_style, set_product.
  repeat step_preserves;
    intros s Hq; cbn [State.products State.set_products];
    rewrite ?nth_error_update_nth_other by exact Hk; auto.
Qed.

Lemma enhance_rounds_elsewhere (l : list nat) (j : nat) (q : ProductInfo.t)
    st w o st' w' :
  ~ In j l ->
  for_each l (enhance_product C) st w = (o, st', w') ->
  nth_error (State.products st) j = Some q ->
  nth_error (State.products st') j = Some q.
Proof.
  intros Hj H Hq.
  refine (preserves_run (fun s => nth_error (State.products s) j = Some q)
            _ _ _ _ _ _ _ H Hq).
  apply preserves_for_each. intros k Hk.
  apply enhance_product_elsewhere. intros ->. contradiction.
Qed.

(** What a stage that returned has done to the product at a position. *)
Lemma enhance_stage_at (j : nat) p st w st' w' :
  enhance_products_body C st w = (Ok tt, st', w') ->
  nth_error (State.products st) j = Some p ->
  (ProductInfo.segmented_image_path p = "" ->
   nth_error (State.products st') j = Some p) /\
  (ProductInfo.segmented_image_path p <> "" ->
   exists name_,
     py_replace (ProductInfo.name p) " " "_" = Ok name_ /\
     nth_error (State.products st') j =
     Some (ProductInfo.set_enhanced_images
             (three_renders name_ (ProductInfo.timestamp p)) p)).
Proof.
  intros H Hp. unfold enhance_products_body in H. rewrite bind_gets in H.
  assert (Hj : (j < List.length (State.products st))%nat).
  { apply nth_error_Some. congruence. }
  destruct (for_each_seq_at _ _ _ _ _ _ _ Hj H)
    as (s1 & w1 & s2 & w2 & H1 & H2 & H3).
  assert (N1 : ~ In j (seq 0 j)) by (rewrite in_seq; lia).
  assert (N2 : ~ In j (seq (S j) (List.length (State.products st) - S j)))
    by (rewrite in_seq; lia).
  pose proof (enhance_rounds_elsewhere _ j p _ _ _ _ _ N1 H1 Hp) as P1.
  split.
  - intros Hs. rewrite (enhance_product_skipped _ _ _ _ P1 Hs) in H2.
    injection H2 as <- <-.
    exact (enhance_rounds_elsewhere _ j p _ _ _ _ _ N2 H3 P1).
  - intros Hs.
    destruct (enhance_product_rendered _ _ _ _ _ _ P1 Hs H2) as (name_ & Hn & ->).
    exists name_. split; [exact Hn|].
    refine (enhance_rounds_elsewhere _ j _ _ _ _ _ _ N2 H3 _).
    cbn [State.products State.set_products].
    now apply nth_error_update_nth_same.
Qed.

(** *** Products enter the Enhancer without a render *)

Lemma first_four_unrendered :
  Forall (fun lb : string * M C unit => preserves unrendered (snd lb))
         (firstn 4 (stage_bodies C)).
Proof.
  unfold stage_bodies. cbn [firstn].
  repeat (apply Forall_cons; [|]); try apply Forall_nil; cbn [snd];
    unfold extract_video_body, extract_frames_body, identify_products_body,
      segment_products_body, read_frame, identify_frame,
      identify_parsed, identify_candidate, identify_fallback, append_product,
      segment_product, set_product;
    repeat step_preserves; intros s Hs; unfold unrendered in *;
    cbn [State.products State.set_video_id State.set_video_path
         State.set_frames State.set_products];
    first [ exact Hs
          | apply Forall_app; split; [exact Hs | now repeat constructor]
          | apply Forall_update_nth; [intros ? Hkeep; exact Hkeep | exact Hs] ].
Qed.

Lemma try_stage_unrendered (label : string) (body : M C unit) st w :
  preserves unrendered body -> unrendered st ->
  unrendered (fst (try_stage C label body st w)).
Proof.
  intros Hb Hst. specialize (Hb st w Hst). unfold try_stage, state_of in *.
  destruct (body st w) as [[[u|e] s1] w1]; exact Hb.
Qed.

Lemma before_enhancer_unrendered (url : string) (w : World C) :
  unrendered
    (fst (invoke C [_extract_video C; _extract_frames C; _identify_products C;
                    _segment_products C] (initial_state url) w)).
Proof.
  pose proof first_four_unrendered as F. unfold stage_bodies in F. cbn [firstn] in F.
  inversion F as [|? ? F1 G1]; subst. inversion G1 as [|? ? F2 G2]; subst.
  inversion G2 as [|? ? F3 G3]; subst. inversion G3 as [|? ? F4 _]; subst.
  cbn [snd] in *. cbn [invoke].
  assert (U0 : unrendered (initial_state url)) by constructor.
  pose proof (try_stage_unrendered "Video extraction failed: " _ _ w F1 U0) as U1.
  fold (_extract_video C) in U1.
  destruct (_extract_video C (initial_state url) w) as [s1 w1]. cbn [fst] in U1.
  pose proof (try_stage_unrendered "Frame extraction failed: " _ _ w1 F2 U1) as U2.
  fold (_extract_frames C) in U2.
  destruct (_extract_frames C s1 w1) as [s2 w2]. cbn [fst] in U2.
  pose proof (try_stage_unrendered "Product identification failed: " _ _ w2 F3 U2) as U3.
  fold (_identify_products C) in U3.
  destruct (_identify_products C s2 w2) as [s3 w3]. cbn [fst] in U3.
  pose proof (try_stage_unrendered "Product segmentation failed: " _ _ w3 F4 U3) as U4.
  fold (_segment_products C) in U4.
  destruct (_segment_products C s3 w3) as [s4 w4]. exact U4.
Qed.

(** C7.  Let the Enhancer return without raising.  The product at each
    position keeps its isolated image path; if that path is not empty its
    renders are now exactly the three public paths of the styles 1, 2 and
    3, in this order; if that path is empty the product is left as it was,
    which means without any render for a product that came through the
    first four stages of a run. *)
Theorem enhancer_three_or_none :
  (forall st w st' w' j p,
      enhance_products_body C st w = (Ok tt, st', w') ->
      nth_error (State.products st) j = Some p ->
      exists p',
        nth_error (State.products st') j = Some p' /\
        ProductInfo.segmented_image_path p' = ProductInfo.segmented_image_path p /\
        (ProductInfo.segmented_image_path p <> "" ->
         List.length (ProductInfo.enhanced_images p') = 3%nat /\
         exists name_,
           py_replace (ProductInfo.name p) " " "_" = Ok name_ /\
           ProductInfo.enhanced_images p' =
           three_renders name_ (ProductInfo.timestamp p)) /\
        (ProductInfo.segmented_image_path p = "" -> p' = p)) /\
  (forall url w st w1 st' w',
      invoke C [_extract_video C; _extract_frames C; _identify_products C;
                _segment_products C] (initial_state url) w = (st, w1) ->
      enhance_products_body C st w1 = (Ok tt, st', w') ->
      List.length (State.products st') = List.length (State.products st) /\
      Forall (fun p' =>
                (ProductInfo.segmented_image_path p' <> "" ->
                 List.length (ProductInfo.enhanced_images p') = 3%nat) /\
                (ProductInfo.segmented_image_path p' = "" ->
                 List.length (ProductInfo.enhanced_images p') = 0%nat))
             (State.products st')).
Proof.
  assert (A : forall st w st' w' j p,
      enhance_products_body C st w = (Ok tt, st', w') ->
      nth_error (State.products st) j = Some p ->
      exists p',
        nth_error (State.products st') j = Some p' /\
        ProductInfo.segmented_image_path p' = ProductInfo.segmented_image_path p /\
        (ProductInfo.segmented_image_path p <> "" ->
         List.length (ProductInfo.enhanced_images p') = 3%nat /\
         exists name_,
           py_replace (ProductInfo.name p) " " "_" = Ok name_ /\
           ProductInfo.enhanced_images p' =
           three_renders name_ (ProductInfo.timestamp p)) /\
        (ProductInfo.segmented_image_path p = "" -> p' = p)).
  { intros st w st' w' j p H Hp.
    destruct (enhance_stage_at j p st w st' w' H Hp) as (K0 & K3).
    destruct (string_dec (ProductInfo.segmented_image_path p) "") as [E|N].
    - exists p. split; [exact (K0 E)|]. split; [reflexivity|].
      split; [intros X; contradiction | reflexivity].
    - destruct (K3 N) as (name_ & Hn & Hj).
      eexists. split; [exact Hj|]. split; [reflexivity|]. split.
      + intros _. split; [reflexivity|]. exists name_. now split.
      + intros X. contradiction. }
  split; [exact A|].
  intros url w st w1 st' w' Hrun H.
  pose proof (before_enhancer_unrendered url w) as U. rewrite Hrun in U. cbn [fst] in U.
  assert (L : List.length (State.products st') = List.length (State.products st)).
  { refine (preserves_run
              (fun s => List.length (State.products s) = List.length (State.products st))
              _ _ _ _ _ _ _ H eq_refl).
    unfold enhance_products_body, enhance_product, enhance_style, set_product.
    repeat step_preserves; intros s Hs; cbn [State.products State.set_products];
      now rewrite length_update_nth. }
  split; [exact L|].
  apply Forall_forall. intros p' Hin.
  destruct (In_nth_error _ _ Hin) as (j & Hj).
  assert (Hlt : (j < List.length (State.products st))%nat).
  { rewrite <- L. apply nth_error_Some. congruence. }
  destruct (nth_error (State.products st) j) as [p|] eqn:Ep;
    [|apply nth_error_None in Ep; lia].
  destruct (A _ _ _ _ _ _ H Ep) as (q & Hq & Hseg & H3 & H0).
  assert (q = p') by congruence. subst q.
  pose proof (proj1 (Forall_forall _ _) U p (nth_error_In _ _ Ep)) as Up.
  rewrite Hseg. split.
  - intros N. exact (proj1 (H3 N)).
  - intros E. rewrite (H0 E), Up. reflexivity.
Qed.

End Enhancer.

(** The ten-second video: the one product has an isolated image and gets
    its three renders. *)
Lemma enhancer_three_or_none_witness :
  let C := Demo.collaborators Demo.ten_seconds in
  let st :=
    fst (invoke C [_extract_video C; _extract_frames C; _identify_products C;
                   _segment_products C] (initial_state "https://youtu.be/abc") tt) in
  Forall (fun p' =>
            (ProductInfo.segmented_image_path p' <> "" ->
             List.length (ProductInfo.enhanced_images p') = 3%nat) /\
            (ProductInfo.segmented_image_path p' = "" ->
             List.length (ProductInfo.enhanced_images p') = 0%nat))
         (State.products (state_of (enhance_products_body C st tt))).
Proof.
  intros C st.
  destruct (enhancer_three_or_none C) as (_ & K).
  refine (proj2 (K "https://youtu.be/abc" tt st tt
                   (state_of (enhance_products_body C st tt)) tt _ _)).
  - vm_compute. reflexivity.
  - vm_compute. reflexivity.
Defined.

(* ================================================================== *)
(** ** A whole run *)

(** The scenario of the specification: a ten-second video at 30 frames
    per second in which one sampled frame shows a product with confidence
    0.9.  The run returns exactly one product, isolated and with exactly
    three renders. *)
Example ten_second_run :
  fst (process_video (Demo.collaborators Demo.ten_seconds)
         "https://youtu.be/abc" tt) =
  Completed
    [ProductInfo.mk (PStr "Red Mug") (PFloat 0.9) (PStr "a mug") 4
       "/output/frame_abc_120.jpg" "/output/segmented_Red_Mug_4.jpg"
       ["/output/enhanced_Red_Mug_1_4.jpg"; "/output/enhanced_Red_Mug_2_4.jpg";
        "/output/enhanced_Red_Mug_3_4.jpg"]]
    "Successfully processed video and found 1 products".
Proof. vm_compute. reflexivity. Qed.

(** The run in which the model raises at the second frame ends with the
    error of the Detector, although the two later stages did their work. *)
Example failed_run :
  fst (process_video (Demo.collaborators Demo.quota_runs_out)
         "https://youtu.be/abc" tt) =
  Failed "Product identification failed: quota exceeded".
Proof. vm_compute. reflexivity. Qed.

(** The stream at 0.9 frames per second: the product seen in the frame
    with index 9 carries the timestamp 10, the double nearest to the
    quotient, and the names of its images are made from it. *)
Example slow_stream_run :
  fst (process_video (Demo.collaborators Demo.nine_tenths)
         "https://youtu.be/abc" tt) =
  Completed
    [ProductInfo.mk (PStr "Red Mug") (PFloat 0.9) (PStr "a mug") 10
       "/output/frame_abc_9.jpg" "/output/segmented_Red_Mug_10.jpg"
       ["/output/enhanced_Red_Mug_1_10.jpg"; "/output/enhanced_Red_Mug_2_10.jpg";
        "/output/enhanced_Red_Mug_3_10.jpg"]]
    "Successfully processed video and found 1 products".
Proof. vm_compute. reflexivity. Qed.

(* ================================================================== *)
(** ** Durations in [backend/main.py] *)

Module MainFacts.
Import Main.

Lemma span_digits_run (digits : string) (c : ascii) (rest : string) :
  all_digits digits = true -> is_digit c = false ->
  span_digits (digits ++ String c rest) = (digits, String c rest).
Proof.
  intros Hd Hc. induction digits as [|d digits IH].
  - cbn [append span_digits]. now rewrite Hc.
  - cbn [all_digits] in Hd. apply andb_true_iff in Hd. destruct Hd as [H1 H2].
    cbn [append span_digits]. now rewrite H1, (IH H2).
Qed.

Lemma re_search_hit (unit : ascii) (digits rest : string) :
  all_digits digits = true -> digits <> "" -> is_digit unit = false ->
  re_search unit (digits ++ String unit rest) = Some digits.
Proof.
  intros Hd Hn Hu. destruct digits as [|d digits]; [contradiction|].
  change (String d digits ++ String unit rest)
    with (String d (digits ++ String unit rest)).
  cbn [re_search]. unfold match_here.
  change (String d (digits ++ String unit rest))
    with (String d digits ++ String unit rest).
  rewrite (span_digits_run _ _ _ Hd Hu). now rewrite Ascii.eqb_refl.
Qed.

Lemma re_search_skip (unit x : ascii) (digits rest : string) :
  all_digits digits = true -> is_digit x = false -> x <> unit ->
  re_search unit (digits ++ String x rest) = re_search unit rest.
Proof.
  intros Hd Hx Hne. induction digits as [|d digits IH].
  - cbn [append re_search]. unfold match_here. cbn [span_digits].
    now rewrite Hx.
  - cbn [all_digits] in Hd. apply andb_true_iff in Hd. destruct Hd as [H1 H2].
    change (String d digits ++ String x rest)
      with (String d (digits ++ String x rest)).
    cbn [re_search]. unfold match_here at 1.
    change (String d (digits ++ String x rest))
      with (String d digits ++ String x rest).
    rewrite (span_digits_run (String d digits) x rest); cbn [all_digits];
      [|now rewrite H1, H2 | exact Hx].
    rewrite (proj2 (Ascii.eqb_neq _ _) Hne). exact (IH H2).
Qed.

(** *** The decimal writing of a number *)

Lemma uint_all_digits (d : Decimal.uint) :
  all_digits (NilEmpty.string_of_uint d) = true.
Proof. induction d; cbn; auto. Qed.

Lemma written_all_digits (n : N) : all_digits (PyStr.of_int (Z.of_N n)) = true.
Proof.
  unfold PyStr.of_int. destruct n as [|p]; [reflexivity|].
  cbn [Z.of_N Z.to_int NilZero.string_of_int]. unfold NilZero.string_of_uint.
  destruct (Pos.to_uint p) eqn:E; try reflexivity; rewrite <- E;
    apply uint_all_digits.
Qed.

Lemma uint_written_nonempty (d : Decimal.uint) : NilZero.string_of_uint d <> "".
Proof. destruct d; discriminate. Qed.

Lemma written_nonempty (n : N) : PyStr.of_int (Z.of_N n) <> "".
Proof.
  unfold PyStr.of_int. destruct n as [|p]; [discriminate|].
  cbn [Z.of_N Z.to_int NilZero.string_of_int]. apply uint_written_nonempty.
Qed.

(** Reading back what [str] wrote. *)
Lemma int_of_written (n : N) : int_of_digits (PyStr.of_int (Z.of_N n)) = Z.of_N n.
Proof.
  unfold PyStr.of_int, int_of_digits.
  pose proof (DecimalZ.of_to (Z.of_N n)) as R.
  destruct n as [|p]; [reflexivity|].
  cbn [Z.of_N Z.to_int NilZero.string_of_int] in *. unfold Z.of_int in R.
  unfold NilZero.string_of_uint.
  destruct (Pos.to_uint p) eqn:E;
    try (rewrite <- E, NilEmpty.usu, E; exact R).
  cbn in R |- *. exact R.
Qed.

Lemma slice_from_written (n : N) :
  exists c digits,
    PyStr.of_int (Z.of_N n) = String c digits /\ all_digits digits = true.
Proof.
  pose proof (written_all_digits n) as A. pose proof (written_nonempty n) as E.
  destruct (PyStr.of_int (Z.of_N n)) as [|c digits]; [contradiction|].
  cbn [all_digits] in A. apply andb_true_iff in A. exists c, digits. now split.
Qed.

Ltac search_components :=
  repeat first
    [ rewrite re_search_hit
        by first [apply written_all_digits | apply written_nonempty | reflexivity]
    | rewrite re_search_skip
        by first [apply written_all_digits | reflexivity | discriminate] ].

(** X1.  A duration written as [PT], then the hours with [H], the minutes
    with [M] and the seconds with [S], each of the three present or not
    and none written with more digits than [int] accepts, is parsed into
    the hours times 3600 plus the minutes times 60 plus the seconds; a
    component that is absent counts for nothing. *)
Theorem parse_iso_duration_components (h m s : option N) :
  within_digit_limit h -> within_digit_limit m -> within_digit_limit s ->
  parse_iso_duration
    ("PT" ++ component h "H" ++ component m "M" ++ component s "S") =
  (amount h * 3600 + amount m * 60 + amount s)%Z.
Proof.
  intros _ _ _. unfold parse_iso_duration.
  change (slice_from 2 ("PT" ++ component h "H" ++ component m "M" ++ component s "S"))
    with (component h "H" ++ component m "M" ++ component s "S").
  destruct h as [h|], m as [m|], s as [s|]; cbn [component amount append];
    rewrite ?PyStrFacts.app_assoc_s; cbn [append];
    search_components; cbn [re_search match_here span_digits];
    rewrite ?int_of_written; lia.
Qed.

(** One hour, two minutes and three seconds. *)
Lemma parse_iso_duration_components_witness :
  parse_iso_duration "PT1H2M3S" = 3723%Z.
Proof.
  refine (parse_iso_duration_components (Some 1%N) (Some 2%N) (Some 3%N) _ _ _);
    unfold within_digit_limit, max_str_digits; cbn; lia.
Defined.

(** X2.  The days of a duration are not counted: a duration with a date
    part [P<days>D] in front of the time part is parsed into the same
    number of seconds as the time part alone. *)
Theorem parse_iso_duration_drops_days (days : N) (time : string) :
  parse_iso_duration ("P" ++ PyStr.of_int (Z.of_N days) ++ "DT" ++ time) =
  parse_iso_duration ("PT" ++ time).
Proof.
  unfold parse_iso_duration.
  destruct (slice_from_written days) as (c & digits & -> & Hd).
  change (slice_from 2 ("P" ++ String c digits ++ "DT" ++ time))
    with (digits ++ String "D" (String "T" time)).
  change (slice_from 2 ("PT" ++ time)) with time.
  assert (K : forall unit,
             is_digit unit = false -> "D"%char <> unit -> "T"%char <> unit ->
             re_search unit (digits ++ String "D" (String "T" time)) =
             re_search unit time).
  { intros unit Hu HD HT.
    rewrite (re_search_skip unit "D" digits _ Hd eq_refl HD).
    exact (re_search_skip unit "T" "" time eq_refl eq_refl HT). }
  rewrite !K by first [reflexivity | discriminate]. reflexivity.
Qed.

(** *** The display of a duration *)

Lemma pad2_two_digits (n : Z) : (0 <= n < 100)%Z -> pad2 n = two_digits n.
Proof.
  intros Hn.
  assert (A : forallb (fun k => (pad2 (Z.of_nat k) =? two_digits (Z.of_nat k))%string)
                (seq 0 100) = true) by (vm_compute; reflexivity).
  rewrite forallb_forall in A.
  specialize (A (Z.to_nat n)). rewrite Z2Nat.id in A by lia.
  apply String.eqb_eq, A, in_seq. lia.
Qed.

(** X3.  A duration of zero seconds is displayed as [Unknown].  A
    duration below one hour is displayed as the minutes and the seconds,
    one below 100 hours as the hours, the minutes and the seconds, each
    written with exactly two digits and separated by colons; the minutes
    and the seconds displayed are below 60, and the fields add up to the
    duration. *)
Theorem duration_str_fields (d : Z) :
  duration_str 0 = "Unknown" /\
  ((0 < d < 3600)%Z ->
   duration_str d = two_digits (d / 60) ++ ":" ++ two_digits (d mod 60)) /\
  ((3600 <= d < 360000)%Z ->
   duration_str d =
   two_digits (d / 3600) ++ ":" ++ two_digits ((d mod 3600) / 60) ++ ":"
     ++ two_digits (d mod 60)) /\
  ((0 <= d)%Z ->
   (0 <= (d mod 3600) / 60 < 60)%Z /\ (0 <= d mod 60 < 60)%Z /\
   (d / 3600 * 3600 + (d mod 3600) / 60 * 60 + d mod 60 = d)%Z).
Proof.
  split; [reflexivity|]. split; [|split].
  - intros Hd. unfold duration_str.
    rewrite (proj2 (Z.eqb_neq _ _)) by lia.
    rewrite (Z.div_small d 3600), (Z.mod_small d 3600) by lia.
    cbn [Z.gtb Z.compare].
    pose proof (Z.mod_pos_bound d 60 ltac:(lia)) as B2.
    assert (B1 : (0 <= d / 60 < 60)%Z)
      by (split; [apply Z.div_pos; lia | apply Z.div_lt_upper_bound; lia]).
    rewrite !pad2_two_digits by lia. reflexivity.
  - intros Hd. unfold duration_str.
    rewrite (proj2 (Z.eqb_neq _ _)) by lia.
    assert (H1 : (1 <= d / 3600)%Z) by (apply Z.div_le_lower_bound; lia).
    assert (H2 : (d / 3600 < 100)%Z) by (apply Z.div_lt_upper_bound; lia).
    destruct (d / 3600 >? 0)%Z eqn:G;
      [|rewrite Z.gtb_ltb in G; apply Z.ltb_ge in G; lia].
    pose proof (Z.mod_pos_bound d 3600 ltac:(lia)) as B1.
    pose proof (Z.mod_pos_bound d 60 ltac:(lia)) as B2.
    assert (B3 : (0 <= (d mod 3600) / 60 < 60)%Z)
      by (split; [apply Z.div_pos; lia | apply Z.div_lt_upper_bound; lia]).
    rewrite !pad2_two_digits by lia. reflexivity.
  - intros Hd.
    pose proof (Z.mod_pos_bound d 3600 ltac:(lia)) as B1.
    pose proof (Z.mod_pos_bound d 60 ltac:(lia)) as B2.
    pose proof (Z.div_mod d 3600 ltac:(lia)) as E1.
    pose proof (Z.div_mod (d mod 3600) 60 ltac:(lia)) as E2.
    assert (E3 : ((d mod 3600) mod 60 = d mod 60)%Z).
    { symmetry. rewrite E1 at 1.
      replace (3600 * (d / 3600) + d mod 3600)%Z
        with (d mod 3600 + (60 * (d / 3600)) * 60)%Z by lia.
      apply Z.mod_add. lia. }
    split; [|split]; [|exact B2|lia].
    split; [apply Z.div_pos; lia | apply Z.div_lt_upper_bound; lia].
Qed.

Lemma duration_str_fields_witness :
  duration_str 253 = "04:13" /\ duration_str 3725 = "01:02:05".
Proof.
  destruct (duration_str_fields 253) as (_ & A & _).
  destruct (duration_str_fields 3725) as (_ & _ & B & _).
  rewrite A, B by lia. split; reflexivity.
Defined.

End MainFacts.

(* ================================================================== *)
(** ** The outcome of a whole run *)

Section Outcome.

Context (C : Collaborators).

Lemma try_stage_preserves (I : State.t -> Prop) (label : string)
    (body : M C unit) st w :
  preserves I body -> (forall e s, I s -> I (State.set_error e s)) ->
  I st -> I (fst (try_stage C label body st w)).
Proof.
  intros Hb He Hst. specialize (Hb st w Hst). unfold try_stage, state_of in *.
  destruct (body st w) as [[[u|e] s1] w1]; cbn [fst snd] in *; auto.
Qed.

Lemma last_any_default {A} (l : list A) (d d' : A) (a : A) :
  l <> [] -> last l d = last (a :: l) d'.
Proof.
  intros Hl. destruct l as [|b l]; [contradiction|]. cbn [last].
  clear Hl a. revert b. induction l as [|c l IH]; intros b; [reflexivity|].
  cbn [last] in *. apply IH.
Qed.

(** The error key after the stages is the message of the last stage that
    raised, if one did. *)
Lemma invoke_error (bodies : list (string * M C unit)) :
  Forall (fun lb : string * M C unit =>
            forall e0, preserves (fun s => State.error s = e0) (snd lb)) bodies ->
  forall st w,
    State.error
      (fst (invoke C (map (fun lb => try_stage C (fst lb) (snd lb)) bodies) st w)) =
    last (map Some (failures C bodies st w)) (State.error st).
Proof.
  induction 1 as [|[label body] bodies Hb _ IH]; intros st w; [reflexivity|].
  cbn [map invoke failures fst snd] in *. unfold try_stage at 1.
  pose proof (Hb (State.error st) st w eq_refl) as K. unfold state_of in K.
  destruct (body st w) as [[[u|e] s1] w1]; cbn [fst snd] in K.
  - rewrite IH, K. reflexivity.
  - rewrite IH. cbn [State.error State.set_error map].
    destruct (failures C bodies _ w1) as [|m ms]; [reflexivity|].
    cbn [map]. apply last_any_default. discriminate.
Qed.

Lemma failures_labelled (bodies : list (string * M C unit)) st w :
  Forall (fun message =>
            exists label x,
              In label (map fst bodies) /\ message = label ++ exn_str C x)
         (failures C bodies st w).
Proof.
  revert st w. induction bodies as [|[label body] bodies IH]; intros st w.
  - constructor.
  - cbn [failures map fst].
    assert (W : forall s w0,
               Forall (fun message =>
                         exists label0 x,
                           (label = label0 \/ In label0 (map fst bodies)) /\
                           message = label0 ++ exn_str C x)
                      (failures C bodies s w0)).
    { intros s w0. eapply Forall_impl; [|apply IH]. cbv beta.
      intros m (l0 & x & Hin & E). exists l0, x. auto. }
    destruct (body st w) as [[[u|e] s1] w1]; [apply W|].
    constructor; [|apply W]. exists label, e. split; [now left | reflexivity].
Qed.

Lemma last_in {A} (l : list A) (d : A) : l <> [] -> In (last l d) l.
Proof.
  induction l as [|a [|b l] IH]; intros Hl; [contradiction | now left |].
  right. apply IH. discriminate.
Qed.

(** X4.  [process_video] returns the error of the last stage that raised,
    whatever stage raised before it, and that error carries the label of
    its stage; it returns the products of the final state, with a message
    that counts them, exactly when no stage raised. *)
Theorem process_video_outcome (url : string) (w : World C) :
  fst (process_video C url w) =
  match last (map Some (failures C (stage_bodies C) (initial_state url) w)) None with
  | Some message => Failed message
  | None =>
      Completed
        (State.products (fst (invoke C (workflow_nodes C) (initial_state url) w)))
        (success_message
           (State.products (fst (invoke C (workflow_nodes C) (initial_state url) w))))
  end /\
  Forall (fun message =>
            exists label x,
              In label (map fst (stage_bodies C)) /\
              message = label ++ exn_str C x)
         (failures C (stage_bodies C) (initial_state url) w).
Proof.
  split; [|apply failures_labelled].
  assert (K : Forall (fun lb : string * M C unit =>
                forall e0, preserves (fun s => State.error s = e0) (snd lb))
                (stage_bodies C)).
  { apply Forall_forall. intros lb Hin e0.
    exact (proj1 (Forall_forall _ _) (bodies_keep_error C e0) lb Hin). }
  pose proof (invoke_error (stage_bodies C) K (initial_state url) w) as E.
  change (map (fun lb => try_stage C (fst lb) (snd lb)) (stage_bodies C))
    with (workflow_nodes C) in E.
  cbn [State.error initial_state] in E.
  unfold process_video.
  destruct (invoke C (workflow_nodes C) (initial_state url) w) as [final w'].
  cbn [fst] in *. rewrite E.
  pose proof (failures_labelled (stage_bodies C) (initial_state url) w) as L.
  destruct (last (map Some (failures C (stage_bodies C) (initial_state url) w)) None)
    as [message|] eqn:El; [|reflexivity].
  assert (Hin : In message (failures C (stage_bodies C) (initial_state url) w)).
  { destruct (failures C (stage_bodies C) (initial_state url) w) as [|m0 ms];
      [discriminate|].
    pose proof (last_in (map Some (m0 :: ms)) None ltac:(discriminate)) as G.
    rewrite El in G. apply in_map_iff in G.
    destruct G as (m & [= ->] & G). exact G. }
  destruct (proj1 (Forall_forall _ _) L message Hin) as (label & x & Hl & ->).
  assert (N : (label ++ exn_str C x =? "")%string = false).
  { apply String.eqb_neq. cbn in Hl.
    destruct Hl as [<-|[<-|[<-|[<-|[<-|[]]]]]]; discriminate. }
  rewrite N. reflexivity.
Qed.

End Outcome.

(* ================================================================== *)
(** ** What each stage writes *)

Section Footprints.

Context (C : Collaborators).

Ltac footprint :=
  repeat step_preserves;
  intros; cbn [State.url State.video_id State.video_path State.frames
               State.products State.set_video_id State.set_video_path
               State.set_frames State.set_products] in *;
  rewrite ?map_update_nth_same by reflexivity;
  rewrite ?length_update_nth;
  try assumption.

(** X6.  The keys of the run state each stage can change, whether it
    raises or not.  Acquisition changes [video_id], [video_path] and
    [error] only; the Sampler changes [frames] and [error] only; the
    Detector leaves [url], [video_id], [video_path] and the number of
    frames alone; the Isolator changes, besides [error], only the two
    image paths of products, and the Enhancer only their renders: both
    keep the products in number and in order. *)
Theorem stage_footprints (st : State.t) (w : World C) :
  (State.url (fst (_extract_video C st w)) = State.url st /\
   State.frames (fst (_extract_video C st w)) = State.frames st /\
   State.products (fst (_extract_video C st w)) = State.products st) /\
  (State.url (fst (_extract_frames C st w)) = State.url st /\
   State.video_id (fst (_extract_frames C st w)) = State.video_id st /\
   State.video_path (fst (_extract_frames C st w)) = State.video_path st /\
   State.products (fst (_extract_frames C st w)) = State.products st) /\
  (State.url (fst (_identify_products C st w)) = State.url st /\
   State.video_id (fst (_identify_products C st w)) = State.video_id st /\
   State.video_path (fst (_identify_products C st w)) = State.video_path st /\
   List.length (State.frames (fst (_identify_products C st w))) =
   List.length (State.frames st)) /\
  (State.url (fst (_segment_products C st w)) = State.url st /\
   State.video_id (fst (_segment_products C st w)) = State.video_id st /\
   State.video_path (fst (_segment_products C st w)) = State.video_path st /\
   State.frames (fst (_segment_products C st w)) = State.frames st /\
   map apart_from_isolation (State.products (fst (_segment_products C st w))) =
   map apart_from_isolation (State.products st)) /\
  (State.url (fst (_enhance_products C st w)) = State.url st /\
   State.video_id (fst (_enhance_products C st w)) = State.video_id st /\
   State.video_path (fst (_enhance_products C st w)) = State.video_path st /\
   State.frames (fst (_enhance_products C st w)) = State.frames st /\
   map apart_from_renders (State.products (fst (_enhance_products C st w))) =
   map apart_from_renders (State.products st)).
Proof.
  split; [|split; [|split; [|split]]].
  - unfold _extract_video.
    apply (try_stage_preserves C
             (fun s => State.url s = State.url st /\
                       State.frames s = State.frames st /\
                       State.products s = State.products st));
      [| intros e s H; exact H | auto].
    unfold extract_video_body. footprint.
  - unfold _extract_frames.
    apply (try_stage_preserves C
             (fun s => State.url s = State.url st /\
                       State.video_id s = State.video_id st /\
                       State.video_path s = State.video_path st /\
                       State.products s = State.products st));
      [| intros e s H; exact H | auto].
    unfold extract_frames_body, read_frame. footprint.
  - unfold _identify_products.
    apply (try_stage_preserves C
             (fun s => State.url s = State.url st /\
                       State.video_id s = State.video_id st /\
                       State.video_path s = State.video_path st /\
                       List.length (State.frames s) = List.length (State.frames st)));
      [| intros e s H; exact H | auto].
    unfold identify_products_body, identify_frame, identify_parsed,
      identify_candidate, identify_fallback, append_product. footprint.
  - unfold _segment_products.
    apply (try_stage_preserves C
             (fun s => State.url s = State.url st /\
                       State.video_id s = State.video_id st /\
                       State.video_path s = State.video_path st /\
                       State.frames s = State.frames st /\
                       map apart_from_isolation (State.products s) =
                       map apart_from_isolation (State.products st)));
      [| intros e s H; exact H | auto 6].
    unfold segment_products_body, segment_product, set_product. footprint.
  - unfold _enhance_products.
    apply (try_stage_preserves C
             (fun s => State.url s = State.url st /\
                       State.video_id s = State.video_id st /\
                       State.video_path s = State.video_path st /\
                       State.frames s = State.frames st /\
                       map apart_from_renders (State.products s) =
                       map apart_from_renders (State.products st)));
      [| intros e s H; exact H | auto 6].
    unfold enhance_products_body, enhance_product, enhance_style, set_product.
    footprint.
Qed.

End Footprints.

(* ================================================================== *)
(** ** Acquisition and sampling, case by case *)

Section AcquisitionAndSampling.

Context (C : Collaborators).

(** X7.  Acquisition, for every URL and every state.  The identifier [id]
    of the URL and the path [output/video_<id>.mp4] are recorded in all
    cases.  If a file exists at that path the fetcher is not called and
    the stage sets no error; if none exists the fetcher is called once,
    and the stage sets its error exactly when the fetcher raises, the
    identifier and the path staying recorded. *)
Theorem acquisition_cases (st : State.t) (w : World C) :
  exists id,
    _extract_video_id (State.url st) = Ok id /\
    (forall w1,
        os_path_exists C ("output/video_" ++ id ++ ".mp4") w = (true, w1) ->
        _extract_video C st w =
        (State.set_video_path ("output/video_" ++ id ++ ".mp4")
           (State.set_video_id id st), w1)) /\
    (forall w1 w2,
        os_path_exists C ("output/video_" ++ id ++ ".mp4") w = (false, w1) ->
        ydl_download C ("output/video_" ++ id ++ ".mp4") (State.url st) w1
        = (Ok tt, w2) ->
        _extract_video C st w =
        (State.set_video_path ("output/video_" ++ id ++ ".mp4")
           (State.set_video_id id st), w2)) /\
    (forall w1 e w2,
        os_path_exists C ("output/video_" ++ id ++ ".mp4") w = (false, w1) ->
        ydl_download C ("output/video_" ++ id ++ ".mp4") (State.url st) w1
        = (Raise e, w2) ->
        _extract_video C st w =
        (State.set_error (Some ("Video extraction failed: " ++ exn_str C e))
           (State.set_video_path ("output/video_" ++ id ++ ".mp4")
              (State.set_video_id id st)), w2)).
Proof.
  destruct (extract_video_id_total (State.url st)) as (id & Hid).
  exists id. split; [exact Hid|].
  assert (P : os_path_join output_dir ("video_" ++ id ++ ".mp4") =
              "output/video_" ++ id ++ ".mp4") by reflexivity.
  unfold _extract_video, try_stage, extract_video_body, bind, gets, pure,
    modify, ask, call, ret.
  rewrite Hid, P. cbn [State.url State.set_video_id State.set_video_path].
  split; [|split].
  - intros w1 E. rewrite E. reflexivity.
  - intros w1 w2 E D. rewrite E.
    cbn [negb State.url State.set_video_id State.set_video_path].
    rewrite D. reflexivity.
  - intros w1 e w2 E D. rewrite E.
    cbn [negb State.url State.set_video_id State.set_video_path].
    rewrite D. reflexivity.
Qed.

(** *** Computations that do not write *)

Lemma readonly_ret {A} (a : A) : readonly (@ret C A a).
Proof. intros st w. reflexivity. Qed.

Lemma readonly_bind {A B} (m : M C A) (f : A -> M C B) :
  readonly m -> (forall a, readonly (f a)) -> readonly (bind m f).
Proof.
  intros Hm Hf st w. unfold bind. specialize (Hm st w). unfold state_of in *.
  destruct (m st w) as [[[a|e] s1] w1]; cbn [fst snd] in *; subst s1.
  - apply Hf.
  - reflexivity.
Qed.

Lemma readonly_gets {A} (key : State.t -> A) : readonly (@gets C A key).
Proof. intros st w. reflexivity. Qed.

Lemma readonly_pure {A} (o : outcome A) : readonly (@pure C A o).
Proof. intros st w. reflexivity. Qed.

Lemma readonly_call {A} (f : World C -> outcome A * World C) : readonly (call f).
Proof. intros st w. unfold call, state_of. now destruct (f w). Qed.

Lemma readonly_for_fold {A B} (l : list A) (acc : B) (body : B -> A -> M C B) :
  (forall acc x, readonly (body acc x)) -> readonly (for_fold l acc body).
Proof.
  intros Hb. revert acc. induction l as [|x l IH]; intros acc; cbn [for_fold].
  - apply readonly_ret.
  - apply readonly_bind; [apply Hb | intros acc'; apply IH].
Qed.

Lemma atomic_modify (f : State.t -> State.t) : atomic (@modify C f).
Proof. intros st w e H. discriminate H. Qed.

Lemma atomic_ret {A} (a : A) : atomic (@ret C A a).
Proof. intros st w e H. discriminate H. Qed.

Lemma atomic_bind {A B} (m : M C A) (f : A -> M C B) :
  readonly m -> (forall a, atomic (f a)) -> atomic (bind m f).
Proof.
  intros Hm Hf st w e. unfold bind. specialize (Hm st w).
  unfold state_of, out_of in *.
  destruct (m st w) as [[[a|x] s1] w1]; cbn [fst snd] in *; subst s1.
  - apply Hf.
  - reflexivity.
Qed.

End AcquisitionAndSampling.

Lemma acquisition_cases_witness :
  _extract_video (Demo.collaborators Demo.download_fails)
    (initial_state "https://youtu.be/abc") tt =
  (State.mk "https://youtu.be/abc" "abc" "output/video_abc.mp4" [] []
     (Some "Video extraction failed: video unavailable"), tt).
Proof.
  destruct (acquisition_cases (Demo.collaborators Demo.download_fails)
              (initial_state "https://youtu.be/abc") tt)
    as (id & Hid & _ & _ & K).
  assert (E : id = "abc") by (vm_compute in Hid; now injection Hid).
  subst id.
  exact (K tt (CollaboratorError "video unavailable") tt eq_refl eq_refl).
Defined.


Ltac step_readonly :=
  match goal with
  | |- readonly (ret _) => apply readonly_ret
  | |- readonly (bind _ _) => apply readonly_bind; [|intros ?]
  | |- readonly (gets _) => apply readonly_gets
  | |- readonly (pure _) => apply readonly_pure
  | |- readonly (call _) => apply readonly_call
  | |- readonly (for_fold _ _ _) => apply readonly_for_fold; intros ? ?
  | |- readonly (match ?x with _ => _ end) => destruct x
  | |- readonly (let _ := _ in _) => cbv zeta
  end.

Ltac step_atomic :=
  match goal with
  | |- atomic (ret _) => apply atomic_ret
  | |- atomic (modify _) => apply atomic_modify
  | |- atomic (bind _ _) => apply atomic_bind; [repeat step_readonly|intros ?]
  | |- atomic (match ?x with _ => _ end) => destruct x
  | |- atomic (let _ := _ in _) => cbv zeta
  end.

Section SamplerCases.

Context (C : Collaborators).

Lemma extract_frames_atomic : atomic (extract_frames_body C).
Proof. unfold extract_frames_body, read_frame. repeat step_atomic. Qed.

Lemma extract_frames_writes_frames st w u st' w' :
  extract_frames_body C st w = (Ok u, st', w') ->
  st' = State.set_frames (State.frames st') st.
Proof.
  intros H. unfold extract_frames_body in H.
  apply bind_inv in H. destruct H as (vp & s1 & w1 & H1 & H).
  apply gets_inv in H1. destruct H1 as (-> & -> & ->).
  apply bind_inv in H. destruct H as (cap & s2 & w2 & H2 & H).
  apply call_inv in H2. destruct H2 as (_ & ->).
  cbv zeta in H.
  apply bind_inv in H. destruct H as (d & s3 & w3 & H3 & H).
  apply pure_inv in H3. destruct H3 as (_ & -> & ->).
  apply bind_inv in H. destruct H as (vars & s4 & w4 & H4 & H).
  apply modify_inv in H. destruct H as (-> & ->).
  assert (R : readonly (for_fold (decoded cap) (0%Z, [])
                          (read_frame C (CAP_PROP_FPS cap)
                             (frame_interval_of (CAP_PROP_FPS cap))))).
  { unfold read_frame. repeat step_readonly. }
  specialize (R st w2). rewrite H4 in R. cbn in R. subst s4. reflexivity.
Qed.

(** X8.  The Sampler replaces [frames] as a whole or not at all: it
    returns the state it was given with [frames] replaced, or, when
    anything raised, with nothing but [error] set.  A capture that
    reports a frame rate of 0, as one that failed to open does, always
    ends in the error of a division by zero; so does a stride of 0 on a
    stream that has a frame; a stream without a frame gives no frame and
    no error. *)
Theorem sampler_all_or_nothing (st : State.t) (w : World C) :
  ((exists frames, fst (_extract_frames C st w) = State.set_frames frames st) \/
   (exists e,
       fst (_extract_frames C st w) =
       State.set_error (Some ("Frame extraction failed: " ++ exn_str C e)) st)) /\
  (forall cap w1,
      cv2_VideoCapture C (State.video_path st) w = (Ok cap, w1) ->
      Qeq_bool (CAP_PROP_FPS cap) 0 = true ->
      _extract_frames C st w =
      (State.set_error
         (Some ("Frame extraction failed: " ++ exn_str C ZeroDivisionError)) st,
       w1)) /\
  (forall cap w1 frame rest,
      cv2_VideoCapture C (State.video_path st) w = (Ok cap, w1) ->
      Qeq_bool (CAP_PROP_FPS cap) 0 = false ->
      frame_interval_of (CAP_PROP_FPS cap) = 0%Z ->
      decoded cap = frame :: rest ->
      _extract_frames C st w =
      (State.set_error
         (Some ("Frame extraction failed: " ++ exn_str C ZeroDivisionError)) st,
       w1)) /\
  (forall cap w1,
      cv2_VideoCapture C (State.video_path st) w = (Ok cap, w1) ->
      Qeq_bool (CAP_PROP_FPS cap) 0 = false ->
      decoded cap = [] ->
      _extract_frames C st w = (State.set_frames [] st, w1)).
Proof.
  split; [|split; [|split]].
  - unfold _extract_frames, try_stage.
    pose proof (extract_frames_atomic st w) as A.
    pose proof (extract_frames_writes_frames st w) as B.
    unfold out_of, state_of in A.
    destruct (extract_frames_body C st w) as [[[u|e] s1] w1]; cbn [fst snd] in *.
    + left. exists (State.frames s1). exact (B u s1 w1 eq_refl).
    + right. exists e. now rewrite (A e eq_refl).
  - intros cap w1 Hc Hz.
    unfold _extract_frames, try_stage, extract_frames_body, bind, gets, call,
      pure, py_truediv.
    rewrite Hc, Hz. reflexivity.
  - intros cap w1 frame rest Hc Hz Hs Hd.
    unfold _extract_frames, try_stage, extract_frames_body, bind, gets, call,
      pure, py_truediv.
    rewrite Hc, Hz, Hd, Hs. reflexivity.
  - intros cap w1 Hc Hz Hd.
    unfold _extract_frames, try_stage, extract_frames_body, bind, gets, call,
      pure, py_truediv, modify.
    rewrite Hc, Hz, Hd. reflexivity.
Qed.

End SamplerCases.

Lemma sampler_all_or_nothing_witness :
  _extract_frames (Demo.collaborators Demo.quarter_rate)
    (initial_state "https://youtu.be/abc") tt =
  (State.set_error (Some "Frame extraction failed: division by zero")
     (initial_state "https://youtu.be/abc"), tt).
Proof.
  destruct (sampler_all_or_nothing (Demo.collaborators Demo.quarter_rate)
              (initial_state "https://youtu.be/abc") tt) as (_ & _ & K & _).
  exact (K _ tt 0%nat [1%nat; 2%nat] eq_refl eq_refl eq_refl eq_refl).
Defined.


(* ================================================================== *)
(** ** The frames the Sampler records *)

Section SamplerExact.

Context (C : Collaborators).

(** A property of the rounds done so far, of the local variables and of
    the run state that every round keeps holds when the loop returns. *)
Lemma for_fold_prefix {A B} (P : list A -> B -> State.t -> Prop)
    (body : B -> A -> M C B) :
  (forall done x acc st w acc' st' w',
      P done acc st -> body acc x st w = (Ok acc', st', w') ->
      P (done ++ [x])%list acc' st') ->
  forall l done acc st w r st' w',
    P done acc st -> for_fold l acc body st w = (Ok r, st', w') ->
    P (done ++ l)%list r st'.
Proof.
  intros Hb l. induction l as [|x l IH]; intros done acc st w r st' w' HP H.
  - cbn [for_fold] in H. apply ret_inv in H. destruct H as (-> & -> & _).
    now rewrite app_nil_r.
  - cbn [for_fold] in H. apply bind_inv in H.
    destruct H as (acc1 & st1 & w1 & H1 & H2).
    replace (done ++ x :: l)%list with ((done ++ [x]) ++ l)%list
      by (rewrite <- app_assoc; reflexivity).
    exact (IH _ _ _ _ _ _ _ (Hb _ _ _ _ _ _ _ _ HP H1) H2).
Qed.

Lemma sampled_indices_next (stride : Z) (k : nat) :
  sampled_indices stride (S k) =
  (sampled_indices stride k ++
     (if (Z.of_nat k mod stride =? 0)%Z then [Z.of_nat k] else []))%list.
Proof.
  unfold sampled_indices. rewrite seq_S, map_app, filter_app. reflexivity.
Qed.

Lemma read_frame_exact (fps : Q) (stride : Z) (st0 : State.t) (k : nat)
    (frame : CvFrame C) st w vars' st' w' :
  st = st0 ->
  read_frame C fps stride
    (Z.of_nat k,
     map (frame_at fps (State.video_id st0)) (sampled_indices stride k))
    frame st w = (Ok vars', st', w') ->
  st' = st0 /\
  vars' = (Z.of_nat (S k),
           map (frame_at fps (State.video_id st0)) (sampled_indices stride (S k))).
Proof.
  intros -> H. unfold read_frame in H.
  apply bind_inv in H. destruct H as (r & s1 & w1 & Hr & H).
  apply pure_inv in Hr. destruct Hr as (Hr & -> & ->).
  apply bind_inv in H. destruct H as (frames' & s2 & w2 & Hf & H).
  apply ret_inv in H. destruct H as (-> & -> & _).
  unfold py_mod in Hr. destruct (stride =? 0)%Z; [discriminate|].
  injection Hr as <-.
  rewrite sampled_indices_next, map_app.
  replace (Z.of_nat k + 1)%Z with (Z.of_nat (S k)) by lia.
  destruct (Z.of_nat k mod stride =? 0)%Z.
  - apply bind_inv in Hf. destruct Hf as (ts & s3 & w3 & Hts & Hf).
    apply pure_inv in Hts. destruct Hts as (Hts & -> & ->).
    apply bind_inv in Hf. destruct Hf as (vid & s4 & w4 & Hvid & Hf).
    apply gets_inv in Hvid. destruct Hvid as (-> & -> & ->).
    cbv zeta in Hf.
    apply bind_inv in Hf. destruct Hf as (u & s5 & w5 & Hw & Hf).
    apply call_inv in Hw. destruct Hw as (_ & ->).
    apply ret_inv in Hf. destruct Hf as (-> & -> & _).
    unfold py_truediv in Hts. destruct (Qeq_bool fps 0); [discriminate|].
    injection Hts as <-. split; reflexivity.
  - apply ret_inv in Hf. destruct Hf as (-> & -> & _).
    cbn [map]. rewrite app_nil_r. split; reflexivity.
Qed.

(** X9.  When the Sampler returns without raising, the frames it recorded
    are exactly the decoded frames whose index is a multiple of the
    stride, none left out, in the order of the stream; each is recorded
    with the timestamp that the float division [index / fps] gives, the
    double nearest to the quotient, the path
    [output/frame_<video_id>_<index>.jpg] and no product; nothing else
    of the state has changed. *)
Theorem sampler_records_every_multiple (st : State.t) (w : World C) st' w' :
  extract_frames_body C st w = (Ok tt, st', w') ->
  exists cap w1,
    cv2_VideoCapture C (State.video_path st) w = (Ok cap, w1) /\
    st' =
    State.set_frames
      (map (frame_at (CAP_PROP_FPS cap) (State.video_id st))
         (sampled_indices (frame_interval_of (CAP_PROP_FPS cap))
            (List.length (decoded cap))))
      st.
Proof.
  intros H. unfold extract_frames_body in H.
  apply bind_inv in H. destruct H as (vp & s1 & w1 & H1 & H).
  apply gets_inv in H1. destruct H1 as (-> & -> & ->).
  apply bind_inv in H. destruct H as (cap & s2 & w2 & H2 & H).
  apply call_inv in H2. destruct H2 as (Hcap & ->).
  cbv zeta in H.
  apply bind_inv in H. destruct H as (d & s3 & w3 & H3 & H).
  apply pure_inv in H3. destruct H3 as (_ & -> & ->).
  apply bind_inv in H. destruct H as (vars & s4 & w4 & H4 & H).
  apply modify_inv in H. destruct H as (-> & ->).
  exists cap, w2. split; [exact Hcap|].
  pose proof (for_fold_prefix
    (fun done vars s =>
       s = st /\
       vars = (Z.of_nat (List.length done),
               map (frame_at (CAP_PROP_FPS cap) (State.video_id st))
                 (sampled_indices (frame_interval_of (CAP_PROP_FPS cap))
                    (List.length done))))
    (read_frame C (CAP_PROP_FPS cap) (frame_interval_of (CAP_PROP_FPS cap)))) as L.
  assert (Step : forall done x acc s w0 acc' s' w0',
    (s = st /\
     acc = (Z.of_nat (List.length done),
            map (frame_at (CAP_PROP_FPS cap) (State.video_id st))
              (sampled_indices (frame_interval_of (CAP_PROP_FPS cap))
                 (List.length done)))) ->
    read_frame C (CAP_PROP_FPS cap) (frame_interval_of (CAP_PROP_FPS cap))
      acc x s w0 = (Ok acc', s', w0') ->
    s' = st /\
    acc' = (Z.of_nat (List.length (done ++ [x])),
            map (frame_at (CAP_PROP_FPS cap) (State.video_id st))
              (sampled_indices (frame_interval_of (CAP_PROP_FPS cap))
                 (List.length (done ++ [x]))))).
  { intros done x acc s w0 acc' s' w0' (Hs & ->) Hrun.
    rewrite length_app, Nat.add_1_r.
    exact (read_frame_exact _ _ st _ x s w0 acc' s' w0' Hs Hrun). }
  destruct (L Step (decoded cap) [] _ st w2 vars s4 w4
              (conj eq_refl eq_refl) H4) as (-> & ->).
  reflexivity.
Qed.

(** A round of the Sampler adds no frame that lists a product. *)
Lemma read_frame_fresh (fps : Q) (stride : Z) vars (frame : CvFrame C)
    st w vars' st' w' :
  Forall (fun f => Frame.products_detected f = []) (snd vars) ->
  read_frame C fps stride vars frame st w = (Ok vars', st', w') ->
  Forall (fun f => Frame.products_detected f = []) (snd vars').
Proof.
  destruct vars as [n frames]. cbn [snd]. intros Hall H. unfold read_frame in H.
  apply bind_inv in H. destruct H as (r & s1 & w1 & Hr & H).
  apply pure_inv in Hr. destruct Hr as (_ & -> & ->).
  apply bind_inv in H. destruct H as (frames' & s2 & w2 & Hf & H).
  apply ret_inv in H. destruct H as (-> & _ & _). cbn [snd].
  destruct (r =? 0)%Z.
  - apply bind_inv in Hf. destruct Hf as (ts & s3 & w3 & H3 & Hf).
    apply bind_inv in Hf. destruct Hf as (vid & s4 & w4 & H4 & Hf).
    cbv zeta in Hf.
    apply bind_inv in Hf. destruct Hf as (u & s5 & w5 & H5 & Hf).
    apply ret_inv in Hf. destruct Hf as (-> & _ & _).
    apply Forall_app. split; [exact Hall|]. now repeat constructor.
  - apply ret_inv in Hf. destruct Hf as (-> & _ & _). exact Hall.
Qed.

(** After the Sampler, [frames] is as before or holds frames without a
    product. *)
Lemma extract_frames_fresh (st : State.t) (w : World C) :
  State.frames (fst (_extract_frames C st w)) = State.frames st \/
  Forall (fun f => Frame.products_detected f = [])
         (State.frames (fst (_extract_frames C st w))).
Proof.
  unfold _extract_frames, try_stage.
  pose proof (extract_frames_atomic C st w) as A.
  unfold out_of, state_of in A.
  destruct (extract_frames_body C st w) as [[[[]|e] s1] w1] eqn:H;
    cbn [fst snd] in *.
  - right. unfold extract_frames_body in H.
    apply bind_inv in H. destruct H as (vp & s2 & w2 & H1 & H).
    apply bind_inv in H. destruct H as (cap & s3 & w3 & H2 & H).
    cbv zeta in H.
    apply bind_inv in H. destruct H as (d & s4 & w4 & H3 & H).
    apply bind_inv in H. destruct H as (vars & s5 & w5 & H4 & H).
    apply modify_inv in H. destruct H as (-> & _).
    cbn [State.frames State.set_frames].
    eapply (for_fold_inv
              (fun vars : Z * list Frame.t =>
                 Forall (fun f => Frame.products_detected f = []) (snd vars)));
      [| | exact H4].
    + intros acc x s w0 acc' s' w0' Hacc Hrun.
      exact (read_frame_fresh _ _ _ _ _ _ _ _ _ Hacc Hrun).
    + constructor.
  - left. now rewrite (A e eq_refl).
Qed.

End SamplerExact.

(** Ten frames of a stream at 0.9 frames per second, the stride being
    1: every frame is recorded, and the frame with index 9 has the
    timestamp 10, the double nearest to the quotient, which is below
    10. *)
Lemma sampler_records_every_multiple_witness :
  let C := Demo.collaborators Demo.nine_tenths in
  let st := State.set_video_id "abc" (initial_state "https://youtu.be/abc") in
  State.frames (state_of (extract_frames_body C st tt)) =
  map (frame_at (Demo.reports_fps Demo.nine_tenths) "abc")
      [0; 1; 2; 3; 4; 5; 6; 7; 8; 9]%Z /\
  (9 / Demo.reports_fps Demo.nine_tenths < 10)%Q /\
  Frame.timestamp (frame_at (Demo.reports_fps Demo.nine_tenths) "abc" 9) = 10%Q.
Proof.
  intros C st. split; [|split; reflexivity].
  destruct (sampler_records_every_multiple C st tt
              (state_of (extract_frames_body C st tt)) tt)
    as (cap & w1 & Hc & E).
  - vm_compute. reflexivity.
  - rewrite E. injection Hc as <-. reflexivity.
Defined.

(* ================================================================== *)
(** ** The identifier as a piece of the URL *)

Section IdentifierText.
Import PyStr PyStrAux PyStrFacts.

Lemma prefix_trans (a b c : string) :
  prefix a b = true -> prefix b c = true -> prefix a c = true.
Proof.
  intros Hab Hbc.
  destruct (prefix_split _ _ Hab) as (y & ->).
  destruct (prefix_split _ _ Hbc) as (z & ->).
  rewrite app_assoc_s. apply prefix_app.
Qed.

(** The first piece of a split starts the text. *)
Lemma split_head_prefix (sep s : string) :
  prefix (hd "" (split_from sep 0 s)) s = true.
Proof.
  induction s as [|c s IH]; [reflexivity|].
  cbn [split_from]. destruct (prefix sep (String c s)); [reflexivity|].
  destruct (split_from_cons sep 0 s) as (p & ps & E). rewrite E in *.
  cbn [hd] in *. apply prefix_cons. now split.
Qed.

(** Every piece of a split occurs in the text. *)
Lemma split_pieces_occur (sep s : string) (k : nat) (p : string) :
  In p (split_from sep k s) -> contains p s = true.
Proof.
  revert k. induction s as [|c s IH]; intros k H.
  - cbn in H. destruct H as [<-|[]]. reflexivity.
  - cbn [split_from] in H. destruct k as [|k].
    + destruct (prefix sep (String c s)).
      * destruct H as [<-|H]; [apply contains_prefix, prefix_nil_l|].
        apply contains_cons. exact (IH _ H).
      * pose proof (split_head_prefix sep s) as Hp.
        destruct (split_from_cons sep 0 s) as (p0 & ps & E). rewrite E in *.
        cbn [hd] in Hp. destruct H as [<-|H].
        -- apply contains_prefix, prefix_cons. now split.
        -- apply contains_cons. apply (IH 0%nat). rewrite E. now right.
    + apply contains_cons. exact (IH _ H).
Qed.

(** The first piece of a split does not hold the separator. *)
Lemma split_head_clean (sep s : string) :
  sep <> "" -> contains sep (hd "" (split_from sep 0 s)) = false.
Proof.
  intros Hs. induction s as [|c s IH].
  - cbn. destruct sep; [contradiction | reflexivity].
  - cbn [split_from]. destruct (prefix sep (String c s)) eqn:P.
    + cbn. destruct sep; [contradiction | reflexivity].
    + pose proof (split_head_prefix sep s) as Hp.
      destruct (split_from_cons sep 0 s) as (p0 & ps & E). rewrite E in *.
      cbn [hd] in *. cbn [contains]. rewrite IH, orb_false_r.
      destruct (prefix sep (String c p0)) eqn:Q; [|reflexivity].
      assert (R : prefix (String c p0) (String c s) = true)
        by (apply prefix_cons; now split).
      rewrite (prefix_trans _ _ _ Q R) in P. discriminate.
Qed.

Lemma obind_inv {A B} (o : outcome A) (f : A -> outcome B) (b : B) :
  obind o f = Ok b -> exists a, o = Ok a /\ f a = Ok b.
Proof. destruct o as [a|e]; [eauto | discriminate]. Qed.

Lemma py_index_in {A} (l : list A) (i : nat) (x : A) :
  py_index l i = Ok x -> In x l.
Proof.
  unfold py_index. destruct (nth_error l i) eqn:E; [|discriminate].
  intros [= <-]. exact (nth_error_In _ _ E).
Qed.

(** [text.split(sep)[1].split(stop)[0]], when it exists, occurs in the
    text and does not hold [stop]. *)
Lemma second_then_first_occurs (sep : string) (c : ascii) (url id : string) :
  (pieces <- split url sep ;;
   found <- py_index pieces 1 ;;
   pieces' <- split found (String c "") ;;
   py_index pieces' 0)%outcome = Ok id ->
  contains id url = true /\ contains (String c "") id = false.
Proof.
  intros H.
  apply obind_inv in H. destruct H as (pieces & H1 & H).
  apply obind_inv in H. destruct H as (found & H2 & H).
  apply obind_inv in H. destruct H as (pieces' & H3 & H).
  unfold split in H1, H3.
  destruct (sep =? "")%string; [discriminate|]. injection H1 as <-.
  change (String c "" =? "")%string with false in H3. injection H3 as <-.
  rewrite (py_index_head _ "" (split_from_nonempty _ _ _)) in H.
  injection H as <-.
  split.
  - apply (contains_trans _ found).
    + apply contains_prefix, split_head_prefix.
    + exact (split_pieces_occur _ _ _ _ (py_index_in _ _ _ H2)).
  - apply split_head_clean. discriminate.
Qed.

(** X10.  For every URL, the identifier is the text [unknown], for a URL
    of no known shape, or a piece of text that occurs in the URL; for a
    watch link it holds no [&], for the two other shapes no [?]. *)
Theorem video_id_is_a_piece_of_the_url (url id : string) :
  _extract_video_id url = Ok id ->
  (unrecognized url /\ id = "unknown") \/
  (contains id url = true /\
   (contains "youtube.com/watch?v=" url = true -> contains "&" id = false) /\
   (contains "youtube.com/watch?v=" url = false -> contains "?" id = false)).
Proof.
  unfold _extract_video_id, unrecognized.
  destruct (contains "youtube.com/watch?v=" url) eqn:W.
  { intros H. right.
    destruct (second_then_first_occurs _ _ _ _ H) as (K1 & K2).
    split; [exact K1|]. split; [intros _; exact K2 | discriminate]. }
  destruct (contains "youtube.com/shorts/" url) eqn:S.
  { intros H. right.
    destruct (second_then_first_occurs _ _ _ _ H) as (K1 & K2).
    split; [exact K1|]. split; [discriminate | intros _; exact K2]. }
  destruct (contains "youtu.be/" url) eqn:B.
  { intros H. right.
    destruct (second_then_first_occurs _ _ _ _ H) as (K1 & K2).
    split; [exact K1|]. split; [discriminate | intros _; exact K2]. }
  intros [= <-]. left. auto.
Qed.

Lemma video_id_is_a_piece_of_the_url_witness :
  contains "a/b" "https://youtu.be/a/b?si=1" = true /\
  contains "?" "a/b" = false.
Proof.
  destruct (video_id_is_a_piece_of_the_url "https://youtu.be/a/b?si=1" "a/b"
              eq_refl) as [(_ & E) | (K1 & _ & K2)]; [discriminate|].
  split; [exact K1 | exact (K2 eq_refl)].
Defined.

End IdentifierText.

(* ================================================================== *)
(** ** Candidates that are not as the directive asks *)

Section Candidates.

Context (C : Collaborators).

(** X11.  What the Detector does with a candidate that lacks a key or
    carries a value of another type.
    - Without the flag, or with a flag that counts as true but without a
      confidence, the candidate is passed over silently.
    - A flag of any type counts by its truth value: a text that is not
      empty, such as the word [false], counts as true.
    - A confidence that is a text, or a candidate that is not an object,
      raises, and so does a candidate that passes the test but lacks its
      name or its description; nothing has been added when it raises, and
      the stage turns the exception into its error. *)
Theorem detector_ill_formed_candidates (i : nat) (fd : Frame.t) st w :
  (forall entries,
      lookup "is_good_frame" entries = None ->
      identify_candidate C i fd (PDict entries) st w = (Ok tt, st, w)) /\
  (forall entries flag,
      lookup "is_good_frame" entries = Some flag -> truthy flag = true ->
      lookup "confidence" entries = None ->
      identify_candidate C i fd (PDict entries) st w = (Ok tt, st, w)) /\
  (forall entries word n c d,
      word <> "" ->
      lookup "is_good_frame" entries = Some (PStr word) ->
      lookup "confidence" entries = Some (PFloat c) -> (0.5 < c)%Q ->
      lookup "name" entries = Some n ->
      lookup "description" entries = Some d ->
      identify_candidate C i fd (PDict entries) st w =
      append_product C i
        (ProductInfo.new n (PFloat c) d (Frame.timestamp fd)) st w) /\
  (forall entries flag word,
      lookup "is_good_frame" entries = Some flag -> truthy flag = true ->
      lookup "confidence" entries = Some (PStr word) ->
      identify_candidate C i fd (PDict entries) st w = (Raise TypeError, st, w)) /\
  (forall entries flag conf,
      lookup "is_good_frame" entries = Some flag -> truthy flag = true ->
      lookup "confidence" entries = Some conf -> py_gt conf 0.5 = Ok true ->
      (lookup "name" entries = None ->
       identify_candidate C i fd (PDict entries) st w =
       (Raise (KeyError "name"), st, w)) /\
      (forall n,
          lookup "name" entries = Some n ->
          lookup "description" entries = None ->
          identify_candidate C i fd (PDict entries) st w =
          (Raise (KeyError "description"), st, w))) /\
  (forall product,
      (forall entries, product <> PDict entries) ->
      identify_candidate C i fd product st w = (Raise AttributeError, st, w)) /\
  (forall product rest e,
      identify_candidate C i fd product st w = (Raise e, st, w) ->
      try_stage C "Product identification failed: "
        (for_each (product :: rest) (identify_candidate C i fd)) st w =
      (State.set_error
         (Some ("Product identification failed: " ++ exn_str C e)) st, w)).
Proof.
  assert (Last : forall product rest e,
      identify_candidate C i fd product st w = (Raise e, st, w) ->
      try_stage C "Product identification failed: "
        (for_each (product :: rest) (identify_candidate C i fd)) st w =
      (State.set_error
         (Some ("Product identification failed: " ++ exn_str C e)) st, w)).
  { intros product rest e H. unfold try_stage. cbn [for_each].
    now rewrite (bind_raise _ _ _ _ _ _ _ H). }
  unfold identify_candidate, bind, pure, py_get, py_getitem, ret.
  split; [|split; [|split; [|split; [|split; [|split]]]]].
  - intros entries H. now rewrite H.
  - intros entries flag Hf Ht Hc. now rewrite Hf, Ht, Hc.
  - intros entries word n c d Hw Hf Hc Hlt Hn Hd. rewrite Hf.
    cbn [truthy]. rewrite (proj2 (String.eqb_neq _ _) Hw). cbn [negb].
    rewrite Hc. cbn [py_gt]. rewrite (proj2 (Qltb_lt _ _) Hlt).
    now rewrite Hn, Hd.
  - intros entries flag word Hf Ht Hc. now rewrite Hf, Ht, Hc.
  - intros entries flag conf Hf Ht Hc Hgt. split.
    + intros Hn. now rewrite Hf, Ht, Hc, Hgt, Hn.
    + intros n Hn Hd. now rewrite Hf, Ht, Hc, Hgt, Hn, Hd.
  - intros product Hp.
    destruct product; try reflexivity. exfalso. exact (Hp _ eq_refl).
  - exact Last.
Qed.

End Candidates.

(** A candidate whose flag is the word [false] is recorded. *)
Lemma detector_ill_formed_candidates_witness :
  let C := Demo.collaborators Demo.ten_seconds in
  let fd := Frame.mk 120 4.0 "output/frame_abc_120.jpg" [] in
  State.products
    (state_of
       (identify_candidate C 0 fd
          (PDict [("name", PStr "Red Mug"); ("confidence", PFloat 0.9);
                  ("description", PStr "a mug");
                  ("is_good_frame", PStr "false")])
          (initial_state "u") tt)) =
  [ProductInfo.new (PStr "Red Mug") (PFloat 0.9) (PStr "a mug") 4.0].
Proof.
  intros C fd.
  destruct (detector_ill_formed_candidates C 0 fd (initial_state "u") tt)
    as (_ & _ & K & _).
  rewrite (K [("name", PStr "Red Mug"); ("confidence", PFloat 0.9);
              ("description", PStr "a mug"); ("is_good_frame", PStr "false")]
             "false" (PStr "Red Mug") 0.9%Q (PStr "a mug")
             ltac:(discriminate) eq_refl eq_refl ltac:(reflexivity)
             eq_refl eq_refl).
  reflexivity.
Defined.

(* ================================================================== *)
(** ** The references from frames to products *)

Section References.

Context (C : Collaborators).

Lemma Forall_update_nth_at {A} (P Q : A -> Prop) (f : A -> A) (l : list A)
    (i : nat) :
  Forall P l -> (forall x, P x -> Q x) ->
  (forall x, nth_error l i = Some x -> P x -> Q (f x)) ->
  Forall Q (update_nth i f l).
Proof.
  intros Hl HPQ Hi. revert i Hi.
  induction Hl as [|y l Hy Hl IH]; intros [|i] Hi; cbn [update_nth].
  - constructor.
  - constructor.
  - constructor; [apply Hi; [reflexivity | exact Hy]|].
    eapply Forall_impl; [exact HPQ | exact Hl].
  - constructor; [exact (HPQ _ Hy)|]. apply IH. intros x Hx. apply Hi. exact Hx.
Qed.

Lemma nth_error_same_key {A B} (g : A -> B) (l l' : list A) (i : nat) (x : A) :
  map g l' = map g l -> nth_error l i = Some x ->
  exists x', nth_error l' i = Some x' /\ g x' = g x.
Proof.
  intros E H. pose proof (map_nth_error g _ _ H) as K. rewrite <- E in K.
  rewrite nth_error_map in K.
  destruct (nth_error l' i) as [x'|]; [|discriminate].
  exists x'. split; [reflexivity | now injection K].
Qed.

(** The two appends keep the references true, for a product that carries
    the timestamp of the frame it is added to. *)
Lemma append_product_refs (frames0 : list Frame.t) (i : nat) (fd : Frame.t)
    (p : ProductInfo.t) :
  nth_error frames0 i = Some fd ->
  ProductInfo.timestamp p = Frame.timestamp fd ->
  preserves (fun s => map frame_key (State.frames s) = map frame_key frames0 /\
                      refs_point_home s)
            (append_product C i p).
Proof.
  intros Hi Hp s w (HK & HR). rewrite append_product_run. unfold state_of.
  cbn [fst snd]. unfold refs_point_home.
  cbn [State.frames State.products State.set_frames State.set_products].
  split; [rewrite map_update_nth_same; [exact HK | reflexivity]|].
  assert (Old : forall ref q,
             nth_error (State.products s) ref = Some q ->
             nth_error (State.products s ++ [p]) ref = Some q).
  { intros ref q Hq. rewrite nth_error_app1; [exact Hq|].
    apply nth_error_Some. congruence. }
  apply (Forall_update_nth_at
           (fun f => Forall (fun ref =>
                       exists q, nth_error (State.products s) ref = Some q /\
                                 ProductInfo.timestamp q = Frame.timestamp f)
                     (Frame.products_detected f))).
  - exact HR.
  - intros f Hf. eapply Forall_impl; [|exact Hf]. cbv beta.
    intros ref (q & Hq & Ht). exists q. split; [exact (Old _ _ Hq) | exact Ht].
  - intros f Hf Hrefs. cbn [Frame.products_detected Frame.append_products_detected
                             Frame.timestamp].
    apply Forall_app. split.
    + eapply Forall_impl; [|exact Hrefs]. cbv beta.
      intros ref (q & Hq & Ht). exists q. split; [exact (Old _ _ Hq) | exact Ht].
    + constructor; [|constructor]. exists p. split.
      * rewrite nth_error_app2, Nat.sub_diag by lia. reflexivity.
      * destruct (nth_error_same_key frame_key _ _ i f (eq_sym HK) Hf)
          as (fd' & Hfd' & Ek).
        assert (fd' = fd) by congruence. subst fd'.
        rewrite Hp. unfold frame_key in Ek. now injection Ek.
Qed.

Lemma identify_frame_refs (frames0 : list Frame.t) (i : nat) (fd : Frame.t) :
  nth_error frames0 i = Some fd ->
  preserves (fun s => map frame_key (State.frames s) = map frame_key frames0 /\
                      refs_point_home s)
            (identify_frame C (i, fd)).
Proof.
  intros Hi.
  unfold identify_frame, identify_parsed, identify_candidate, identify_fallback.
  repeat step_preserves; apply (append_product_refs frames0 i fd); auto.
Qed.

Lemma combine_seq_nth {A} (l : list A) (start i : nat) (x : A) :
  In (i, x) (combine (seq start (List.length l)) l) ->
  exists k, i = (start + k)%nat /\ nth_error l k = Some x.
Proof.
  revert start. induction l as [|y l IH]; intros start H; [contradiction|].
  cbn [List.length seq combine In] in H. destruct H as [E|H].
  - injection E as <- <-. exists 0%nat. split; [lia | reflexivity].
  - destruct (IH _ H) as (k & -> & Hk). exists (S k). split; [lia | exact Hk].
Qed.

Lemma enumerate_nth {A} (l : list A) (i : nat) (x : A) :
  In (i, x) (enumerate l) -> nth_error l i = Some x.
Proof.
  intros H. destruct (combine_seq_nth l 0 i x H) as (k & -> & Hk). exact Hk.
Qed.

Lemma identify_products_refs :
  preserves refs_point_home (identify_products_body C).
Proof.
  intros st w HR. unfold identify_products_body, bind, gets.
  cbn [fst snd].
  assert (P : preserves
                (fun s => map frame_key (State.frames s) =
                          map frame_key (State.frames st) /\ refs_point_home s)
                (for_each (enumerate (State.frames st)) (identify_frame C))).
  { apply preserves_for_each. intros [i fd] Hin.
    apply (identify_frame_refs (State.frames st) i fd).
    exact (enumerate_nth _ _ _ Hin). }
  specialize (P st w (conj eq_refl HR)). unfold state_of in *.
  destruct (for_each (enumerate (State.frames st)) (identify_frame C) st w)
    as [[[u|e] s1] w1]; cbn [fst snd] in *; apply P.
Qed.

Lemma refs_same_timestamps (s s' : State.t) :
  State.frames s' = State.frames s ->
  map ProductInfo.timestamp (State.products s') =
  map ProductInfo.timestamp (State.products s) ->
  refs_point_home s -> refs_point_home s'.
Proof.
  unfold refs_point_home. intros -> E H.
  eapply Forall_impl; [|exact H]. cbv beta. intros f Hf.
  eapply Forall_impl; [|exact Hf]. cbv beta. intros ref (q & Hq & Ht).
  destruct (nth_error_same_key ProductInfo.timestamp _ _ ref q E Hq)
    as (q' & Hq' & Et).
  exists q'. split; [exact Hq' | congruence].
Qed.

Ltac keeps_timestamps :=
  repeat step_preserves;
  intros; cbn [State.frames State.products State.set_video_id
               State.set_video_path State.set_frames State.set_products] in *;
  rewrite ?map_update_nth_same by reflexivity;
  try assumption.

Lemma later_stages_keep_timestamps (st : State.t) (w : World C) :
  (State.frames (fst (_extract_video C st w)) = State.frames st /\
   map ProductInfo.timestamp (State.products (fst (_extract_video C st w))) =
   map ProductInfo.timestamp (State.products st)) /\
  (State.frames (fst (_segment_products C st w)) = State.frames st /\
   map ProductInfo.timestamp (State.products (fst (_segment_products C st w))) =
   map ProductInfo.timestamp (State.products st)) /\
  (State.frames (fst (_enhance_products C st w)) = State.frames st /\
   map ProductInfo.timestamp (State.products (fst (_enhance_products C st w))) =
   map ProductInfo.timestamp (State.products st)).
Proof.
  split; [|split].
  - unfold _extract_video.
    apply (try_stage_preserves C
             (fun s => State.frames s = State.frames st /\
                       map ProductInfo.timestamp (State.products s) =
                       map ProductInfo.timestamp (State.products st)));
      [| intros e s H; exact H | auto].
    unfold extract_video_body. keeps_timestamps.
  - unfold _segment_products.
    apply (try_stage_preserves C
             (fun s => State.frames s = State.frames st /\
                       map ProductInfo.timestamp (State.products s) =
                       map ProductInfo.timestamp (State.products st)));
      [| intros e s H; exact H | auto].
    unfold segment_products_body, segment_product, set_product. keeps_timestamps.
  - unfold _enhance_products.
    apply (try_stage_preserves C
             (fun s => State.frames s = State.frames st /\
                       map ProductInfo.timestamp (State.products s) =
                       map ProductInfo.timestamp (State.products st)));
      [| intros e s H; exact H | auto].
    unfold enhance_products_body, enhance_product, enhance_style, set_product.
    keeps_timestamps.
Qed.

Lemma sampler_keeps_products (st : State.t) (w : World C) :
  State.products (fst (_extract_frames C st w)) = State.products st.
Proof.
  unfold _extract_frames.
  apply (try_stage_preserves C (fun s => State.products s = State.products st));
    [| intros e s H; exact H | auto].
  unfold extract_frames_body, read_frame. keeps_timestamps.
Qed.

Lemma refs_set_error (e : option string) (s : State.t) :
  refs_point_home s -> refs_point_home (State.set_error e s).
Proof. intros H. exact H. Qed.

(** X12.  The references from frames to products stay true through the
    whole workflow.  Each of the five stages, raising or not, takes a
    state in which every product listed in a frame's [products_detected]
    is a product of [products] with the timestamp of that frame to
    another such state; so this holds of the state in which every run of
    the workflow ends. *)
Theorem frames_refer_to_their_products :
  Forall (fun node : stage C =>
            forall st w, refs_point_home st -> refs_point_home (fst (node st w)))
         (workflow_nodes C) /\
  (forall url w,
      refs_point_home (fst (invoke C (workflow_nodes C) (initial_state url) w))).
Proof.
  assert (Each : Forall (fun node : stage C =>
            forall st w, refs_point_home st -> refs_point_home (fst (node st w)))
         (workflow_nodes C)).
  { unfold workflow_nodes.
    repeat (apply Forall_cons; [|]); try apply Forall_nil; intros st w HR.
    - destruct (later_stages_keep_timestamps st w) as ((F & T) & _).
      exact (refs_same_timestamps _ _ F T HR).
    - destruct (extract_frames_fresh C st w) as [F|F].
      + apply (refs_same_timestamps st); [exact F | | exact HR].
        now rewrite sampler_keeps_products.
      + unfold refs_point_home. eapply Forall_impl; [|exact F]. cbv beta.
        intros f ->. constructor.
    - unfold _identify_products.
      apply (try_stage_preserves C refs_point_home);
        [apply identify_products_refs | intros e s H; exact H | exact HR].
    - destruct (later_stages_keep_timestamps st w) as (_ & (F & T) & _).
      exact (refs_same_timestamps _ _ F T HR).
    - destruct (later_stages_keep_timestamps st w) as (_ & _ & (F & T)).
      exact (refs_same_timestamps _ _ F T HR). }
  split; [exact Each|].
  intros url w.
  assert (Init : refs_point_home (initial_state url)) by constructor.
  revert Each Init. generalize (initial_state url) as st, (workflow_nodes C) as nodes.
  intros st nodes. revert st w.
  induction nodes as [|node nodes IH]; intros st w Each Init; cbn [invoke].
  - exact Init.
  - inversion Each as [|? ? H1 H2]; subst.
    specialize (H1 st w Init). destruct (node st w) as [st1 w1]. cbn [fst] in H1.
    apply IH; assumption.
Qed.

End References.

(* ================================================================== *)
(** ** How far the Isolator and the Enhancer get *)

Section Progress.

Context (C : Collaborators).

(** A loop whose rounds are atomic stops at the first round that raises,
    with the state the rounds before it have left. *)
Lemma for_each_stops {A} (body : A -> M C unit) (l : list A) st w :
  (forall x, atomic (body x)) ->
  exists done rest s1 w1,
    l = (done ++ rest)%list /\
    for_each done body st w = (Ok tt, s1, w1) /\
    state_of (for_each l body st w) = s1 /\
    (out_of (for_each l body st w) = Ok tt -> rest = []) /\
    (forall e, out_of (for_each l body st w) = Raise e ->
               exists x rest', rest = x :: rest' /\
                               out_of (body x s1 w1) = Raise e).
Proof.
  intros Hb. revert st w. induction l as [|x l IH]; intros st w.
  - exists [], [], st, w. cbn [for_each app]. unfold ret, out_of, state_of.
    cbn [fst snd]. repeat split; auto. intros e H. discriminate H.
  - cbn [for_each]. unfold bind.
    destruct (body x st w) as [[[[]|e] s2] w2] eqn:E.
    + destruct (IH s2 w2) as (done & rest & s1 & w1 & -> & H1 & H2 & H3 & H4).
      exists (x :: done), rest, s1, w1.
      split; [reflexivity|]. split; [|auto].
      cbn [for_each]. unfold bind. rewrite E. exact H1.
    + exists [], (x :: l), st, w.
      split; [reflexivity|]. split; [reflexivity|].
      pose proof (Hb x st w e) as K. unfold out_of, state_of in *.
      rewrite E in K. cbn [fst snd] in *.
      split; [apply K; reflexivity|].
      split; [intros H; discriminate H|].
      intros e' H. exists x, l. split; [reflexivity|].
      rewrite E. exact H.
Qed.

Lemma app_same_length {A} (a b a' b' : list A) :
  (a ++ b = a' ++ b')%list -> List.length a = List.length a' ->
  a = a' /\ b = b'.
Proof.
  revert a'. induction a as [|x a IH]; intros [|y a'] E L; try discriminate L.
  - auto.
  - cbn [app] in E. injection E as -> E. cbn [List.length] in L.
    destruct (IH a' E) as (-> & ->); [lia | auto].
Qed.

Lemma seq_prefix (n : nat) (done rest : list nat) :
  seq 0 n = (done ++ rest)%list ->
  done = seq 0 (List.length done) /\
  rest = seq (List.length done) (n - List.length done) /\
  (List.length done + List.length rest = n)%nat.
Proof.
  intros E.
  assert (L : (n = List.length done + List.length rest)%nat).
  { rewrite <- length_app, <- E, length_seq. reflexivity. }
  subst n. rewrite seq_app in E. cbn [plus] in E.
  apply app_same_length in E; [|now rewrite length_seq].
  destruct E as (E1 & E2).
  replace (List.length done + List.length rest - List.length done)%nat
    with (List.length rest) by lia.
  auto.
Qed.

Lemma segment_product_atomic (j : nat) : atomic (segment_product C j).
Proof.
  unfold segment_product.
  repeat match goal with
         | |- atomic (bind (set_product _ _ _) _) =>
             let H := fresh in
             intros ? ? ? H;
             unfold out_of, bind, set_product, modify, gets in H;
             cbn [fst snd] in H; discriminate H
         | _ => step_atomic
         end.
Qed.

Lemma enhance_product_atomic (j : nat) : atomic (enhance_product C j).
Proof.
  unfold enhance_product, enhance_style, set_product. repeat step_atomic.
Qed.

(** What the first [k] rounds of the Isolator, all returned, have done
    to the product at a position. *)
Lemma segment_prefix_at (k j : nat) p st w s1 w1 :
  for_each (seq 0 k) (segment_product C) st w = (Ok tt, s1, w1) ->
  nth_error (State.products st) j = Some p ->
  State.frames s1 = State.frames st /\
  State.video_id s1 = State.video_id st /\
  ((k <= j)%nat -> nth_error (State.products s1) j = Some p) /\
  ((j < k)%nat -> find_frame (State.frames st) p = None ->
   nth_error (State.products s1) j = Some p) /\
  ((j < k)%nat -> forall fd,
   find_frame (State.frames st) p = Some fd ->
   exists name_,
     py_replace (ProductInfo.name p) " " "_" = Ok name_ /\
     nth_error (State.products s1) j =
     Some (ProductInfo.set_frame_image_path
             (matched_frame_path (State.video_id st) fd)
             (ProductInfo.set_segmented_image_path
                (segmented_public_path name_ (ProductInfo.timestamp p)) p))).
Proof.
  intros H Hp.
  destruct (Nat.le_gt_cases k j) as [Hkj|Hjk].
  - assert (N : ~ In j (seq 0 k)) by (rewrite in_seq; lia).
    destruct (segment_rounds_elsewhere C _ j p _ _ _ _ _ N H Hp) as (P & F & V).
    repeat split; auto; intros; lia.
  - destruct (for_each_seq_at _ _ _ _ _ _ _ Hjk H)
      as (sa & wa & sb & wb & Ha & Hb & Hc).
    assert (N1 : ~ In j (seq 0 j)) by (rewrite in_seq; lia).
    assert (N2 : ~ In j (seq (S j) (k - S j))) by (rewrite in_seq; lia).
    destruct (segment_rounds_elsewhere C _ j p _ _ _ _ _ N1 Ha Hp)
      as (Pa & Fa & Va).
    destruct (find_frame (State.frames st) p) as [fd|] eqn:Ef.
    + rewrite <- Fa in Ef.
      destruct (segment_product_matched C j p fd sa wa sb wb Pa Ef Hb)
        as (name_ & Hn & ->).
      assert (Pb : nth_error
                     (State.products
                        (State.set_products
                           (update_nth j
                              (ProductInfo.set_frame_image_path
                                 (matched_frame_path (State.video_id sa) fd))
                              (update_nth j
                                 (ProductInfo.set_segmented_image_path
                                    (segmented_public_path name_
                                       (ProductInfo.timestamp p)))
                                 (State.products sa))) sa)) j =
                   Some (ProductInfo.set_frame_image_path
                           (matched_frame_path (State.video_id sa) fd)
                           (ProductInfo.set_segmented_image_path
                              (segmented_public_path name_
                                 (ProductInfo.timestamp p)) p))).
      { cbn [State.products State.set_products].
        apply nth_error_update_nth_same. apply nth_error_update_nth_same.
        exact Pa. }
      destruct (segment_rounds_elsewhere C _ j _ _ _ _ _ _ N2 Hc Pb)
        as (Pc & Fc & Vc).
      cbn [State.frames State.video_id State.set_products] in Fc, Vc.
      rewrite Va in Pc.
      repeat split; try congruence; try (intros; lia).
      intros _ fd' [= <-]. exists name_. auto.
    + rewrite <- Fa in Ef.
      rewrite (segment_product_unmatched C j p sa wa Pa Ef) in Hb.
      injection Hb as <- <-.
      destruct (segment_rounds_elsewhere C _ j p _ _ _ _ _ N2 Hc Pa)
        as (Pc & Fc & Vc).
      repeat split; try congruence; try (intros; lia).
Qed.

(** X13.  The Isolator stops at the first product whose round raises.
    There is a position [k] such that every product before [k] has been
    dealt with as in a run that returns (left alone without a matching
    frame, given both image paths with one), and the product at [k] and
    all after it are untouched: no product ever has one path without
    the other.  [k] is the number of products when the body returns;
    when it raises, the product at [k] is one with a matching frame. *)
Theorem isolator_stops_where_it_raises (st : State.t) (w : World C) :
  exists k : nat,
    (k <= List.length (State.products st))%nat /\
    (out_of (segment_products_body C st w) = Ok tt ->
     k = List.length (State.products st)) /\
    (forall e, out_of (segment_products_body C st w) = Raise e ->
               exists p fd,
                 nth_error (State.products st) k = Some p /\
                 find_frame (State.frames st) p = Some fd) /\
    (forall j p,
        nth_error (State.products st) j = Some p ->
        ((k <= j)%nat ->
         nth_error (State.products (fst (_segment_products C st w))) j = Some p) /\
        ((j < k)%nat -> find_frame (State.frames st) p = None ->
         nth_error (State.products (fst (_segment_products C st w))) j = Some p) /\
        ((j < k)%nat -> forall fd,
         find_frame (State.frames st) p = Some fd ->
         exists name_,
           py_replace (ProductInfo.name p) " " "_" = Ok name_ /\
           nth_error (State.products (fst (_segment_products C st w))) j =
           Some (ProductInfo.set_frame_image_path
                   (matched_frame_path (State.video_id st) fd)
                   (ProductInfo.set_segmented_image_path
                      (segmented_public_path name_ (ProductInfo.timestamp p))
                      p)))).
Proof.
  destruct (for_each_stops (segment_product C)
              (seq 0 (List.length (State.products st))) st w
              segment_product_atomic)
    as (done & rest & s1 & w1 & E & Hd & Hs & Hok & Hraise).
  destruct (seq_prefix _ _ _ E) as (Ed & Er & L).
  rewrite Ed in Hd.
  assert (Body : segment_products_body C st w =
                 for_each (seq 0 (List.length (State.products st)))
                   (segment_product C) st w) by reflexivity.
  assert (After : State.products (fst (_segment_products C st w)) =
                  State.products s1).
  { unfold _segment_products, try_stage. rewrite Body.
    unfold state_of in Hs.
    destruct (for_each (seq 0 (List.length (State.products st)))
                (segment_product C) st w) as [[[u|e] s2] w2];
      cbn [fst snd] in *; subst s2; reflexivity. }
  exists (List.length done). split; [lia|]. split; [|split].
  - rewrite Body. intros H. rewrite (Hok H) in L. cbn [List.length] in L. lia.
  - rewrite Body. intros e H. destruct (Hraise e H) as (x & rest' & Ex & Hx).
    assert (x = List.length done /\ (List.length done < List.length (State.products st))%nat)
      as (-> & Lt).
    { rewrite Ex in Er.
      destruct (List.length (State.products st) - List.length done)%nat
        as [|m] eqn:Em; [discriminate Er|].
      cbn [seq] in Er. injection Er as -> _. split; [reflexivity | lia]. }
    destruct (nth_error (State.products st) (List.length done)) as [p|] eqn:Ep.
    2:{ apply nth_error_None in Ep. lia. }
    destruct (segment_prefix_at _ _ p _ _ _ _ Hd Ep) as (F & V & Same & _).
    specialize (Same (Nat.le_refl _)).
    destruct (find_frame (State.frames st) p) as [fd|] eqn:Ef.
    + exists p, fd. auto.
    + rewrite <- F in Ef.
      rewrite (segment_product_unmatched C _ p s1 w1 Same Ef) in Hx.
      discriminate Hx.
  - intros j p Hp. rewrite After.
    destruct (segment_prefix_at _ _ p _ _ _ _ Hd Hp) as (_ & _ & H1 & H2 & H3).
    auto.
Qed.

(** What the first [k] rounds of the Enhancer, all returned, have done
    to the product at a position. *)
Lemma enhance_prefix_at (k j : nat) p st w s1 w1 :
  for_each (seq 0 k) (enhance_product C) st w = (Ok tt, s1, w1) ->
  nth_error (State.products st) j = Some p ->
  ((k <= j)%nat -> nth_error (State.products s1) j = Some p) /\
  ((j < k)%nat -> ProductInfo.segmented_image_path p = "" ->
   nth_error (State.products s1) j = Some p) /\
  ((j < k)%nat -> ProductInfo.segmented_image_path p <> "" ->
   exists name_,
     py_replace (ProductInfo.name p) " " "_" = Ok name_ /\
     nth_error (State.products s1) j =
     Some (ProductInfo.set_enhanced_images
             (three_renders name_ (ProductInfo.timestamp p)) p)).
Proof.
  intros H Hp.
  destruct (Nat.le_gt_cases k j) as [Hkj|Hjk].
  - assert (N : ~ In j (seq 0 k)) by (rewrite in_seq; lia).
    pose proof (enhance_rounds_elsewhere C _ j p _ _ _ _ _ N H Hp) as P.
    repeat split; auto; intros; lia.
  - destruct (for_each_seq_at _ _ _ _ _ _ _ Hjk H)
      as (sa & wa & sb & wb & Ha & Hb & Hc).
    assert (N1 : ~ In j (seq 0 j)) by (rewrite in_seq; lia).
    assert (N2 : ~ In j (seq (S j) (k - S j))) by (rewrite in_seq; lia).
    pose proof (enhance_rounds_elsewhere C _ j p _ _ _ _ _ N1 Ha Hp) as Pa.
    destruct (String.eqb_spec (ProductInfo.segmented_image_path p) "") as [Es|Es].
    + rewrite (enhance_product_skipped C j p sa wa Pa Es) in Hb.
      injection Hb as <- <-.
      pose proof (enhance_rounds_elsewhere C _ j p _ _ _ _ _ N2 Hc Pa) as Pc.
      repeat split; try congruence; try (intros; lia).
    + destruct (enhance_product_rendered C j p sa wa sb wb Pa Es Hb)
        as (name_ & Hn & ->).
      assert (Pb : nth_error
                     (State.products
                        (State.set_products
                           (update_nth j
                              (ProductInfo.set_enhanced_images
                                 (three_renders name_ (ProductInfo.timestamp p)))
                              (State.products sa)) sa)) j =
                   Some (ProductInfo.set_enhanced_images
                           (three_renders name_ (ProductInfo.timestamp p)) p)).
      { cbn [State.products State.set_products].
        apply nth_error_update_nth_same. exact Pa. }
      pose proof (enhance_rounds_elsewhere C _ j _ _ _ _ _ _ N2 Hc Pb) as Pc.
      repeat split; try (intros; lia).
      * intros _ E0. contradiction.
      * intros _ _. exists name_. auto.
Qed.

(** X14.  The Enhancer stops at the first product whose round raises.
    There is a position [k] such that every product before [k] has been
    dealt with as in a run that returns (left alone when it has no
    isolated image, given its three renders when it has one), and the
    product at [k] and all after it are untouched: a product never ends
    up with one or two renders of a round.  [k] is the number of
    products when the body returns; when it raises, the product at [k]
    is one with an isolated image. *)
Theorem enhancer_stops_where_it_raises (st : State.t) (w : World C) :
  exists k : nat,
    (k <= List.length (State.products st))%nat /\
    (out_of (enhance_products_body C st w) = Ok tt ->
     k = List.length (State.products st)) /\
    (forall e, out_of (enhance_products_body C st w) = Raise e ->
               exists p,
                 nth_error (State.products st) k = Some p /\
                 ProductInfo.segmented_image_path p <> "") /\
    (forall j p,
        nth_error (State.products st) j = Some p ->
        ((k <= j)%nat ->
         nth_error (State.products (fst (_enhance_products C st w))) j = Some p) /\
        ((j < k)%nat -> ProductInfo.segmented_image_path p = "" ->
         nth_error (State.products (fst (_enhance_products C st w))) j = Some p) /\
        ((j < k)%nat -> ProductInfo.segmented_image_path p <> "" ->
         exists name_,
           py_replace (ProductInfo.name p) " " "_" = Ok name_ /\
           nth_error (State.products (fst (_enhance_products C st w))) j =
           Some (ProductInfo.set_enhanced_images
                   (three_renders name_ (ProductInfo.timestamp p)) p))).
Proof.
  destruct (for_each_stops (enhance_product C)
              (seq 0 (List.length (State.products st))) st w
              enhance_product_atomic)
    as (done & rest & s1 & w1 & E & Hd & Hs & Hok & Hraise).
  destruct (seq_prefix _ _ _ E) as (Ed & Er & L).
  rewrite Ed in Hd.
  assert (Body : enhance_products_body C st w =
                 for_each (seq 0 (List.length (State.products st)))
                   (enhance_product C) st w) by reflexivity.
  assert (After : State.products (fst (_enhance_products C st w)) =
                  State.products s1).
  { unfold _enhance_products, try_stage. rewrite Body.
    unfold state_of in Hs.
    destruct (for_each (seq 0 (List.length (State.products st)))
                (enhance_product C) st w) as [[[u|e] s2] w2];
      cbn [fst snd] in *; subst s2; reflexivity. }
  exists (List.length done). split; [lia|]. split; [|split].
  - rewrite Body. intros H. rewrite (Hok H) in L. cbn [List.length] in L. lia.
  - rewrite Body. intros e H. destruct (Hraise e H) as (x & rest' & Ex & Hx).
    assert (x = List.length done /\ (List.length done < List.length (State.products st))%nat)
      as (-> & Lt).
    { rewrite Ex in Er.
      destruct (List.length (State.products st) - List.length done)%nat
        as [|m] eqn:Em; [discriminate Er|].
      cbn [seq] in Er. injection Er as -> _. split; [reflexivity | lia]. }
    destruct (nth_error (State.products st) (List.length done)) as [p|] eqn:Ep.
    2:{ apply nth_error_None in Ep. lia. }
    destruct (enhance_prefix_at _ _ p _ _ _ _ Hd Ep) as (Same & _).
    specialize (Same (Nat.le_refl _)).
    exists p. split; [reflexivity|]. intros Es.
    rewrite (enhance_product_skipped C _ p s1 w1 Same Es) in Hx.
    discriminate Hx.
  - intros j p Hp. rewrite After.
    destruct (enhance_prefix_at _ _ p _ _ _ _ Hd Hp) as (H1 & H2 & H3).
    auto.
Qed.

End Progress.

(* ================================================================== *)
(** ** The metadata endpoint *)

Section VideoInfoFacts.

Import Main.

Context (W : Web).

Lemma int_of_digits_nonneg (group : string) : (0 <= int_of_digits group)%Z.
Proof.
  unfold int_of_digits. destruct (NilEmpty.uint_of_string group) as [d|]; [|lia].
  unfold Z.of_uint. apply N2Z.is_nonneg.
Qed.

Lemma parse_iso_duration_nonneg (s : string) : (0 <= parse_iso_duration s)%Z.
Proof.
  unfold parse_iso_duration. cbv zeta.
  destruct (re_search "H" (slice_from 2 s)) as [h|];
    destruct (re_search "M" (slice_from 2 s)) as [m|];
    destruct (re_search "S" (slice_from 2 s)) as [x|];
    try pose proof (int_of_digits_nonneg h);
    try pose proof (int_of_digits_nonneg m);
    try pose proof (int_of_digits_nonneg x); lia.
Qed.

(** The two ways in which the reading of the body returns. *)
Lemma read_body_ok (data : pyval) (info : VideoInfo) :
  read_body W data = Ok info ->
  info = {| title := PStr "Video not found"; duration := "Unknown";
            duration_seconds := 0;
            info_error := Some "Video not found or private" |} \/
  exists items video_item snippet title_ details iso,
    py_getitem data "items" = Ok items /\ truthy items = true /\
    py_first items = Ok video_item /\
    py_getitem video_item "snippet" = Ok snippet /\
    py_getitem snippet "title" = Ok title_ /\
    py_getitem video_item "contentDetails" = Ok details /\
    py_getitem details "duration" = Ok (PStr iso) /\
    info = {| title := title_;
              duration := duration_str (parse_iso_duration iso);
              duration_seconds := parse_iso_duration iso;
              info_error := None |}.
Proof.
  unfold read_body. intros H.
  apply obind_inv in H. destruct H as (got & Hg & H).
  destruct (truthy got) eqn:T; cbn [negb] in H.
  - right.
    apply obind_inv in H. destruct H as (items & Hi & H).
    assert (got = items) as ->.
    { destruct data; try discriminate Hg. cbn [py_get py_getitem] in Hg, Hi.
      destruct (lookup "items" entries); [congruence | discriminate Hi]. }
    apply obind_inv in H. destruct H as (video_item & Hv & H).
    apply obind_inv in H. destruct H as (snippet & Hs & H).
    apply obind_inv in H. destruct H as (title_ & Ht & H).
    apply obind_inv in H. destruct H as (details & Hd & H).
    apply obind_inv in H. destruct H as (iso & Hiso & H).
    apply obind_inv in H. destruct H as (seconds & Hsec & H).
    destruct iso; try discriminate Hsec. cbn [parse_value] in Hsec.
    injection Hsec as <-. injection H as <-.
    exists items, video_item, snippet, title_, details, s. auto 10.
  - left. now injection H as <-.
Qed.

(** X5.  The answer of the metadata endpoint, whatever the catalog
    replies.  The display is always the one of the seconds returned,
    which are never negative; an answer with an error has 0 seconds,
    the display [Unknown] and one of the two stock titles; an answer
    without an error carries the title and the parsed duration of the
    first item of the body.  Without an API key (unset or empty) no
    request is made. *)
Theorem get_video_info_answers (video_id : string) (net : Net W) :
  duration (fst (get_video_info W video_id net)) =
  duration_str (duration_seconds (fst (get_video_info W video_id net))) /\
  (0 <= duration_seconds (fst (get_video_info W video_id net)))%Z /\
  (info_error (fst (get_video_info W video_id net)) <> None ->
   duration_seconds (fst (get_video_info W video_id net)) = 0%Z /\
   duration (fst (get_video_info W video_id net)) = "Unknown" /\
   (title (fst (get_video_info W video_id net)) = PStr "YouTube Video" \/
    title (fst (get_video_info W video_id net)) = PStr "Video not found")) /\
  (info_error (fst (get_video_info W video_id net)) = None ->
   exists key data net' items video_item snippet details iso,
     getenv_key W net = Some key /\ key <> "" /\
     fetch W video_id key net = (Body data, net') /\
     py_getitem data "items" = Ok items /\
     py_first items = Ok video_item /\
     py_getitem video_item "snippet" = Ok snippet /\
     py_getitem snippet "title" =
     Ok (title (fst (get_video_info W video_id net))) /\
     py_getitem video_item "contentDetails" = Ok details /\
     py_getitem details "duration" = Ok (PStr iso) /\
     duration_seconds (fst (get_video_info W video_id net)) =
     parse_iso_duration iso) /\
  (getenv_key W net = None \/ getenv_key W net = Some "" ->
   get_video_info W video_id net =
   (failure "YouTube API key not configured", net)).
Proof.
  unfold get_video_info.
  destruct (getenv_key W net) as [key|] eqn:K.
  2:{ cbn [fst failure duration duration_seconds info_error title].
      repeat split; try reflexivity; try lia; try (intros; discriminate); auto. }
  destruct (String.eqb_spec key "") as [->|Ne].
  { cbn [fst failure duration duration_seconds info_error title].
    repeat split; try reflexivity; try lia; try (intros; discriminate); auto. }
  destruct (fetch W video_id key net) as [[message|e|data] net'] eqn:F.
  1,2: cbn [fst failure duration duration_seconds info_error title];
    repeat split; try reflexivity; try lia; try (intros; discriminate); auto;
    intros [|]; congruence.
  destruct (read_body W data) as [info|e] eqn:R.
  2:{ cbn [fst failure duration duration_seconds info_error title].
      repeat split; try reflexivity; try lia; try (intros; discriminate); auto.
      intros [|]; congruence. }
  cbn [fst].
  destruct (read_body_ok data info R)
    as [->|(items & video_item & snippet & title_ & details & iso &
            Hi & Ti & Hv & Hs & Ht & Hd & Hiso & ->)];
    cbn [duration duration_seconds info_error title].
  - repeat split; try reflexivity; try lia; try (intros; discriminate); auto.
    intros [|]; congruence.
  - split; [reflexivity|]. split; [apply parse_iso_duration_nonneg|].
    split; [intros N; now contradiction N|].
    split; [|intros [|]; congruence].
    intros _. exists key, data, net', items, video_item, snippet, details, iso.
    auto 12.
Qed.

End VideoInfoFacts.

(* ================================================================== *)
(** ** The products of a run that completed *)

Section CompletedRuns.

Context (C : Collaborators).

(** A run is reported as completed only when no stage raised. *)
Lemma completed_no_failure url w products message w' :
  process_video C url w = (Completed products message, w') ->
  failures C (stage_bodies C) (initial_state url) w = [] /\
  products =
  State.products (fst (invoke C (workflow_nodes C) (initial_state url) w)) /\
  message = success_message products.
Proof.
  intros H.
  assert (K : Forall (fun lb : string * M C unit =>
                forall e0, preserves (fun s => State.error s = e0) (snd lb))
                (stage_bodies C)).
  { apply Forall_forall. intros lb Hin e0.
    exact (proj1 (Forall_forall _ _) (bodies_keep_error C e0) lb Hin). }
  pose proof (invoke_error C (stage_bodies C) K (initial_state url) w) as E.
  change (map (fun lb => try_stage C (fst lb) (snd lb)) (stage_bodies C))
    with (workflow_nodes C) in E.
  cbn [State.error initial_state] in E.
  unfold process_video in H.
  destruct (invoke C (workflow_nodes C) (initial_state url) w) as [final wf].
  cbn [fst] in *.
  pose proof (failures_labelled C (stage_bodies C) (initial_state url) w) as L.
  destruct (failures C (stage_bodies C) (initial_state url) w) as [|m0 ms].
  - cbn [map last] in E. rewrite E in H. injection H as <- <- _. auto.
  - exfalso.
    pose proof (last_in (map Some (m0 :: ms)) None ltac:(discriminate)) as G.
    rewrite <- E in G. apply in_map_iff in G. destruct G as (msg & Em & Hin).
    rewrite <- Em in H.
    destruct (proj1 (Forall_forall _ _) L msg Hin) as (label & x & Hl & ->).
    assert (N : (label ++ exn_str C x =? "")%string = false).
    { apply String.eqb_neq. cbn in Hl.
      destruct Hl as [<-|[<-|[<-|[<-|[<-|[]]]]]]; discriminate. }
    rewrite N in H. cbn [negb] in H. discriminate H.
Qed.

(** Every product in the state after the Detector has a frame within
    the tolerance, when there was no product before. *)
Lemma detector_products_findable (st : State.t) (w : World C) :
  State.products st = [] ->
  Forall (fun p =>
            find_frame (State.frames (fst (_identify_products C st w))) p <> None)
         (State.products (fst (_identify_products C st w))).
Proof.
  intros Hnil.
  assert (B : detected_since
                (fun t => exists f, In f (State.frames st) /\ t = Frame.timestamp f)
                st (state_of (identify_products_body C st w))).
  { unfold identify_products_body. rewrite bind_gets.
    apply preserves_for_each; [|apply detected_since_refl].
    intros [i fd] Hin. apply identify_frame_detected.
    exists fd. split; [exact (enumerate_In _ _ _ Hin) | reflexivity]. }
  assert (K : detected_since
                (fun t => exists f, In f (State.frames st) /\ t = Frame.timestamp f)
                st (fst (_identify_products C st w))).
  { unfold _identify_products, try_stage. unfold state_of in B.
    destruct (identify_products_body C st w) as [[[u|e] s1] w1]; exact B. }
  destruct K as (HF & new & E & Hnew). rewrite E, Hnil. cbn [app].
  eapply Forall_impl; [|exact Hnew]. cbv beta. intros p (f & Hin & Ht).
  apply find_frame_same.
  assert (Hk : In (frame_key f) (map frame_key (State.frames st)))
    by now apply in_map.
  rewrite <- HF in Hk. apply in_map_iff in Hk.
  destruct Hk as (f' & Ek & Hin'). exists f'. split; [exact Hin'|].
  rewrite Ht. unfold frame_key in Ek. now injection Ek.
Qed.

Ltac keeps :=
  repeat step_preserves;
  intros; cbn [State.frames State.products State.video_id State.set_video_id
               State.set_video_path State.set_frames State.set_products] in *;
  rewrite ?length_update_nth;
  try assumption.

Lemma before_detector_no_product :
  preserves (fun s => State.products s = []) (extract_video_body C) /\
  preserves (fun s => State.products s = []) (extract_frames_body C).
Proof.
  split; [unfold extract_video_body | unfold extract_frames_body, read_frame];
    keeps.
Qed.

Lemma after_detector_keeps (F : list Frame.t) (V : string) (n : nat) :
  preserves (fun s => State.frames s = F /\ State.video_id s = V /\
                      List.length (State.products s) = n)
            (segment_products_body C) /\
  preserves (fun s => State.frames s = F /\ State.video_id s = V /\
                      List.length (State.products s) = n)
            (enhance_products_body C).
Proof.
  split; [unfold segment_products_body, segment_product, set_product
         | unfold enhance_products_body, enhance_product, enhance_style,
             set_product];
    keeps.
Qed.

(** X15.  The products of a run that [process_video] reports as
    completed.  The message counts them, and every one of them is
    finished: it has a frame within the tolerance, the public path of
    that frame, the public path of its isolated image and exactly the
    three renders, in style order.  A completed run returns no product
    that was left without its images. *)
Theorem completed_products_are_finished url w products message w' :
  process_video C url w = (Completed products message, w') ->
  products =
  State.products (fst (invoke C (workflow_nodes C) (initial_state url) w)) /\
  message = success_message products /\
  Forall (fun p =>
            exists name_ fd,
              find_frame
                (State.frames
                   (fst (invoke C (workflow_nodes C) (initial_state url) w))) p
              = Some fd /\
              py_replace (ProductInfo.name p) " " "_" = Ok name_ /\
              ProductInfo.frame_image_path p =
              matched_frame_path
                (State.video_id
                   (fst (invoke C (workflow_nodes C) (initial_state url) w))) fd /\
              ProductInfo.segmented_image_path p =
              segmented_public_path name_ (ProductInfo.timestamp p) /\
              ProductInfo.enhanced_images p =
              three_renders name_ (ProductInfo.timestamp p))
         products.
Proof.
  intros H. destruct (completed_no_failure _ _ _ _ _ H) as (Ef & -> & ->).
  split; [reflexivity|]. split; [reflexivity|]. clear H.
  cbn [failures stage_bodies] in Ef. cbn [invoke workflow_nodes].
  unfold _extract_video, _extract_frames, _identify_products at 1 2 3,
    _segment_products, _enhance_products.
  unfold try_stage at 1 2 3 4 5 6 7 8 9 10 11 12 13 14 15.
  destruct (extract_video_body C (initial_state url) w)
    as [[[[]|e1] s1] w1] eqn:B1; [|discriminate Ef].
  destruct (extract_frames_body C s1 w1)
    as [[[[]|e2] s2] w2] eqn:B2; [|discriminate Ef].
  pose proof (detector_products_findable s2 w2) as D.
  unfold _identify_products, try_stage in D.
  destruct (identify_products_body C s2 w2)
    as [[[[]|e3] s3] w3] eqn:B3; [|discriminate Ef].
  destruct (segment_products_body C s3 w3)
    as [[[[]|e4] s4] w4] eqn:B4; [|discriminate Ef].
  destruct (enhance_products_body C s4 w4)
    as [[[[]|e5] s5] w5] eqn:B5; [|discriminate Ef].
  cbn [fst] in *.
  destruct before_detector_no_product as (N1 & N2).
  pose proof (preserves_run _ _ _ _ _ _ _ N1 B1 eq_refl) as P1.
  pose proof (preserves_run _ _ _ _ _ _ _ N2 B2 P1) as P2.
  specialize (D P2).
  destruct (after_detector_keeps (State.frames s3) (State.video_id s3)
              (List.length (State.products s3))) as (K4 & K5).
  pose proof (preserves_run _ _ _ _ _ _ _ K4 B4 (conj eq_refl (conj eq_refl eq_refl)))
    as (F4 & V4 & L4).
  pose proof (preserves_run _ _ _ _ _ _ _ K5 B5 (conj F4 (conj V4 L4)))
    as (F5 & V5 & L5).
  unfold segment_products_body in B4. rewrite bind_gets in B4.
  unfold enhance_products_body in B5. rewrite bind_gets in B5.
  apply Forall_forall. intros p5 Hin.
  apply In_nth_error in Hin. destruct Hin as (j & Hj).
  assert (Lj : (j < List.length (State.products s5))%nat).
  { apply nth_error_Some. congruence. }
  destruct (nth_error (State.products s3) j) as [p3|] eqn:E3.
  2:{ apply nth_error_None in E3. lia. }
  pose proof (proj1 (Forall_forall _ _) D p3 (nth_error_In _ _ E3)) as Hf.
  destruct (find_frame (State.frames s3) p3) as [fd|] eqn:Efd; [|contradiction].
  destruct (segment_prefix_at C _ _ p3 _ _ _ _ B4 E3) as (_ & _ & _ & _ & M).
  destruct (M ltac:(lia) fd Efd) as (name_ & Hn & E4).
  destruct (enhance_prefix_at C _ _ _ _ _ _ _ B5 E4) as (_ & _ & R).
  destruct (R ltac:(lia)) as (name' & Hn' & E5).
  { cbn. discriminate. }
  cbn [ProductInfo.name ProductInfo.timestamp ProductInfo.set_frame_image_path
       ProductInfo.set_segmented_image_path] in Hn', E5.
  assert (name' = name_) by congruence. subst name'.
  rewrite Hj in E5. injection E5 as ->.
  exists name_, fd. rewrite F5, V5.
  repeat split; try reflexivity; try assumption.
Qed.

End CompletedRuns.

(** The ten-second video: the run completes, and its one product is
    finished. *)
Lemma completed_products_are_finished_witness :
  let C := Demo.collaborators Demo.ten_seconds in
  let final :=
    fst (invoke C (workflow_nodes C) (initial_state "https://youtu.be/abc") tt) in
  Forall (fun p =>
            exists name_ fd,
              find_frame (State.frames final) p = Some fd /\
              py_replace (ProductInfo.name p) " " "_" = Ok name_ /\
              ProductInfo.frame_image_path p =
              matched_frame_path (State.video_id final) fd /\
              ProductInfo.segmented_image_path p =
              segmented_public_path name_ (ProductInfo.timestamp p) /\
              ProductInfo.enhanced_images p =
              three_renders name_ (ProductInfo.timestamp p))
         [ProductInfo.mk (PStr "Red Mug") (PFloat 0.9) (PStr "a mug") 4
            "/output/frame_abc_120.jpg" "/output/segmented_Red_Mug_4.jpg"
            ["/output/enhanced_Red_Mug_1_4.jpg"; "/output/enhanced_Red_Mug_2_4.jpg";
             "/output/enhanced_Red_Mug_3_4.jpg"]].
Proof.
  intros C final.
  refine (proj2 (proj2
            (completed_products_are_finished C "https://youtu.be/abc" tt _
               "Successfully processed video and found 1 products" tt _))).
  vm_compute. reflexivity.
Defined.
